(** * volttron/platform/control.py: agent supervision and agent installation

    A shallow embedding of the two stateful parts of [ControlService]:

    - the crash supervisor ([_monitor_agents], [_restart_agent],
      [send_alert]), which keeps the dictionary [crashed_agents];
    - the installer ([install_agent], [_identity_exists_but_no_force],
      [_identity_exists], [_install_wheel_to_platform], [remove_agent],
      [backup_agent_data], [restore_agent_data_from_tgz]), which pulls an
      agent package over a channel and registers it.

    and of the functions of the command line that select agents and
    remove them ([escape], [filter_agents], [filter_agent],
    [_calc_min_uuid_length], [priority], [remove_agent]).

    Python code is written in a state-and-exception monad: a mutation made
    before an exception is raised stays in the state, as in Python. *)

From stdpp Require Import gmap strings list.
From Stdlib Require Import ZArith Lia DecimalString.
From Stdlib.Strings Require Import Ascii Byte.

(** ** Exceptions and outcomes *)

(** The exceptions the modelled code raises or lets through. *)
Inductive exn : Type :=
| KeyError (key : string)        (* dict.pop(k) on a missing key *)
| ValueError (msg : string)
| AssertionError                 (* a failed [assert] *)
| GeventTimeout                  (* gevent.Timeout *)
| RemoteError (msg : string).    (* raised inside a collaborator *)

(** What a collaborator answers to one call. *)
Inductive reply (A : Type) : Type :=
| Ok (a : A)
| Fail (e : exn).
Arguments Ok {A} a.
Arguments Fail {A} e.

(** What running a piece of the program gives. [OutOfFuel] is not a Python
    outcome: it says that the bound put on a [while True] loop was too
    small to see the loop end. No handler runs on it. *)
Inductive outcome (A : Type) : Type :=
| Return (a : A)
| Raise (e : exn)
| OutOfFuel.
Arguments Return {A} a.
Arguments Raise {A} e.
Arguments OutOfFuel {A}.

(** ** The monad: reader of the environment, state, exceptions *)

Section monad.
Context {E S : Type}.

Definition M (A : Type) : Type := E -> S -> outcome A * S.

Definition ret {A} (a : A) : M A := fun _ s => (Return a, s).

Definition bind {A B} (m : M A) (k : A -> M B) : M B :=
  fun e s =>
    match m e s with
    | (Return a, s') => k a e s'
    | (Raise x, s') => (Raise x, s')
    | (OutOfFuel, s') => (OutOfFuel, s')
    end.

Definition raise {A} (x : exn) : M A := fun _ s => (Raise x, s).

Definition gets {A} (f : S -> A) : M A := fun _ s => (Return (f s), s).

Definition modify (f : S -> S) : M unit := fun _ s => (Return tt, f s).

(** A call to a collaborator whose answer the environment fixes. *)
Definition call {A} (f : E -> reply A) : M A :=
  fun e s =>
    match f e with
    | Ok a => (Return a, s)
    | Fail x => (Raise x, s)
    end.

Definition ask {A} (f : E -> A) : M A := fun e s => (Return (f e), s).

(** [try: m finally: c]. The clean-up runs after a return and after an
    exception; an exception of the clean-up replaces the pending one. *)
Definition try_finally {A} (m : M A) (c : M unit) : M A :=
  fun e s =>
    match m e s with
    | (OutOfFuel, s') => (OutOfFuel, s')
    | (r, s') =>
        match c e s' with
        | (Return _, s'') => (r, s'')
        | (Raise x, s'') => (Raise x, s'')
        | (OutOfFuel, s'') => (OutOfFuel, s'')
        end
    end.

(** [try: m except X: h; raise ...]: [handlers] gives the body of the
    clause that catches an exception, if one does; each clause ends in
    [raise], so the same exception goes on after the clause has run. An
    exception raised inside a clause is not looked up again. *)
Definition try_except_reraise {A} (m : M A)
    (handlers : exn -> option (M unit)) : M A :=
  fun e s =>
    match m e s with
    | (Raise x, s') =>
        match handlers x with
        | Some h =>
            match h e s' with
            | (Return _, s'') => (Raise x, s'')
            | (Raise y, s'') => (Raise y, s'')
            | (OutOfFuel, s'') => (OutOfFuel, s'')
            end
        | None => (Raise x, s')
        end
    | r => r
    end.

(** [for x in l: body x]. *)
Fixpoint for_each {A} (l : list A) (body : A -> M unit) : M unit :=
  match l with
  | [] => ret tt
  | x :: l' => bind (body x) (fun _ => for_each l' body)
  end.
End monad.
Arguments M : clear implicits.

Declare Scope py_scope.
Delimit Scope py_scope with py.
Notation "'let*' p ':=' m 'in' k" := (bind m (fun x => let 'p := x in k))
  (at level 10, p pattern, m at level 100, k at level 200) : py_scope.
Notation "m ;; k" := (bind m (fun _ => k))
  (at level 100, right associativity) : py_scope.

(** Python truthiness of the values the code tests with [if x:]. *)
Definition truthy_status (stat : option Z) : bool :=
  match stat with
  | None => false
  | Some c => negb (c =? 0)%Z
  end.

Definition truthy_str (s : string) : bool :=
  match s with
  | EmptyString => false
  | String _ _ => true
  end.

Definition truthy_opt_str (s : option string) : bool :=
  match s with
  | None => false
  | Some s => truthy_str s
  end.

(** ** The crash supervisor *)

Module Supervisor.

(** One row of [aip.status_agents()]:
    [(uid, name, (pid, stat), identity)]. [stat] is [None] while the agent
    runs, [0] after a clean stop, another exit code after a crash. *)
Abbreviation agent_status :=
  (string * string * (option Z * option Z) * option string)%type.

(** [Status.build(STATUS_BAD, context=context)]. *)
Record Status : Type := { status : string; context : string }.
Definition STATUS_BAD : string := "BAD".

(** The collaborators during one task of the scheduler: the agent
    registry [self._aip], the clock, the health subsystem and the
    router connection. Times are in microseconds. *)
Record Env : Type := {
  aip_status_agents : reply (list agent_status);
  aip_agent_status : string -> reply (option Z * option Z);
  aip_agent_identity : string -> reply (option string);
  aip_stop_agent : string -> reply unit;
  aip_start_agent : string -> reply (option Z * option Z);
  get_aware_utc_now : Z;
  health_send_alert : string -> Status -> reply unit;
  connection_send_vip : string -> list (option string) -> reply unit;
}.

(** What the supervisor asked of its collaborators, oldest first. *)
Inductive effect : Type :=
| Scheduled (when : Z) (uid name : string)
    (* core.schedule(when, self._restart_agent, uid, name) *)
| Alerted (agent_id agent_name alert_key : string) (st : Status)
    (* self.vip.health.send_alert(alert_key, status), for this agent *)
| StopRequested (uid : string)
| AgentStopSent (frames : list (option string))
| StartRequested (uid : string).

Record ControlService : Type := {
  crashed_agents : gmap string Z;
  effects : list effect;
}.

Definition set_crashed (f : gmap string Z -> gmap string Z)
    (s : ControlService) : ControlService :=
  {| crashed_agents := f (crashed_agents s); effects := effects s |}.

Definition emit (x : effect) : M Env ControlService unit :=
  modify (fun s =>
    {| crashed_agents := crashed_agents s; effects := effects s ++ [x] |}).

(** [d.pop(k)] without a default. *)
Definition crashed_agents_pop (k : string) : M Env ControlService Z :=
  (let* v := gets (fun s => crashed_agents s !! k) in
   match v with
   | Some n => modify (set_crashed (delete k)) ;; ret n
   | None => raise (KeyError k)
   end)%py.

(** [timedelta(minutes=m)], in microseconds. *)
Definition timedelta_minutes (m : Z) : Z := (m * 60000000)%Z.

Definition alert_key_of (agent_name agent_id : string) : string :=
  "Agent " +:+ agent_name +:+ "(" +:+ agent_id +:+ ") stopped unexpectedly".

Definition alert_context_of (agent_name agent_id : string) : string :=
  "Agent " +:+ agent_name +:+ "(" +:+ agent_id
    +:+ ") stopped unexpectedly. Attempts to restart failed".

Definition send_alert (agent_id agent_name : string)
    : M Env ControlService unit :=
  (let alert_key := alert_key_of agent_name agent_id in
   let context := alert_context_of agent_name agent_id in
   let status := {| status := STATUS_BAD; context := context |} in
   emit (Alerted agent_id agent_name alert_key status) ;;
   call (fun e => health_send_alert e alert_key status))%py.

(** The body of the [for] loop of [_monitor_agents]. *)
Definition monitor_agent (row : agent_status) : M Env ControlService unit :=
  (let '(uid, name, (pid, stat), _) := row in
   if truthy_status stat then
     let* attempt := gets (fun s => default (-1) (crashed_agents s !! uid) + 1)%Z in
     if (attempt <? 5)%Z then
       modify (set_crashed <[uid := attempt]>) ;;
       let* now := ask get_aware_utc_now in
       let next_restart := (now + timedelta_minutes (attempt * 5))%Z in
       emit (Scheduled next_restart uid name)
     else
       send_alert uid name ;;
       let* _ := crashed_agents_pop uid in
       ret tt
   else ret tt)%py.

Definition _monitor_agents : M Env ControlService unit :=
  (let* stats := call aip_status_agents in
   for_each stats monitor_agent)%py.

(** [ControlService.stop_agent] (the [isinstance] test holds: the
    supervisor passes the uuid string it got from the registry). *)
Definition stop_agent (uuid : string) : M Env ControlService unit :=
  (let* ident := call (fun e => aip_agent_identity e uuid) in
   emit (StopRequested uuid) ;;
   call (fun e => aip_stop_agent e uuid) ;;
   let frames := [ident] in
   emit (AgentStopSent frames) ;;
   call (fun e => connection_send_vip e "agentstop" frames))%py.

Definition _restart_agent (agent_id agent_name : string)
    : M Env ControlService unit :=
  (let* (id, stat) := call (fun e => aip_agent_status e agent_id) in
   if truthy_status stat then
     stop_agent agent_id ;;
     emit (StartRequested agent_id) ;;
     let* (id, stat) := call (fun e => aip_start_agent e agent_id) in
     match stat with
     | None => let* _ := crashed_agents_pop agent_id in ret tt
     | Some _ => ret tt
     end
   else ret tt)%py.

(** The scheduler runs tasks one after the other (gevent is
    cooperative); each task meets the collaborators in the state [Env]
    describes, and an exception ends that task only. *)
Inductive task : Type :=
| Poll
| RestartTask (uid name : string).

Definition run_task (t : task) : M Env ControlService unit :=
  match t with
  | Poll => _monitor_agents
  | RestartTask uid name => _restart_agent uid name
  end.

Fixpoint run_tasks (ts : list (task * Env)) (s : ControlService)
    : ControlService :=
  match ts with
  | [] => s
  | (t, e) :: ts' => run_tasks ts' (run_task t e s).2
  end.

(** *** What the properties below speak of *)

Definition row_uid (row : agent_status) : string := row.1.1.1.

(** The restarts scheduled and the alerts raised for one agent. *)
Definition concerns (uid : string) (x : effect) : bool :=
  match x with
  | Scheduled _ u _ => bool_decide (u = uid)
  | Alerted u _ _ _ => bool_decide (u = uid)
  | _ => false
  end.

Definition agent_events (uid : string) (l : list effect) : list effect :=
  List.filter (concerns uid) l.

(** The alert [send_alert] hands to the health subsystem. *)
Definition alert_for (uid name : string) : effect :=
  Alerted uid name (alert_key_of name uid)
    {| status := STATUS_BAD; context := alert_context_of name uid |}.

(** A poll in which the registry lists the agent, once, with a
    non-clean status, and the health subsystem takes every alert. *)
Definition crashing (uid name : string) (e : Env) : Prop :=
  ∃ before pid stat ident after,
    aip_status_agents e
      = Ok (before ++ (uid, name, (pid, stat), ident) :: after)
    ∧ truthy_status stat = true
    ∧ (uid ∉ (row_uid <$> before))
    ∧ (uid ∉ (row_uid <$> after))
    ∧ ∀ k st, health_send_alert e k st = Ok tt.



(** *** A simulated platform, to run the supervisor on *)

Definition sim (rows : list agent_status) (now : Z) (alert : reply unit)
    (start : option Z) : Env :=
  {| aip_status_agents := Ok rows;
     aip_agent_status := fun uid =>
       Ok (default (None, None)
             ((fun r : agent_status => r.1.2)
                <$> List.find (fun r => bool_decide (row_uid r = uid)) rows));
     aip_agent_identity := fun _ => Ok None;
     aip_stop_agent := fun _ => Ok tt;
     aip_start_agent := fun _ => Ok (Some 4242%Z, start);
     get_aware_utc_now := now;
     health_send_alert := fun _ _ => alert;
     connection_send_vip := fun _ _ => Ok tt |}.

Definition crashed_row (uid name : string) : agent_status :=
  (uid, name, (Some 77%Z, Some 1%Z), Some name).

Definition idle : ControlService :=
  {| crashed_agents := ∅; effects := [] |}.

(** Looking at one agent only: its crash record and its events. *)
Definition same_view (uid : string) (s s' : ControlService) : Prop :=
  crashed_agents s' !! uid = crashed_agents s !! uid
  ∧ agent_events uid (effects s') = agent_events uid (effects s).

(** *** Inputs the properties are tried on *)

Definition crash_poll (now : Z) : Env :=
  sim [crashed_row "a1b2" "listener"] now (Ok tt) (Some 1%Z).


Definition stuck : ControlService :=
  {| crashed_agents := {["a1b2" := 2%Z]}; effects := [] |}.

Definition alert_down : Env :=
  sim [crashed_row "a1b2" "listener"; crashed_row "c3d4" "forwarder"] 0
    (Fail (RemoteError "Unreachable")) (Some 1%Z).

Definition alert_up : Env :=
  sim [crashed_row "a1b2" "listener"; crashed_row "c3d4" "forwarder"] 0
    (Ok tt) (Some 1%Z).

Definition exhausted : ControlService :=
  {| crashed_agents := {["a1b2" := 4%Z]}; effects := [] |}.

End Supervisor.

(** ** The installer *)

Module Installer.

Abbreviation bytes := (list Byte.byte).

#[export] Instance byte_eq_dec : EqDecision Byte.byte := Byte.byte_eq_dec.

(** The sentinel [b"complete"]. *)
Definition complete : bytes :=
  ["c"; "o"; "m"; "p"; "l"; "e"; "t"; "e"]%byte.

(** The two requests, [jsonapi.dumpb(["fetch", n])] and
    [jsonapi.dumpb(["checksum"])]. *)
Inductive request : Type :=
| Fetch (chunk_size : nat)
| Checksum.

(** A directory or a tar archive: relative path to content. *)
Abbreviation tree := (gmap string bytes).

(** Modelled from the spec: the record the Agent Registry
    ([volttron/platform/aip.py], not part of the sources at hand) keeps
    for an installed agent: its name, identity, tag, priority, keypair
    and the package it was installed from. *)
Record agent : Type := {
  ag_name : string;
  ag_identity : option string;
  ag_tag : option string;
  ag_priority : option string;
  ag_public : option string;
  ag_secret : option string;
  ag_package : bytes;
}.

(** What was done to the registry, to the disk and to the router, oldest
    first. *)
Inductive event : Type :=
| Archived (archive dir : string)      (* backup_agent_data *)
| KeystoreRead (uuid : string)         (* aip.get_agent_keystore *)
| RouterTold (subsystem : string) (frames : list (option string))
    (* core.connection.send_vip *)
| Removed (uuid : string)              (* aip.remove_agent *)
| Installed (uuid : string) (vip_identity publickey secretkey : option string)
    (* aip.install_agent *)
| Restored (archive dir : string).     (* restore_agent_data_from_tgz *)

(** What outlives a call of [install_agent]: the registry, the data
    directories and [/tmp] archives on disk, and the record of what was
    done to them. *)
Record Platform : Type := {
  agents : gmap string agent;          (* uuid to agent *)
  dirs : gmap string tree;             (* directory path to files *)
  tarballs : gmap string tree;         (* archive path to members *)
  history : list event;
}.

(** One thing that happened on the channel, oldest first. *)
Inductive wire : Type :=
| Sent (r : request)
| Received (m : bytes)
| TimedOut.

(** What one call of [install_agent] owns. [peer] is the state of the
    other end of the channel. The temporary directory made by [mkdtemp]
    is new, so it is kept apart from [dirs]. *)
Record Session (C : Type) : Type := {
  peer : C;
  channel_open : bool;
  tmpdir : option tree;
  store_open : bool;
  sha512 : bytes;                      (* what was fed to the hash *)
  traffic : list wire;
  warnings : list string;
}.
Arguments peer {C} _.
Arguments channel_open {C} _.
Arguments tmpdir {C} _.
Arguments store_open {C} _.
Arguments sha512 {C} _.
Arguments traffic {C} _.
Arguments warnings {C} _.

Abbreviation State C := (Platform * Session C)%type.

(** The collaborators of one call: the hash function, the other end of
    the channel, the operating system asked to open the destination
    file, and what the registry decides on its own (the uuid it gives to
    the next installed agent, the name it lists a package under, where
    it keeps agent data). [fs_open name] is what [open(path, "wb")]
    answers for the file [name] of the temporary directory: it raises
    for a name that is empty, [.] or [..] ([IsADirectoryError]), and
    whenever the operating system refuses. Neither the spec nor the
    sources say how the registry names an agent, so [package_name], of
    the path and of the bytes handed to it, is left to the registry. *)
Record Env (C : Type) : Type := {
  sha512_digest : bytes -> bytes;
  chan_send : request -> C -> C;
  chan_recv : C -> option bytes * C;   (* None: nothing came in 30 s *)
  fs_open : string -> reply unit;
  uuid4 : string;
  package_name : string -> bytes -> string;
  agent_data_dir : string -> string;
}.
Arguments sha512_digest {C} _ _.
Arguments chan_send {C} _ _ _.
Arguments chan_recv {C} _ _.
Arguments fs_open {C} _ _.
Arguments uuid4 {C} _.
Arguments package_name {C} _ _ _.
Arguments agent_data_dir {C} _ _.

Section installer.
Context {C : Type}.
Local Abbreviation Py := (M (Env C) (State C)).

(** *** State updates *)

Definition set_agents (f : gmap string agent -> gmap string agent)
    (p : Platform) : Platform :=
  {| agents := f (agents p); dirs := dirs p; tarballs := tarballs p;
     history := history p |}.

Definition set_dirs (f : gmap string tree -> gmap string tree)
    (p : Platform) : Platform :=
  {| agents := agents p; dirs := f (dirs p); tarballs := tarballs p;
     history := history p |}.

Definition set_tarballs (f : gmap string tree -> gmap string tree)
    (p : Platform) : Platform :=
  {| agents := agents p; dirs := dirs p; tarballs := f (tarballs p);
     history := history p |}.

Definition set_history (f : list event -> list event) (p : Platform)
    : Platform :=
  {| agents := agents p; dirs := dirs p; tarballs := tarballs p;
     history := f (history p) |}.

Definition set_peer (f : C -> C) (s : Session C) : Session C :=
  {| peer := f (peer s); channel_open := channel_open s;
     tmpdir := tmpdir s; store_open := store_open s; sha512 := sha512 s;
     traffic := traffic s; warnings := warnings s |}.

Definition set_channel_open (b : bool) (s : Session C) : Session C :=
  {| peer := peer s; channel_open := b;
     tmpdir := tmpdir s; store_open := store_open s; sha512 := sha512 s;
     traffic := traffic s; warnings := warnings s |}.

Definition set_tmpdir (f : option tree -> option tree) (s : Session C)
    : Session C :=
  {| peer := peer s; channel_open := channel_open s;
     tmpdir := f (tmpdir s); store_open := store_open s;
     sha512 := sha512 s; traffic := traffic s; warnings := warnings s |}.

Definition set_store_open (b : bool) (s : Session C) : Session C :=
  {| peer := peer s; channel_open := channel_open s;
     tmpdir := tmpdir s; store_open := b; sha512 := sha512 s;
     traffic := traffic s; warnings := warnings s |}.

Definition set_sha512 (f : bytes -> bytes) (s : Session C) : Session C :=
  {| peer := peer s; channel_open := channel_open s;
     tmpdir := tmpdir s; store_open := store_open s;
     sha512 := f (sha512 s); traffic := traffic s;
     warnings := warnings s |}.

Definition set_traffic (f : list wire -> list wire) (s : Session C)
    : Session C :=
  {| peer := peer s; channel_open := channel_open s;
     tmpdir := tmpdir s; store_open := store_open s; sha512 := sha512 s;
     traffic := f (traffic s); warnings := warnings s |}.

Definition set_warnings (f : list string -> list string) (s : Session C)
    : Session C :=
  {| peer := peer s; channel_open := channel_open s;
     tmpdir := tmpdir s; store_open := store_open s; sha512 := sha512 s;
     traffic := traffic s; warnings := f (warnings s) |}.

Definition on_platform (f : Platform -> Platform) : Py unit :=
  modify (fun st : State C => (f st.1, st.2)).

Definition on_session (f : Session C -> Session C) : Py unit :=
  modify (fun st : State C => (st.1, f st.2)).

Definition log_warning (msg : string) : Py unit :=
  on_session (set_warnings (fun l => l ++ [msg])).

Definition record (x : event) : Py unit :=
  on_platform (set_history (fun l => l ++ [x])).

(** *** Files *)

(** [os.path.basename]: what follows the last slash. *)
Fixpoint basename_from (acc p : string) : string :=
  match p with
  | EmptyString => acc
  | String c r =>
      if Ascii.eqb c "/"%char then basename_from EmptyString r
      else basename_from (acc +:+ String c EmptyString) r
  end.
Definition basename (p : string) : string := basename_from EmptyString p.

(** [tmpdir = tempfile.mkdtemp()]: a new, empty directory. The call is
    taken to succeed; what is proved of a session below is proved of
    sessions in which [open], the next call, has answered. *)
Definition mkdtemp : Py unit :=
  on_session (set_tmpdir (fun _ => Some ∅)).

(** [store = open(path, "wb")], for [path] in the temporary directory:
    when the operating system opens it, the file is created, or
    emptied; when it does not, [open] raises and nothing is opened. *)
Definition open_store (path : string) : Py unit :=
  (let* t := gets (fun st : State C => tmpdir st.2) in
   match t with
   | Some _ =>
       call (fun e : Env C => fs_open e path) ;;
       on_session (set_tmpdir (fmap <[path := []]>)) ;;
       on_session (set_store_open true)
   | None => raise (RemoteError "FileNotFoundError")
   end)%py.

(** [store.write(chunk)]: the bytes go to the end of the file. (Python
    buffers them; the file is read only after [store.close()].) *)
Definition store_write (path : string) (chunk : bytes) : Py unit :=
  (let* o := gets (fun st : State C => store_open st.2) in
   if o then
     on_session
       (set_tmpdir (fmap (fun t => <[path := default [] (t !! path) ++ chunk]> t)))
   else raise (ValueError "I/O operation on closed file."))%py.

Definition store_close : Py unit := on_session (set_store_open false).

(** [shutil.rmtree(tmpdir, ignore_errors=True)]. *)
Definition rmtree_tmpdir : Py unit :=
  on_session (set_tmpdir (fun _ => None)).

(** [backup_agent_data]: [tar.add(source_dir, arcname=os.path.sep)]
    into a new archive at [output_filename]. *)
Definition backup_agent_data (output_filename source_dir : string)
    : Py unit :=
  (let* d := gets (fun st : State C => dirs st.1 !! source_dir) in
   match d with
   | Some files =>
       on_platform (set_tarballs <[output_filename := files]>) ;;
       record (Archived output_filename source_dir)
   | None => raise (RemoteError "FileNotFoundError")
   end)%py.

(** [restore_agent_data_from_tgz]: [tar.extractall(output_dir)]; a
    member replaces a file of the same name. *)
Definition restore_agent_data_from_tgz (source_file output_dir : string)
    : Py unit :=
  (let* a := gets (fun st : State C => tarballs st.1 !! source_file) in
   match a with
   | Some members =>
       on_platform
         (set_dirs (fun ds =>
            <[output_dir := members ∪ default ∅ (ds !! output_dir)]> ds)) ;;
       record (Restored source_file output_dir)
   | None => raise (RemoteError "FileNotFoundError")
   end)%py.

(** *** The channel and the hash *)

(** [channel = self.vip.channel(peer, channel_name)]. *)
Definition vip_channel (channel_name : string) : Py unit :=
  on_session (set_channel_open true).

Definition channel_send (r : request) : Py unit :=
  (let* send := ask (fun e : Env C => chan_send e) in
   on_session (set_peer (send r)) ;;
   on_session (set_traffic (fun l => l ++ [Sent r])))%py.

(** [channel.recv()] under [with gevent.Timeout(30)]. *)
Definition channel_recv : Py bytes :=
  (let* recv := ask (fun e : Env C => chan_recv e) in
   let* c := gets (fun st : State C => peer st.2) in
   match recv c with
   | (Some m, c') =>
       on_session (set_peer (fun _ => c')) ;;
       on_session (set_traffic (fun l => l ++ [Received m])) ;;
       ret m
   | (None, c') =>
       on_session (set_peer (fun _ => c')) ;;
       on_session (set_traffic (fun l => l ++ [TimedOut])) ;;
       raise GeventTimeout
   end)%py.

(** [channel.close(linger=0)]. *)
Definition channel_close : Py unit := on_session (set_channel_open false).

(** [sha512 = hashlib.sha512()], [sha512.update], [sha512.digest()]:
    the digest is the hash of everything fed so far. *)
Definition sha512_new : Py unit := on_session (set_sha512 (fun _ => [])).

Definition sha512_update (chunk : bytes) : Py unit :=
  on_session (set_sha512 (fun fed => fed ++ chunk)).

Definition sha512_get_digest : Py bytes :=
  (let* h := ask (fun e : Env C => sha512_digest e) in
   let* fed := gets (fun st : State C => sha512 st.2) in
   ret (h fed))%py.

(** [assert b]. *)
Definition assert (b : bool) : Py unit :=
  if b then ret tt else raise AssertionError.

(** *** The Agent Registry, [self._aip] *)

(** Modelled from the spec: [aip.agent_identity(uuid)],
    [aip.agent_tag(uuid)], [aip.agent_priority(uuid)] and
    [aip.get_agent_keystore(uuid)] read the record of an installed
    agent ([aip.py] is not part of the sources at hand). *)
Definition aip_agent_identity (p : Platform) (uuid : string)
    : option string := a ← agents p !! uuid; ag_identity a.
Definition aip_agent_tag (p : Platform) (uuid : string)
    : option string := a ← agents p !! uuid; ag_tag a.
Definition aip_agent_priority (p : Platform) (uuid : string)
    : option string := a ← agents p !! uuid; ag_priority a.
Definition keystore_of (p : Platform) (uuid : string)
    : option string * option string :=
  match agents p !! uuid with
  | Some a => (ag_public a, ag_secret a)
  | None => (None, None)
  end.

(** Modelled from the spec: [aip.list_agents()], the map from uuid to
    name ([listInstalled() -> [(uuid, name)]]). *)
Definition aip_list_agents (p : Platform) : list (string * string) :=
  map_to_list (ag_name <$> agents p).

(** Modelled from the spec: [aip.create_agent_data_dir_if_missing]
    ([dataDir(uuid) -> path], created on demand). *)
Definition aip_create_agent_data_dir_if_missing (uuid : string)
    : Py string :=
  (let* path := ask (fun e : Env C => agent_data_dir e uuid) in
   on_platform (set_dirs (fun ds =>
     match ds !! path with
     | Some _ => ds
     | None => <[path := ∅]> ds
     end)) ;;
   ret path)%py.

(** Modelled from the spec: [aip.remove_agent(uuid)] ([remove(uuid)]):
    the agent leaves the registry, and its data directory goes with
    it. *)
Definition aip_remove_agent (uuid : string) : Py unit :=
  (let* path := ask (fun e : Env C => agent_data_dir e uuid) in
   on_platform (set_agents (delete uuid)) ;;
   on_platform (set_dirs (delete path)) ;;
   record (Removed uuid))%py.

(** Modelled from the spec: [aip.install_agent]
    ([install(path, identity, publickey?, secretkey?) -> uuid]): the
    package at [path] is registered under the uuid the registry picks,
    and under the name the registry gives it. *)
Definition aip_install_agent (path : string)
    (vip_identity publickey secretkey : option string) : Py string :=
  (let* t := gets (fun st : State C => tmpdir st.2) in
   match t ≫= (.!! path) with
   | Some wheel =>
       let* uuid := ask (fun e : Env C => uuid4 e) in
       let* name := ask (fun e : Env C => package_name e path wheel) in
       on_platform (set_agents <[uuid :=
         {| ag_name := name; ag_identity := vip_identity;
            ag_tag := None; ag_priority := None;
            ag_public := publickey; ag_secret := secretkey;
            ag_package := wheel |}]>) ;;
       record (Installed uuid vip_identity publickey secretkey) ;;
       ret uuid
   | None => raise (RemoteError "FileNotFoundError")
   end)%py.

(** Modelled from the spec: [aip.get_agent_keystore(uuid)]
    ([keystore(uuid) -> (publickey, secretkey)]); the read is put on
    record. *)
Definition aip_get_agent_keystore (uuid : string)
    : Py (option string * option string) :=
  (record (KeystoreRead uuid) ;;
   gets (fun st : State C => keystore_of st.1 uuid))%py.

(** *** [ControlService] *)

(** One element of the list [list_agents] returns. *)
Record listed : Type := {
  l_name : string;
  l_uuid : string;
  l_tag : option string;
  l_priority : option string;
  l_identity : option string;
}.

Definition list_agents : Py (list listed) :=
  gets (fun st : State C =>
    let p := st.1 in
    (fun '(uuid, name) =>
       {| l_name := name; l_uuid := uuid;
          l_tag := aip_agent_tag p uuid;
          l_priority := aip_agent_priority p uuid;
          l_identity := aip_agent_identity p uuid |})
      <$> aip_list_agents p).

(** The [for] loop returns at the first match. *)
Definition _identity_exists (ident : string) : Py (option string) :=
  (let* results := list_agents in
   match results with
   | [] => ret None
   | _ =>
       ret (l_uuid <$>
              List.find (fun x => bool_decide (l_identity x = Some ident))
                results)
   end)%py.

Definition _identity_exists_but_no_force (vip_identity : option string)
    (force : bool) : Py (option string * bool) :=
  (let* agent_uuid :=
     match vip_identity with
     | Some ident =>
         if truthy_str ident then _identity_exists ident
         else ret None
     | None => ret None
     end in
   if truthy_opt_str agent_uuid then
     if negb force then
       raise (ValueError "Identity already exists, but not forced!")
     else ret (agent_uuid, true)
   else ret (agent_uuid, false))%py.

Definition remove_agent (uuid : string) : Py unit :=
  (let* ident := gets (fun st : State C => aip_agent_identity st.1 uuid) in
   let frames := [ident] in
   record (RouterTold "agentstop" frames) ;;
   aip_remove_agent uuid)%py.

Definition _install_wheel_to_platform (agent_uuid vip_identity : option string)
    (path : string) (agent_existed_before : bool) : Py string :=
  (let* (backup_agent_file, publickey, secretkey) :=
     match agent_uuid with
     | Some uuid =>
         if truthy_str uuid then
           let backup_agent_file := "/tmp/" +:+ uuid +:+ ".tar.gz" in
           let* agent_data_dir :=
             aip_create_agent_data_dir_if_missing uuid in
           (if truthy_str agent_data_dir then
              backup_agent_data backup_agent_file agent_data_dir
            else ret tt) ;;
           let* keystore := aip_get_agent_keystore uuid in
           let publickey := keystore.1 in
           let secretkey := keystore.2 in
           remove_agent uuid ;;
           ret (Some backup_agent_file, publickey, secretkey)
         else ret (None, None, None)
     | None => ret (None, None, None)
     end in
   let* agent_uuid :=
     aip_install_agent path vip_identity publickey secretkey in
   match backup_agent_file with
   | Some file =>
       if agent_existed_before then
         let* d := aip_create_agent_data_dir_if_missing agent_uuid in
         restore_agent_data_from_tgz file d
       else ret tt
   | None => ret tt
   end ;;
   ret agent_uuid)%py.

(** The [while True] loop of [install_agent], at most [fuel] turns.
    [ret tt] stands for [break]. *)
Fixpoint receive_file (fuel : nat) (request_fetch request_checksum : request)
    (path : string) : Py unit :=
  match fuel with
  | O => fun _ st => (OutOfFuel, st)
  | S fuel' =>
      (channel_send request_fetch ;;
       let* chunk := channel_recv in
       if bool_decide (chunk = complete) then ret tt
       else
         sha512_update chunk ;;
         store_write path chunk ;;
         channel_send request_checksum ;;
         let* checksum := channel_recv in
         let* digest := sha512_get_digest in
         assert (bool_decide (checksum = digest)) ;;
         receive_file fuel' request_fetch request_checksum path)%py
  end.

(** The chunk size [install_agent] asks for. *)
Definition FETCH_SIZE : nat := 1024.

(** The two [except] clauses of the inner [try]. *)
Definition transfer_handlers (x : exn) : option (Py unit) :=
  match x with
  | AssertionError => Some (log_warning "Checksum mismatch on received file")
  | GeventTimeout => Some (log_warning "Gevent timeout trying to receive data")
  | _ => None
  end.

(** The transfer proper: the lines of [install_agent] from
    [store = open(path, "wb")] to the end of the inner [try]. The
    source writes them in line, with [request_fetch] bound to
    [["fetch", 1024]]. *)
Definition pull_artifact (fuel : nat) (request_fetch request_checksum : request)
    (path : string) : Py unit :=
  (open_store path ;;
   sha512_new ;;
   try_finally
     (try_except_reraise
        (receive_file fuel request_fetch request_checksum path)
        transfer_handlers)
     (store_close ;; channel_close))%py.

Definition install_agent (fuel : nat) (filename channel_name : string)
    (vip_identity publickey secretkey : option string) (force : bool)
    : Py string :=
  (let* (agent_uuid, agent_existed_before) :=
     _identity_exists_but_no_force vip_identity force in
   vip_channel channel_name ;;
   try_finally
     (mkdtemp ;;
      let path := basename filename in
      let request_checksum := Checksum in
      let request_fetch := Fetch FETCH_SIZE in
      pull_artifact fuel request_fetch request_checksum path ;;
      _install_wheel_to_platform agent_uuid vip_identity path
        agent_existed_before)
     rmtree_tmpdir)%py.
End installer.

(** *** The other end of the channel *)

(** Modelled from the spec: the sending side of the transfer (the client
    of [install_agent] is not part of the sources at hand). On a fetch it
    reads up to the asked number of bytes at its cursor and answers with
    them, or with the sentinel when no bytes remain; on a checksum
    request it answers with the digest of all it has sent. *)
Record sender : Type := {
  source : bytes;
  cursor : nat;
  sent : bytes;
  outbox : list bytes;
}.

Definition sender_start (artifact : bytes) : sender :=
  {| source := artifact; cursor := 0; sent := []; outbox := [] |}.

Definition sender_answer (m : bytes) (s : sender) : sender :=
  {| source := source s; cursor := cursor s; sent := sent s;
     outbox := outbox s ++ [m] |}.

Definition sender_on_request (h : bytes -> bytes) (r : request) (s : sender)
    : sender :=
  match r with
  | Fetch n =>
      if bool_decide (length (source s) ≤ cursor s) then
        sender_answer complete s
      else
        let chunk := take n (drop (cursor s) (source s)) in
        {| source := source s; cursor := cursor s + length chunk;
           sent := sent s ++ chunk; outbox := outbox s ++ [chunk] |}
  | Checksum => sender_answer (h (sent s)) s
  end.

Definition sender_deliver (s : sender) : option bytes * sender :=
  match outbox s with
  | [] => (None, s)
  | m :: q =>
      (Some m,
       {| source := source s; cursor := cursor s; sent := sent s;
          outbox := q |})
  end.

(** A simulated operating system, for the platforms the properties are
    tried on. It opens a file of the temporary directory when the name
    is one a file can have there: not empty, not [.] or [..] (these are
    directories), without slash (a new directory has no directory in
    it), without the zero character and of at most 255 characters. *)
Definition local_open (name : string) : reply unit :=
  if bool_decide (name ∈ [EmptyString; "."; ".."]) then
    Fail (RemoteError "IsADirectoryError")
  else if existsb (Ascii.eqb "000"%char) (String.list_ascii_of_string name)
  then Fail (ValueError "embedded null byte")
  else if existsb (Ascii.eqb "/"%char) (String.list_ascii_of_string name)
  then Fail (RemoteError "FileNotFoundError")
  else if bool_decide (255 < String.length name) then
    Fail (RemoteError "OSError: File name too long")
  else Ok tt.

(** A simulated registry, which lists a package under the name of its
    file. *)
Definition named_after_file (path : string) (wheel : bytes) : string := path.

Definition sender_env (h : bytes -> bytes) (uuid : string)
    (data_dir : string -> string) : Env sender :=
  {| sha512_digest := h; chan_send := sender_on_request h;
     chan_recv := sender_deliver; fs_open := local_open; uuid4 := uuid;
     package_name := named_after_file; agent_data_dir := data_dir |}.

(** A peer that plays a fixed script, whatever it is asked: the next
    message, or silence ([None], and silence once the script is over). *)
Abbreviation script := (list (option bytes)).

Definition script_deliver (s : script) : option bytes * script :=
  match s with
  | [] => (None, [])
  | m :: q => (m, q)
  end.

Definition script_env (h : bytes -> bytes) (uuid : string)
    (data_dir : string -> string) : Env script :=
  {| sha512_digest := h; chan_send := fun _ s => s;
     chan_recv := script_deliver; fs_open := local_open; uuid4 := uuid;
     package_name := named_after_file; agent_data_dir := data_dir |}.

(** The [k]-th chunk of [c] bytes of an artifact. *)
Definition chunk_at (c k : nat) (artifact : bytes) : bytes :=
  take c (drop (k * c) artifact).

(** The messages received in answer to a checksum request. *)
Fixpoint checksums (t : list wire) : list bytes :=
  match t with
  | Sent Checksum :: Received d :: t' => d :: checksums t'
  | _ :: t' => checksums t'
  | [] => []
  end.

Definition fresh_session {C : Type} (c : C) : Session C :=
  {| peer := c; channel_open := false; tmpdir := None; store_open := false;
     sha512 := []; traffic := []; warnings := [] |}.

(** *** What the properties below speak of *)

(** The session after one chunk was received, hashed, written, and its
    checksum asked for and received. *)
Definition round_done {C} (rf rc : request) (path : string) (chunk d : bytes)
    (c' : C) (st : State C) : State C :=
  (st.1,
   {| peer := c'; channel_open := channel_open st.2;
      tmpdir := (fun t => <[path := default [] (t !! path) ++ chunk]> t)
                  <$> tmpdir st.2;
      store_open := store_open st.2;
      sha512 := sha512 st.2 ++ chunk;
      traffic := traffic st.2
                   ++ [Sent rf; Received chunk; Sent rc; Received d];
      warnings := warnings st.2 |}).

(** The session when the loop starts. *)
Definition opened {C} (path : string) (t : tree) (s : Session C) : Session C :=
  {| peer := peer s; channel_open := channel_open s;
     tmpdir := Some (<[path := []]> t); store_open := true; sha512 := [];
     traffic := traffic s; warnings := warnings s |}.

(** What the [finally] clause of the inner [try] leaves. *)
Definition closed {C} (st : State C) : State C :=
  (st.1, set_channel_open false (set_store_open false st.2)).

(** What the [except] clause that catches [x] leaves. *)
Definition warned {C} (x : exn) (st : State C) : State C :=
  match x with
  | AssertionError =>
      (st.1, set_warnings
               (fun l => l ++ ["Checksum mismatch on received file"]) st.2)
  | GeventTimeout =>
      (st.1, set_warnings
               (fun l => l ++ ["Gevent timeout trying to receive data"]) st.2)
  | _ => st
  end.

(** What the outer [finally] leaves. *)
Definition removed {C} (st : State C) : State C :=
  (st.1, set_tmpdir (fun _ => None) st.2).

(** Code that leaves the session alone, code that leaves the platform
    alone. *)
Definition session_kept {C A} (e : Env C) (m : M (Env C) (State C) A) : Prop :=
  ∀ st, (m e st).2.2 = st.2.

Definition platform_kept {C A} (e : Env C) (m : M (Env C) (State C) A) : Prop :=
  ∀ st, (m e st).2.1 = st.1.

(** The exchange the state machine of the spec goes through, for a
    sender that has sent [sent] and still holds [rest]. *)
Fixpoint transcript (fuel n : nat) (h : bytes → bytes) (sent rest : bytes)
    : list wire :=
  match fuel with
  | O => []
  | S fuel' =>
      match rest with
      | [] => [Sent (Fetch n); Received complete]
      | _ =>
          let chunk := take n rest in
          Sent (Fetch n) :: Received chunk :: Sent Checksum
            :: Received (h (sent ++ chunk))
            :: transcript fuel' n h (sent ++ chunk) (drop n rest)
      end
  end.

(** A script of rounds that go well: each chunk, then the digest of all
    chunks so far. *)
Fixpoint good_rounds (h : bytes → bytes) (fed : bytes) (chunks : list bytes)
    : script :=
  match chunks with
  | [] => []
  | c :: cs => Some c :: Some (h (fed ++ c)) :: good_rounds h (fed ++ c) cs
  end.

(** What these rounds leave on the channel. *)
Fixpoint rounds_traffic (h : bytes → bytes) (rf rc : request) (fed : bytes)
    (chunks : list bytes) : list wire :=
  match chunks with
  | [] => []
  | c :: cs =>
      Sent rf :: Received c :: Sent rc :: Received (h (fed ++ c))
        :: rounds_traffic h rf rc (fed ++ c) cs
  end.

Definition released {C} (s : Session C) : Prop :=
  channel_open s = false ∧ store_open s = false ∧ tmpdir s = None.

(** [install_agent] against a scripted peer, from a session that has not
    begun. *)
Definition scripted_install (h : bytes -> bytes) (uuid : string)
    (dd : string -> string) (fuel : nat) (filename chan : string)
    (vip pk sk : option string) (force : bool) (p : Platform) (sc : script)
    : outcome string * State script :=
  install_agent fuel filename chan vip pk sk force (script_env h uuid dd)
    (p, fresh_session sc).

(** *** Inputs the properties are tried on *)

Definition nowhere : Platform :=
  {| agents := ∅; dirs := ∅; tarballs := ∅; history := [] |}.

Definition toy_hash (b : bytes) : bytes := b ++ ["#"%byte].

Definition data_dir_of (uuid : string) : string :=
  "/agents/" +:+ uuid +:+ "/data".

Definition listener : agent :=
  {| ag_name := "listeneragent-3.3"; ag_identity := Some "listener";
     ag_tag := None; ag_priority := Some "50";
     ag_public := Some "pub-key"; ag_secret := Some "sec-key";
     ag_package := ["o"; "l"; "d"]%byte |}.

(** A platform with one agent, which has one file in its data
    directory. *)
Definition lived_in : Platform :=
  {| agents := {["old-1" := listener]};
     dirs := {[data_dir_of "old-1" := {["state.json" := ["{"; "}"]%byte]}]};
     tarballs := ∅; history := [] |}.

End Installer.

(** ** The state of the supervisor, looked at from outside *)

Module Attempts.
Import Supervisor.
(** Every stored attempt count is one of 0, 1, 2, 3, 4. *)
Definition attempts_bounded (s : ControlService) : Prop :=
  ∀ k v, crashed_agents s !! k = Some v → (0 ≤ v ≤ 4)%Z.

(** A restart scheduled by a poll that read [now] on the clock: 0, 5, 10,
    15 or 20 minutes ahead. An alert. Nothing else. *)
Definition poll_effect (now : Z) (x : effect) : Prop :=
  match x with
  | Scheduled when _ _ =>
      ∃ k : Z, (0 ≤ k ≤ 4)%Z ∧ when = (now + timedelta_minutes (k * 5))%Z
  | Alerted _ _ _ _ => True
  | _ => False
  end.



(** The exit status in a row of [aip.status_agents()]. *)
Definition row_stat (row : agent_status) : option Z := row.1.2.2.



End Attempts.

(** ** More of [ControlService] *)

Module Rpc.
Import Installer.
Section rpc.
Context {C : Type}.
Local Abbreviation Py := (M (Env C) (State C)).

(** [ControlService.identity_exists]: [if not identity] holds of [None]
    and of the empty string. *)
Definition identity_exists (ident : option string) : Py (option string) :=
  if truthy_opt_str ident then _identity_exists (default EmptyString ident)
  else raise (ValueError "Attribute identity cannot be None or empty").
End rpc.
End Rpc.

(** ** A peer that never ends the transfer *)

Module Peers.
Import Installer.

(** A peer that never ends the transfer: it answers every fetch with the
    same chunk and every checksum request with the digest of all it has
    sent. *)
Record feeder : Type := {
  fed : bytes;
  asked : option request;
}.

Definition feeder_start : feeder := {| fed := []; asked := None |}.

Definition feeder_on_request (r : request) (c : feeder) : feeder :=
  {| fed := fed c; asked := Some r |}.

Definition feeder_deliver (h : bytes -> bytes) (chunk : bytes) (c : feeder)
    : option bytes * feeder :=
  match asked c with
  | Some (Fetch _) => (Some chunk, {| fed := fed c ++ chunk; asked := None |})
  | Some Checksum => (Some (h (fed c)), {| fed := fed c; asked := None |})
  | None => (None, c)
  end.

Definition feeder_env (h : bytes -> bytes) (chunk : bytes) (uuid : string)
    (data_dir : string -> string) : Env feeder :=
  {| sha512_digest := h; chan_send := feeder_on_request;
     chan_recv := feeder_deliver h chunk; fs_open := local_open;
     uuid4 := uuid; package_name := named_after_file;
     agent_data_dir := data_dir |}.
End Peers.

(** ** The command line *)

Module Cli.
Import Installer.

(** *** Patterns *)

Definition newline : ascii := "010"%char.

(** A regular expression as [escape] builds them, kept as the list of its
    tokens rather than as text: a character taken literally (what
    [re.escape] makes of it), [.], [.*] and [$]. Strings are strings of
    ASCII characters, as uuids are. *)
Inductive token : Type :=
| Lit (c : ascii)
| AnyChar
| AnyString
| EndOfString.

Abbreviation regex := (list token).

(** [re.escape(s)]: a pattern that matches the characters of [s] and
    nothing else. *)
Fixpoint re_escape (s : string) : regex :=
  match s with
  | EmptyString => []
  | String c r => Lit c :: re_escape r
  end.

(** [reobj.match(s)] without flags: the pattern is tried at the start of
    [s] and need not reach its end. [.] takes any character but a
    newline, [$] holds at the end of [s] and before a newline that ends
    [s]. *)
Fixpoint re_match (r : regex) (s : string) : bool :=
  match r with
  | [] => true
  | Lit c :: r' =>
      match s with
      | String d s' => Ascii.eqb c d && re_match r' s'
      | EmptyString => false
      end
  | AnyChar :: r' =>
      match s with
      | String d s' => negb (Ascii.eqb d newline) && re_match r' s'
      | EmptyString => false
      end
  | AnyString :: r' =>
      (fix star (s : string) : bool :=
         re_match r' s
         || match s with
            | String d s' => negb (Ascii.eqb d newline) && star s'
            | EmptyString => false
            end) s
  | EndOfString :: r' =>
      (bool_decide (s = EmptyString)
       || bool_decide (s = String newline EmptyString))
      && re_match r' s
  end.

(** The two wildcards of a pattern. *)
Definition is_wild (c : ascii) : bool :=
  Ascii.eqb c "*"%char || Ascii.eqb c "?"%char.

(** [re.split(r"([*?])", pattern)]: the pieces between the wildcards,
    and the wildcards between them. *)
Fixpoint re_split_from (acc p : string) : list string :=
  match p with
  | EmptyString => [acc]
  | String c r =>
      if is_wild c then
        acc :: String c EmptyString :: re_split_from EmptyString r
      else re_split_from (acc +:+ String c EmptyString) r
  end.
Definition re_split (pattern : string) : list string :=
  re_split_from EmptyString pattern.

(** The pattern text [\?] or [\*]: the second character, taken
    literally. *)
Definition re_backslashed (s : string) : regex :=
  match s with
  | String _ (String c EmptyString) => [Lit c]
  | _ => []
  end.

Definition escape (pattern : string) : regex * bool :=
  let strings := re_split pattern in
  if bool_decide (length strings = 1) then (re_escape pattern, false)
  else
    (concat
       ((fun s =>
           if bool_decide (s = "*") then [AnyString]
           else if bool_decide (s = "?") then [AnyChar]
           else if bool_decide (s ∈ ["\?"; "\*"]) then re_backslashed s
           else re_escape s) <$> strings),
     true).

(** What [escape] makes of one piece of the split pattern. *)
Definition piece (s : string) : regex :=
  if bool_decide (s = "*") then [AnyString]
  else if bool_decide (s = "?") then [AnyChar]
  else if bool_decide (s ∈ ["\?"; "\*"]) then re_backslashed s
  else re_escape s.

(** *** Agents *)

(** The named tuple [Agent]. A set of agents is a [gset]: what is put
    in twice is in once, and nothing is said of the order in which a
    [for] goes through it. *)
Record Agent : Type := {
  name : string;
  tag : option string;
  uuid : string;
  vip_identity : option string;
  agent_user : string;
}.

#[export] Instance Agent_eq_dec : EqDecision Agent.
Proof. solve_decision. Defined.

#[export] Instance Agent_countable : Countable Agent :=
  inj_countable'
    (fun a => (name a, tag a, uuid a, vip_identity a, agent_user a))
    (fun t =>
       {| name := t.1.1.1.1; tag := t.1.1.1.2; uuid := t.1.1.2;
          vip_identity := t.1.2; agent_user := t.2 |})
    (fun a => match a with Build_Agent _ _ _ _ _ => eq_refl end).

Definition _list_agents (p : Platform) : list Agent :=
  (fun '(uuid, name) =>
     {| name := name; tag := aip_agent_tag p uuid; uuid := uuid;
        vip_identity := aip_agent_identity p uuid;
        agent_user := EmptyString |})
    <$> aip_list_agents p.

(** The options of the command line that the functions below read. *)
Record options : Type := {
  command : string;
  pattern : list string;
  by_name : bool;
  by_tag : bool;
  by_uuid : bool;
  force : bool;
}.

(** The generator [filter_agents], as the list of what it yields. *)
Definition filter_agents (agents : list Agent) (patterns : list string)
    (opts : options) : list (string * gset Agent) :=
  (fun pattern =>
     let '(regex, _) := escape pattern in
     let result : gset Agent := ∅ in
     let result :=
       if negb (by_uuid opts || by_name opts || by_tag opts) then
         let reobj := regex in
         let matches :=
           List.filter (fun agent => re_match reobj (uuid agent)) agents in
         if bool_decide (length matches = 1) then
           result ∪ list_to_set matches
         else if bool_decide (length matches = 0) then
           let matches :=
             List.filter (fun agent => re_match reobj (name agent)) agents in
           if bool_decide (1 ≤ length matches) then
             result ∪ list_to_set matches
           else result
         else result
       else
         let reobj := regex ++ [EndOfString] in
         let result :=
           if by_uuid opts then
             result
             ∪ list_to_set
                 (List.filter (fun agent => re_match reobj (uuid agent))
                    agents)
           else result in
         let result :=
           if by_name opts then
             result
             ∪ list_to_set
                 (List.filter (fun agent => re_match reobj (name agent))
                    agents)
           else result in
         let result :=
           if by_tag opts then
             result
             ∪ list_to_set
                 (List.filter
                    (fun agent =>
                       re_match reobj (default EmptyString (tag agent)))
                    agents)
           else result in
         result in
     (pattern, result)) <$> patterns.

(** What a pattern selects without options, as a list. *)
Definition selected (agents : list Agent) (pattern : string) : list Agent :=
  let by_uuid :=
    List.filter (fun agent => re_match (escape pattern).1 (uuid agent))
      agents in
  let by_name :=
    List.filter (fun agent => re_match (escape pattern).1 (name agent))
      agents in
  match by_uuid with
  | [_] => by_uuid
  | [] => by_name
  | _ => []
  end.

(** [next(filter_agents(agents, [pattern], opts))[1]]. *)
Definition filter_agent (agents : list Agent) (pattern : string)
    (opts : options) : gset Agent :=
  match filter_agents agents [pattern] opts with
  | (_, result) :: _ => result
  | [] => ∅
  end.

(** [os.path.commonprefix([a, b])]. *)
Fixpoint commonprefix (a b : string) : string :=
  match a, b with
  | String x a', String y b' =>
      if Ascii.eqb x y then String x (commonprefix a' b') else EmptyString
  | _, _ => EmptyString
  end.

(** The agents of the list are objects of their own ([_list_agents]
    builds each of them), so [agent1 is agent2] compares positions. *)
Definition _calc_min_uuid_length (agents : list Agent) : nat :=
  let indexed := imap (fun i a => (i, a)) agents in
  foldl
    (fun n '(i, agent1) =>
       foldl
         (fun n '(j, agent2) =>
            if bool_decide (i = j) then n
            else
              let common_len :=
                String.length (commonprefix (uuid agent1) (uuid agent2)) in
              if bool_decide (n < common_len) then common_len else n)
         n indexed)
    0 indexed
  + 1.

(** The length of what two agents' uuids have in common at their start. *)
Definition common_len (a b : Agent) : nat :=
  String.length (commonprefix (uuid a) (uuid b)).

(** [s[:n]]. *)
Fixpoint str_take (n : nat) (s : string) : string :=
  match n, s with
  | S n', String c r => String c (str_take n' r)
  | _, _ => EmptyString
  end.

(** *** Commands *)

(** What a command has written. *)
Record Console : Type := {
  stdout : list string;
  stderr : list string;
}.

Section commands.
Context {C : Type}.
Local Abbreviation Cmd := (M (Env C) (State C * Console)).

Definition _stdout_write (s : string) : Cmd unit :=
  modify (fun st : State C * Console =>
    (st.1, {| stdout := stdout st.2 ++ [s]; stderr := stderr st.2 |})).

Definition _stderr_write (s : string) : Cmd unit :=
  modify (fun st : State C * Console =>
    (st.1, {| stdout := stdout st.2; stderr := stderr st.2 ++ [s] |})).

(** [opts.connection.call(method, ...)]: the method of [ControlService]
    runs on the platform. *)
Definition connection_call {A} (method : M (Env C) (State C) A) : Cmd A :=
  fun e st => let r := method e st.1 in (r.1, (r.2, st.2)).

(** The loop of [remove_agent] over what [filter_agents] yields; the
    result is what the function returns, [None] at the end of the loop.
    The registry of the model keeps no authorization entries, and
    [remove_auth] goes unused. *)
Fixpoint remove_agent_loop (opts : options) (remove_auth : bool)
    (yielded : list (string * gset Agent)) : Cmd (option Z) :=
  match yielded with
  | [] => ret None
  | (pattern, match_) :: rest =>
      let for_agent_in_match :=
        for_each (elements match_) (fun agent =>
          _stdout_write
            ("Removing " +:+ uuid agent +:+ " " +:+ name agent
             +:+ String newline EmptyString) ;;
          connection_call (Installer.remove_agent (uuid agent)))%py in
      if bool_decide (match_ = ∅) then
        (_stderr_write
           (command opts +:+ ": error: agent not found: " +:+ pattern
            +:+ String newline EmptyString) ;;
         for_agent_in_match ;;
         remove_agent_loop opts remove_auth rest)%py
      else if bool_decide (1 < size match_) && negb (force opts) then
        (_stderr_write
           (command opts +:+ ": error: pattern returned multiple agents: "
            +:+ pattern +:+ String newline EmptyString) ;;
         _stderr_write
           ("Use -f or --force to force removal of multiple agents."
            +:+ String newline EmptyString) ;;
         ret (Some 10%Z))%py
      else
        (for_agent_in_match ;;
         remove_agent_loop opts remove_auth rest)%py
  end.

Definition remove_agent (opts : options) (remove_auth : bool)
    : Cmd (option Z) :=
  (let* agents := gets (fun st : State C * Console => _list_agents st.1.1) in
   remove_agent_loop opts remove_auth
     (filter_agents agents (pattern opts) opts))%py.
End commands.

(** The patterns the loop gets through: all of them with [force], else
    those before the first that selects several agents. *)
Fixpoint gone_through (opts : options)
    (yielded : list (string * gset Agent)) : list (string * gset Agent) :=
  match yielded with
  | [] => []
  | y :: rest =>
      if bool_decide (1 < size y.2) && negb (force opts) then []
      else y :: gone_through opts rest
  end.

(** *** Priorities *)

(** ["{}".format(n)], the decimal digits of [n]. *)
Definition format_int (n : Z) : string := NilZero.string_of_int (Z.to_int n).

(** ["{:02}".format(n)]: zeros are put before the digits, after the sign,
    until there are at least two characters. *)
Definition format_02 (n : Z) : string :=
  let s := format_int n in
  if String.length s <? 2 then "0" +:+ s else s.

(** [priority], the [type=] of the command line argument. [int] is
    Python's [int()] on strings. *)
Definition priority (int : string → reply Z) (value : string) : reply string :=
  match int value with
  | Ok n =>
      if negb ((0 <=? n)%Z && (n <? 100)%Z) then
        Fail (ValueError ("invalid priority (0 <= n < 100): " +:+ format_int n))
      else Ok (format_02 n)
  | Fail x => Fail x
  end.

(** The check that two priorities and their texts compare alike. *)
Definition priorities_agree (n1 n2 : nat) : bool :=
  let s1 := format_02 (Z.of_nat n1) in
  let s2 := format_02 (Z.of_nat n2) in
  (String.length s1 =? 2)
  && Bool.eqb (String.ltb s1 s2) (n1 <? n2)
  && Bool.eqb (String.eqb s1 s2) (n1 =? n2).

(** What the patterns mean: the strings a pattern matches in full. [*]
    stands for any characters and [?] for any one character, newlines
    apart; every other character stands for itself. [rest] says what may
    follow the match. *)
Inductive glob (rest : string → Prop) : string → string → Prop :=
| glob_end s : rest s → glob rest EmptyString s
| glob_star_none p s : glob rest p s → glob rest (String "*" p) s
| glob_star_more p c s :
    c ≠ newline → glob rest (String "*" p) s →
    glob rest (String "*" p) (String c s)
| glob_one p c s :
    c ≠ newline → glob rest p s → glob rest (String "?" p) (String c s)
| glob_lit c p s :
    is_wild c = false → glob rest p s →
    glob rest (String c p) (String c s).

(** After a match without [$] anything may follow; after one with [$]
    the string is over, or one newline ends it. *)
Definition anything (s : string) : Prop := True.
Definition at_end (s : string) : Prop :=
  s = EmptyString ∨ s = String newline EmptyString.

(** No wildcard occurs in the string. *)
Fixpoint wild_free (s : string) : bool :=
  match s with
  | EmptyString => true
  | String c r => negb (is_wild c) && wild_free r
  end.

(** The pattern, character by character. *)
Fixpoint glob_tokens (p : string) : regex :=
  match p with
  | EmptyString => []
  | String c r =>
      (if Ascii.eqb c "*" then AnyString
       else if Ascii.eqb c "?" then AnyChar
       else Lit c) :: glob_tokens r
  end.

(** *** Inputs the properties are tried on *)

Definition listener_1 : Agent :=
  {| name := "listeneragent-3.3"; tag := Some "prod"; uuid := "a1b2";
     vip_identity := Some "listener"; agent_user := EmptyString |}.

Definition listener_2 : Agent :=
  {| name := "listeneragent-3.3"; tag := None; uuid := "a1c3";
     vip_identity := Some "listener-2"; agent_user := EmptyString |}.

Definition forwarder : Agent :=
  {| name := "forwarder-1.0"; tag := None; uuid := "f00d";
     vip_identity := None; agent_user := EmptyString |}.

Definition fleet : list Agent := [listener_1; listener_2; forwarder].

(** [vctl remove] with these patterns and no option. *)
Definition plain (patterns : list string) : options :=
  {| command := "remove"; pattern := patterns; by_name := false;
     by_tag := false; by_uuid := false; force := false |}.

(** The record of the registry that [_list_agents] shows as [a]. *)
Definition registered (a : Agent) : agent :=
  {| ag_name := name a; ag_identity := vip_identity a; ag_tag := tag a;
     ag_priority := None; ag_public := None; ag_secret := None;
     ag_package := [] |}.

(** A platform with the agents of [fleet]. *)
Definition crowd : Platform :=
  {| agents := {[ "a1b2" := registered listener_1;
                  "a1c3" := registered listener_2;
                  "f00d" := registered forwarder ]};
     dirs := ∅; tarballs := ∅; history := [] |}.

Definition quiet : Console := {| stdout := []; stderr := [] |}.

(** [int()] on a string of decimal digits with an optional sign. *)
Definition decimal (s : string) : reply Z :=
  match NilZero.int_of_string s with
  | Some d => Ok (Z.of_int d)
  | None => Fail (ValueError "invalid literal for int() with base 10")
  end.

End Cli.

(** ** Properties of the crash supervisor *)

Module SupervisorProofs.
Import Supervisor.

Ltac run := unfold bind, ret, gets, modify, ask, call, raise, emit; simpl.

(** One row of the poll, case by case. *)
Lemma monitor_agent_clean uid name pid stat ident e s :
  truthy_status stat = false →
  monitor_agent (uid, name, (pid, stat), ident) e s = (Return tt, s).
Proof. intros H. unfold monitor_agent. rewrite H. reflexivity. Qed.

Lemma monitor_agent_schedules uid name pid stat ident e s :
  truthy_status stat = true →
  let attempt := (default (-1) (crashed_agents s !! uid) + 1)%Z in
  (attempt < 5)%Z →
  monitor_agent (uid, name, (pid, stat), ident) e s
  = (Return tt,
     {| crashed_agents := <[uid := attempt]> (crashed_agents s);
        effects := effects s
          ++ [Scheduled (get_aware_utc_now e + timedelta_minutes (attempt * 5))
                uid name] |}).
Proof.
  intros H attempt Hlt. unfold monitor_agent. rewrite H. run.
  fold attempt. destruct (Z.ltb_spec attempt 5); [reflexivity | lia].
Qed.

Lemma monitor_agent_alerts uid name pid stat ident e s :
  truthy_status stat = true →
  (5 ≤ default (-1) (crashed_agents s !! uid) + 1)%Z →
  monitor_agent (uid, name, (pid, stat), ident) e s
  = match health_send_alert e (alert_key_of name uid)
            {| status := STATUS_BAD; context := alert_context_of name uid |} with
    | Ok _ =>
        (Return tt,
         {| crashed_agents := delete uid (crashed_agents s);
            effects := effects s ++ [alert_for uid name] |})
    | Fail x =>
        (Raise x,
         {| crashed_agents := crashed_agents s;
            effects := effects s ++ [alert_for uid name] |})
    end.
Proof.
  intros H Hge. unfold monitor_agent. rewrite H. run.
  destruct (Z.ltb_spec (default (-1) (crashed_agents s !! uid) + 1) 5)%Z; [lia |].
  unfold send_alert, crashed_agents_pop. run.
  destruct (health_send_alert e _ _); [| reflexivity].
  simpl. destruct (crashed_agents s !! uid) eqn:Hl; simpl in *; [reflexivity | lia].
Qed.

Lemma same_view_refl uid s : same_view uid s s.
Proof. by split. Qed.

Lemma same_view_trans uid s1 s2 s3 :
  same_view uid s1 s2 → same_view uid s2 s3 → same_view uid s1 s3.
Proof. intros [H1 H2] [H3 H4]. split; congruence. Qed.

Lemma agent_events_snoc uid l x :
  agent_events uid (l ++ [x])
  = agent_events uid l ++ (if concerns uid x then [x] else []).
Proof. unfold agent_events. rewrite List.filter_app. reflexivity. Qed.

Lemma monitor_agent_other uid row e s :
  row_uid row ≠ uid →
  (∀ k st, health_send_alert e k st = Ok tt) →
  ∃ s', monitor_agent row e s = (Return tt, s') ∧ same_view uid s s'.
Proof.
  destruct row as [[[u n] [pid stat]] ident]. unfold row_uid.
  intros Hne Halert. simpl in Hne.
  destruct (truthy_status stat) eqn:Hstat.
  - destruct (Z.ltb_spec (default (-1) (crashed_agents s !! u) + 1) 5)%Z
      as [Hlt | Hge].
    + eexists. split; [by apply monitor_agent_schedules |].
      split; simpl.
      * by rewrite lookup_insert_ne.
      * rewrite agent_events_snoc. simpl.
        rewrite bool_decide_eq_false_2 by done. by rewrite app_nil_r.
    + rewrite monitor_agent_alerts by done. rewrite Halert.
      eexists. split; [reflexivity |]. split; simpl.
      * by rewrite lookup_delete_ne.
      * rewrite agent_events_snoc. simpl.
        rewrite bool_decide_eq_false_2 by done. by rewrite app_nil_r.
  - eexists. split; [by apply monitor_agent_clean | apply same_view_refl].
Qed.

Lemma for_each_app {E S A} (l1 l2 : list A) (body : A → M E S unit) e s :
  for_each (l1 ++ l2) body e s
  = match for_each l1 body e s with
    | (Return _, s1) => for_each l2 body e s1
    | r => r
    end.
Proof.
  revert s. induction l1 as [| x l1 IH]; intros s; simpl; [reflexivity |].
  unfold bind. destruct (body x e s) as [[[] | x' |] s1]; auto.
Qed.

Lemma for_each_cons {E S A} (x : A) (l : list A) (body : A → M E S unit) e s :
  for_each (x :: l) body e s
  = match body x e s with
    | (Return _, s1) => for_each l body e s1
    | r => r
    end.
Proof. simpl. unfold bind. by destruct (body x e s) as [[[] | x' |] s1]. Qed.

Lemma for_each_others uid rows e s :
  uid ∉ (row_uid <$> rows) →
  (∀ k st, health_send_alert e k st = Ok tt) →
  ∃ s', for_each rows monitor_agent e s = (Return tt, s') ∧ same_view uid s s'.
Proof.
  intros Hnot Halert. revert s.
  induction rows as [| row rows IH]; intros s; simpl.
  - eexists. split; [reflexivity | apply same_view_refl].
  - rewrite fmap_cons, not_elem_of_cons in Hnot. destruct Hnot as [Hne Hnot].
    destruct (monitor_agent_other uid row e s) as (s1 & Hrow & Hv1); [done.. |].
    destruct (IH Hnot s1) as (s2 & Hrest & Hv2).
    exists s2. split; [| by eapply same_view_trans].
    unfold bind. by rewrite Hrow.
Qed.

(** A poll that finds the agent crashed, seen from that agent. *)
Lemma poll_crashing uid name e s :
  crashing uid name e →
  let attempt := (default (-1) (crashed_agents s !! uid) + 1)%Z in
  ∃ s', _monitor_agents e s = (Return tt, s')
    ∧ if (attempt <? 5)%Z then
        crashed_agents s' !! uid = Some attempt
        ∧ agent_events uid (effects s')
          = agent_events uid (effects s)
            ++ [Scheduled
                  (get_aware_utc_now e + timedelta_minutes (attempt * 5))
                  uid name]
      else
        crashed_agents s' !! uid = None
        ∧ agent_events uid (effects s')
          = agent_events uid (effects s) ++ [alert_for uid name].
Proof.
  intros (before & pid & stat & ident & after & Hrows & Hstat & Hb & Ha & Halert)
    attempt.
  unfold _monitor_agents, bind, call. rewrite Hrows.
  rewrite for_each_app.
  destruct (for_each_others uid before e s) as (s1 & -> & Hv1 & Hv1'); [done.. |].
  rewrite for_each_cons.
  assert (Hatt : (default (-1) (crashed_agents s1 !! uid) + 1)%Z = attempt)
    by (unfold attempt; by rewrite Hv1).
  destruct (Z.ltb_spec attempt 5) as [Hlt | Hge].
  - rewrite monitor_agent_schedules by (done || lia). rewrite Hatt.
    match goal with |- context [for_each after _ _ ?s2] =>
      destruct (for_each_others uid after e s2) as (s3 & -> & Hv3 & Hv3'); [done.. |]
    end.
    eexists. split; [reflexivity |]. simpl in *. split.
    + by rewrite Hv3, lookup_insert_eq.
    + rewrite Hv3', agent_events_snoc, Hv1'. simpl.
      by rewrite bool_decide_eq_true_2.
  - rewrite monitor_agent_alerts by (done || lia). rewrite Halert.
    match goal with |- context [for_each after _ _ ?s2] =>
      destruct (for_each_others uid after e s2) as (s3 & -> & Hv3 & Hv3'); [done.. |]
    end.
    eexists. split; [reflexivity |]. simpl in *. split.
    + by rewrite Hv3, lookup_delete_eq.
    + rewrite Hv3', agent_events_snoc, Hv1'. simpl.
      by rewrite bool_decide_eq_true_2.
Qed.

(** The restart task when the agent is still unhealthy and every
    collaborator answers. *)
Lemma restart_agent_unhealthy uid name e s pid stat ident pid' stat' :
  aip_agent_status e uid = Ok (pid, stat) →
  truthy_status stat = true →
  aip_agent_identity e uid = Ok ident →
  aip_stop_agent e uid = Ok tt →
  connection_send_vip e "agentstop" [ident] = Ok tt →
  aip_start_agent e uid = Ok (pid', stat') →
  _restart_agent uid name e s
  = let s1 :=
      {| crashed_agents := crashed_agents s;
         effects := effects s
           ++ [StopRequested uid; AgentStopSent [ident]; StartRequested uid] |} in
    match stat' with
    | Some _ => (Return tt, s1)
    | None =>
        match crashed_agents s !! uid with
        | Some _ => (Return tt, set_crashed (delete uid) s1)
        | None => (Raise (KeyError uid), s1)
        end
    end.
Proof.
  intros Hstatus Hstat Hid Hstop Hvip Hstart.
  unfold _restart_agent, stop_agent, crashed_agents_pop. run.
  rewrite Hstatus. simpl. rewrite Hstat, Hid. simpl. rewrite Hstop. simpl.
  rewrite Hvip. simpl. rewrite Hstart. simpl.
  rewrite <- !app_assoc. simpl.
  destruct stat'; [reflexivity |]. simpl.
  destruct (crashed_agents s !! uid); reflexivity.
Qed.





(** C3. A restart task that finds the agent still unhealthy asks for a
    stop, then for a start. When the start reports a running process the
    crash record of the agent is gone afterwards, and the next crash a
    poll sees is attempt 0 again; when the start reports an exit status
    the task returns and the record is as it was. *)
Theorem restart_task uid name e s pid stat ident pid' stat' :
  aip_agent_status e uid = Ok (pid, stat) →
  truthy_status stat = true →
  aip_agent_identity e uid = Ok ident →
  aip_stop_agent e uid = Ok tt →
  connection_send_vip e "agentstop" [ident] = Ok tt →
  aip_start_agent e uid = Ok (pid', stat') →
  let r := _restart_agent uid name e s in
  effects r.2
  = effects s ++ [StopRequested uid; AgentStopSent [ident]; StartRequested uid]
  ∧ match stat' with
    | None =>
        crashed_agents r.2 = delete uid (crashed_agents s)
        ∧ ∀ e2 name2 pid2 stat2 ident2,
            truthy_status stat2 = true →
            monitor_agent (uid, name2, (pid2, stat2), ident2) e2 r.2
            = (Return tt,
               {| crashed_agents := <[uid := 0%Z]> (crashed_agents r.2);
                  effects := effects r.2
                    ++ [Scheduled (get_aware_utc_now e2 + timedelta_minutes 0)
                          uid name2] |})
    | Some _ => r.1 = Return tt ∧ crashed_agents r.2 = crashed_agents s
    end.
Proof.
  intros Hstatus Hstat Hid Hstop Hvip Hstart r. unfold r.
  rewrite (restart_agent_unhealthy uid name e s pid stat ident pid' stat')
    by done.
  destruct stat' as [c |]; [done |].
  assert (∀ s' : ControlService,
            effects s' = effects s
              ++ [StopRequested uid; AgentStopSent [ident]; StartRequested uid] →
            crashed_agents s' = delete uid (crashed_agents s) →
            effects s' = effects s
              ++ [StopRequested uid; AgentStopSent [ident]; StartRequested uid]
            ∧ crashed_agents s' = delete uid (crashed_agents s)
            ∧ ∀ e2 name2 pid2 stat2 ident2,
                truthy_status stat2 = true →
                monitor_agent (uid, name2, (pid2, stat2), ident2) e2 s'
                = (Return tt,
                   {| crashed_agents := <[uid := 0%Z]> (crashed_agents s');
                      effects := effects s'
                        ++ [Scheduled
                              (get_aware_utc_now e2 + timedelta_minutes 0)
                              uid name2] |})) as Hafter.
  { intros s' He Hc. split; [done |]. split; [done |].
    intros e2 name2 pid2 stat2 ident2 Hstat2.
    rewrite monitor_agent_schedules; rewrite ?Hc, ?lookup_delete_eq; done. }
  cbv zeta.
  destruct (crashed_agents s !! uid) eqn:Hrec; cbn [fst snd]; apply Hafter;
    simpl; try done.
  by rewrite delete_id.
Qed.

(** C10. After a restart that went through, the crash record is removed
    with [pop(agent_id)], without a default: the task returns when the
    record is there, and raises [KeyError] when it is not, the stop and
    the start having been issued all the same. *)
Theorem restart_pop_needs_record uid name e s pid stat ident pid' :
  aip_agent_status e uid = Ok (pid, stat) →
  truthy_status stat = true →
  aip_agent_identity e uid = Ok ident →
  aip_stop_agent e uid = Ok tt →
  connection_send_vip e "agentstop" [ident] = Ok tt →
  aip_start_agent e uid = Ok (pid', None) →
  let r := _restart_agent uid name e s in
  r.1 = match crashed_agents s !! uid with
        | Some _ => Return tt
        | None => Raise (KeyError uid)
        end
  ∧ effects r.2
    = effects s ++ [StopRequested uid; AgentStopSent [ident]; StartRequested uid]
  ∧ crashed_agents r.2 !! uid = None.
Proof.
  intros Hstatus Hstat Hid Hstop Hvip Hstart r. unfold r.
  rewrite (restart_agent_unhealthy uid name e s pid stat ident pid' None)
    by done.
  simpl. destruct (crashed_agents s !! uid) eqn:Hrec; simpl;
    rewrite ?lookup_delete_eq; done.
Qed.

(** C9, as the code has it. An alert that the health subsystem refuses
    ends the poll with the error of the refusal: the rows before the
    agent have been handled, the crash record of the agent stays, and
    the rows after it are not looked at. *)
Theorem alert_failure_ends_poll e s (before after : list agent_status)
    uid name pid stat ident s1 x :
  aip_status_agents e
    = Ok (before ++ (uid, name, (pid, stat), ident) :: after) →
  for_each before monitor_agent e s = (Return tt, s1) →
  truthy_status stat = true →
  (5 ≤ default (-1) (crashed_agents s1 !! uid) + 1)%Z →
  health_send_alert e (alert_key_of name uid)
    {| status := STATUS_BAD; context := alert_context_of name uid |} = Fail x →
  _monitor_agents e s
  = (Raise x,
     {| crashed_agents := crashed_agents s1;
        effects := effects s1 ++ [alert_for uid name] |}).
Proof.
  intros Hrows Hbefore Hstat Hge Halert.
  unfold _monitor_agents, bind, call. rewrite Hrows.
  rewrite for_each_app, Hbefore, for_each_cons.
  rewrite monitor_agent_alerts by done. by rewrite Halert.
Qed.

(** *** The theorems at work on the simulated platform *)

Lemma crash_poll_crashing now : crashing "a1b2" "listener" (crash_poll now).
Proof.
  exists [], (Some 77%Z), (Some 1%Z), (Some "listener"), [].
  repeat split; try done; apply not_elem_of_nil.
Defined.



Lemma restart_task_witness :
  let r := _restart_agent "a1b2" "listener"
             (sim [crashed_row "a1b2" "listener"] 0 (Ok tt) None) stuck in
  effects r.2
  = [StopRequested "a1b2"; AgentStopSent [None]; StartRequested "a1b2"]
  ∧ crashed_agents r.2 = delete "a1b2" (crashed_agents stuck).
Proof.
  intros r.
  pose proof (restart_task "a1b2" "listener"
                (sim [crashed_row "a1b2" "listener"] 0 (Ok tt) None) stuck
                (Some 77%Z) (Some 1%Z) None (Some 4242%Z) None
                eq_refl eq_refl eq_refl eq_refl eq_refl eq_refl)
    as (Hev & Hrec & _).
  split; [exact Hev | exact Hrec].
Defined.

Lemma restart_pop_needs_record_witness :
  (_restart_agent "a1b2" "listener"
     (sim [crashed_row "a1b2" "listener"] 0 (Ok tt) None) idle).1
  = Raise (KeyError "a1b2").
Proof.
  pose proof (restart_pop_needs_record "a1b2" "listener"
                (sim [crashed_row "a1b2" "listener"] 0 (Ok tt) None) idle
                (Some 77%Z) (Some 1%Z) None (Some 4242%Z)
                eq_refl eq_refl eq_refl eq_refl eq_refl eq_refl)
    as (Hout & _).
  exact Hout.
Defined.

(** Two restarts pending for one agent: the first brings the agent back
    and removes the record; the agent crashes again, the second restart
    goes through as well and then fails on the missing record. *)
Example restart_keyerror_reachable :
  let up := sim [crashed_row "a1b2" "listener"] 300 (Ok tt) None in
  let s := run_tasks [(Poll, crash_poll 0); (Poll, crash_poll 60);
                      (RestartTask "a1b2" "listener", up)] idle in
  effects s
  = [Scheduled (0 + timedelta_minutes 0) "a1b2" "listener";
     Scheduled (60 + timedelta_minutes 5) "a1b2" "listener";
     StopRequested "a1b2"; AgentStopSent [None]; StartRequested "a1b2"]
  ∧ crashed_agents s !! "a1b2" = None
  ∧ (run_task (RestartTask "a1b2" "listener") up s).1 = Raise (KeyError "a1b2").
Proof. vm_compute. done. Qed.

(** C9 fails: with the health subsystem unreachable, the poll ends with
    the error of the alert at the first agent; the second agent, crashed
    as well, gets no restart scheduled and no record, and the record of
    the first is still there. With the alert delivered, the same poll
    handles both agents. *)
Lemma alert_failure_escapes_poll :
  _monitor_agents alert_down exhausted
  = (Raise (RemoteError "Unreachable"),
     {| crashed_agents := {["a1b2" := 4%Z]};
        effects := [alert_for "a1b2" "listener"] |})
  ∧ _monitor_agents alert_up exhausted
    = (Return tt,
       {| crashed_agents := {["c3d4" := 0%Z]};
          effects := [alert_for "a1b2" "listener";
                      Scheduled (0 + timedelta_minutes 0) "c3d4" "forwarder"] |}).
Proof. split; vm_compute; reflexivity. Qed.

Lemma alert_failure_ends_poll_witness :
  _monitor_agents alert_down exhausted
  = (Raise (RemoteError "Unreachable"),
     {| crashed_agents := crashed_agents exhausted;
        effects := effects exhausted ++ [alert_for "a1b2" "listener"] |}).
Proof.
  apply (alert_failure_ends_poll alert_down exhausted []
           [crashed_row "c3d4" "forwarder"] "a1b2" "listener"
           (Some 77%Z) (Some 1%Z) (Some "listener") exhausted
           (RemoteError "Unreachable")); reflexivity.
Defined.
End SupervisorProofs.

(** ** Properties of the installer *)

Module InstallerProofs.
Import Installer.

Ltac run :=
  unfold bind, ret, gets, modify, ask, call, raise, on_session, on_platform,
    set_peer, set_channel_open, set_tmpdir, set_store_open, set_sha512,
    set_traffic, set_warnings, set_agents, set_dirs, set_tarballs,
    set_history;
  simpl.

Section loop.
Context {C : Type} (e : Env C) (rf rc : request) (path : string).

Lemma turn_chunk fuel st c1 chunk c2 d :
  store_open st.2 = true →
  chan_recv e (chan_send e rf (peer st.2)) = (Some chunk, c1) →
  chunk ≠ complete →
  chan_recv e (chan_send e rc c1) = (Some d, c2) →
  receive_file (S fuel) rf rc path e st
  = if bool_decide (d = sha512_digest e (sha512 st.2 ++ chunk)) then
      receive_file fuel rf rc path e (round_done rf rc path chunk d c2 st)
    else (Raise AssertionError, round_done rf rc path chunk d c2 st).
Proof.
  destruct st as [p s]. simpl. intros Hopen Hchunk Hne Hd.
  unfold channel_send, channel_recv, sha512_update, store_write,
    sha512_get_digest, assert.
  unfold round_done.
  run. rewrite Hchunk. simpl. rewrite bool_decide_eq_false_2 by done.
  rewrite Hopen. simpl. rewrite Hd. simpl.
  rewrite <- !app_assoc. simpl.
  destruct (bool_decide (d = _)); reflexivity.
Qed.

Lemma turn_complete fuel st c1 :
  chan_recv e (chan_send e rf (peer st.2)) = (Some complete, c1) →
  receive_file (S fuel) rf rc path e st
  = (Return tt,
     (st.1,
      {| peer := c1; channel_open := channel_open st.2;
         tmpdir := tmpdir st.2; store_open := store_open st.2;
         sha512 := sha512 st.2;
         traffic := traffic st.2 ++ [Sent rf; Received complete];
         warnings := warnings st.2 |})).
Proof.
  destruct st as [p s]. simpl. intros Hrecv.
  unfold channel_send, channel_recv. run. rewrite Hrecv. simpl.
  rewrite <- !app_assoc. reflexivity.
Qed.

Lemma turn_fetch_timeout fuel st c1 :
  chan_recv e (chan_send e rf (peer st.2)) = (None, c1) →
  receive_file (S fuel) rf rc path e st
  = (Raise GeventTimeout,
     (st.1,
      {| peer := c1; channel_open := channel_open st.2;
         tmpdir := tmpdir st.2; store_open := store_open st.2;
         sha512 := sha512 st.2;
         traffic := traffic st.2 ++ [Sent rf; TimedOut];
         warnings := warnings st.2 |})).
Proof.
  destruct st as [p s]. simpl. intros Hrecv.
  unfold channel_send, channel_recv. run. rewrite Hrecv. simpl.
  rewrite <- !app_assoc. reflexivity.
Qed.

Lemma turn_checksum_timeout fuel st c1 chunk c2 :
  store_open st.2 = true →
  chan_recv e (chan_send e rf (peer st.2)) = (Some chunk, c1) →
  chunk ≠ complete →
  chan_recv e (chan_send e rc c1) = (None, c2) →
  receive_file (S fuel) rf rc path e st
  = (Raise GeventTimeout,
     (st.1,
      {| peer := c2; channel_open := channel_open st.2;
         tmpdir := (fun t => <[path := default [] (t !! path) ++ chunk]> t)
                     <$> tmpdir st.2;
         store_open := store_open st.2;
         sha512 := sha512 st.2 ++ chunk;
         traffic := traffic st.2
                      ++ [Sent rf; Received chunk; Sent rc; TimedOut];
         warnings := warnings st.2 |})).
Proof.
  destruct st as [p s]. simpl. intros Hopen Hchunk Hne Hd.
  unfold channel_send, channel_recv, sha512_update, store_write.
  run. rewrite Hchunk. simpl. rewrite bool_decide_eq_false_2 by done.
  rewrite !Hopen. simpl. rewrite Hd. simpl.
  rewrite <- !app_assoc. reflexivity.
Qed.
End loop.

(** *** The transfer against the sender of the spec *)

Lemma chunk_at_drop n j (l : bytes) :
  chunk_at n j (drop n l) = chunk_at n (S j) l.
Proof. unfold chunk_at. rewrite drop_drop. do 2 f_equal; lia. Qed.

Lemma drop_length_take {A} n (l : list A) :
  drop (length (take n l)) l = drop n l.
Proof.
  rewrite length_take. destruct (decide (n ≤ length l)).
  - by rewrite Nat.min_l.
  - rewrite Nat.min_r by lia. by rewrite !drop_ge by lia.
Qed.

Lemma checksums_transcript fuel n h : ∀ sent rest,
  0 < n → length rest < fuel →
  last (checksums (transcript fuel n h sent rest))
  = match rest with [] => None | _ => Some (h (sent ++ rest)) end.
Proof.
  induction fuel as [| fuel IH]; intros sent rest Hn Hlen; [lia |].
  destruct rest as [| b rest]; [reflexivity |].
  cbn [transcript checksums].
  set (l := b :: rest) in *.
  assert (length (drop n l) < fuel) as Hlen'.
  { rewrite length_drop. simpl in Hlen. unfold l. simpl. lia. }
  specialize (IH (sent ++ take n l) (drop n l) Hn Hlen').
  destruct (drop n l) as [| b' rest'] eqn:Hdrop.
  - destruct fuel; [simpl in Hlen'; lia |]. simpl.
    rewrite <- (take_drop n l) at 2. by rewrite Hdrop, app_nil_r.
  - rewrite last_cons, IH. rewrite <- Hdrop, <- app_assoc, take_drop.
    reflexivity.
Qed.

Lemma receive_from_sender h uuid dd n path artifact :
  0 < n →
  ∀ fuel cur sent0 file0 p (s : Session sender) t,
    let rest := drop cur artifact in
    length rest < fuel →
    (∀ j, chunk_at n j rest ≠ complete) →
    peer s = {| source := artifact; cursor := cur; sent := sent0;
                outbox := [] |} →
    sha512 s = sent0 →
    store_open s = true →
    tmpdir s = Some t →
    t !! path = Some file0 →
    ∃ s',
      receive_file fuel (Fetch n) Checksum path (sender_env h uuid dd) (p, s)
      = (Return tt, (p, s'))
      ∧ tmpdir s' = Some (<[path := file0 ++ rest]> t)
      ∧ sha512 s' = sent0 ++ rest
      ∧ traffic s' = traffic s ++ transcript fuel n h sent0 rest
      ∧ channel_open s' = channel_open s
      ∧ store_open s' = true
      ∧ warnings s' = warnings s.
Proof.
  intros Hn. induction fuel as [| fuel IH];
    intros cur sent0 file0 p s t rest Hlen Hchunks Hpeer Hsha Hopen Htmp Hfile;
    [lia |].
  destruct rest as [| b rest'] eqn:Hrest.
  - (* no bytes remain: the sentinel comes *)
    assert (length artifact ≤ cur) as Hend.
    { pose proof (length_drop artifact cur) as Hl. fold rest in Hl.
      rewrite Hrest in Hl. simpl in Hl. lia. }
    erewrite turn_complete; [| by (simpl; rewrite Hpeer; simpl;
      rewrite bool_decide_eq_true_2 by done)].
    eexists. split; [reflexivity |]. simpl.
    rewrite !app_nil_r, Htmp, Hsha, Hopen. rewrite insert_id by done.
    done.
  - (* a chunk comes *)
    assert (cur < length artifact) as Hmore.
    { pose proof (length_drop artifact cur) as Hl. fold rest in Hl.
      rewrite Hrest in Hl. simpl in Hl. lia. }
    set (chunk := take n (drop cur artifact)).
    assert (chunk ≠ complete) as Hne.
    { specialize (Hchunks 0). unfold chunk_at in Hchunks.
      by rewrite <- Hrest in Hchunks. }
    erewrite turn_chunk; [| done | | exact Hne |].
    2:{ simpl. rewrite Hpeer. simpl.
        rewrite bool_decide_eq_false_2 by lia. reflexivity. }
    2:{ simpl. reflexivity. }
    simpl sha512_digest. rewrite Hsha.
    rewrite bool_decide_eq_true_2 by done.
    edestruct (IH (cur + length chunk) (sent0 ++ chunk) (file0 ++ chunk) p
                 (round_done (Fetch n) Checksum path chunk
                    (h (sent0 ++ chunk))
                    {| source := artifact; cursor := cur + length chunk;
                       sent := sent0 ++ chunk; outbox := [] |} (p, s)).2
                 (<[path := file0 ++ chunk]> t))
      as (s' & Hrun & Htmp' & Hsha' & Htraffic & Hchan & Hopen' & Hwarn).
    + rewrite <- drop_drop. unfold chunk. rewrite drop_length_take.
      rewrite length_drop. fold rest. rewrite Hrest. simpl in *. lia.
    + intros j. rewrite <- drop_drop. unfold chunk.
      rewrite drop_length_take, chunk_at_drop. fold rest. rewrite Hrest.
      apply Hchunks.
    + reflexivity.
    + simpl. by rewrite Hsha.
    + done.
    + simpl. rewrite Htmp. simpl. by rewrite Hfile.
    + by rewrite lookup_insert_eq.
    + exists s'. split; [exact Hrun |].
      assert (drop (cur + length chunk) artifact = drop n rest) as Hnext.
      { rewrite <- drop_drop. unfold chunk. by rewrite drop_length_take. }
      rewrite Hnext in *. fold rest in chunk.
      assert (chunk ++ drop n rest = rest) as Hsplit by apply take_drop.
      rewrite Htmp', Hsha', Htraffic, Hchan, Hopen', Hwarn. simpl.
      rewrite insert_insert_eq, <- !app_assoc, Hsplit, <- Hrest.
      repeat split; done.
Qed.

(** *** [pull_artifact] and [install_agent] around the loop *)

Section around.
Context {C : Type} (e : Env C).

Lemma pull_artifact_unfold fuel rf rc path p s t :
  tmpdir s = Some t →
  fs_open e path = Ok tt →
  pull_artifact fuel rf rc path e (p, s)
  = match receive_file fuel rf rc path e (p, opened path t s) with
    | (Return a, st') => (Return a, closed st')
    | (Raise x, st') => (Raise x, closed (warned x st'))
    | (OutOfFuel, st') => (OutOfFuel, st')
    end.
Proof.
  intros Htmp Hopen. unfold pull_artifact, open_store, sha512_new.
  unfold try_finally, try_except_reraise, store_close, channel_close. run.
  rewrite Htmp. simpl. rewrite Hopen. simpl. rewrite Htmp. simpl.
  change {| peer := peer s; channel_open := channel_open s;
            tmpdir := Some (<[path := []]> t); store_open := true;
            sha512 := []; traffic := traffic s; warnings := warnings s |}
    with (opened path t s).
  destruct (receive_file fuel rf rc path e (p, opened path t s))
    as [[[] | x |] [p' s']]; try reflexivity.
  destruct x; reflexivity.
Qed.

(** When [open] raises, nothing was opened, nothing is asked of the peer
    and nothing is closed: the [try] that closes the file and the
    channel has not begun. *)
Lemma pull_artifact_unopened fuel rf rc path p s t x :
  tmpdir s = Some t →
  fs_open e path = Fail x →
  pull_artifact fuel rf rc path e (p, s) = (Raise x, (p, s)).
Proof.
  intros Htmp Hopen. unfold pull_artifact, open_store. run.
  by rewrite Htmp, Hopen.
Qed.

(** The identity test reads the registry and changes nothing. *)
Lemma identity_exists_pure ident st :
  (_identity_exists ident e st).2 = st.
Proof.
  unfold _identity_exists, list_agents. run.
  by destruct (_ <$> aip_list_agents st.1).
Qed.

Lemma identity_check_pure vip force st :
  (_identity_exists_but_no_force vip force e st).2 = st.
Proof.
  unfold _identity_exists_but_no_force, bind.
  destruct vip as [ident |]; [destruct (truthy_str ident) |].
  - pose proof (identity_exists_pure ident st) as Hpure.
    destruct (_identity_exists ident e st) as [[u | x |] st']; simpl in *;
      subst; try done.
    destruct (truthy_opt_str u), force; done.
  - done.
  - done.
Qed.

Lemma bind_session_kept {A B} (m : M (Env C) (State C) A)
    (k : A → M (Env C) (State C) B) :
  session_kept e m → (∀ a, session_kept e (k a)) → session_kept e (bind m k).
Proof.
  intros Hm Hk st. unfold bind. specialize (Hm st).
  destruct (m e st) as [[a | x |] st']; simpl in *; try done.
  by rewrite Hk.
Qed.

Lemma bind_platform_kept {A B} (m : M (Env C) (State C) A)
    (k : A → M (Env C) (State C) B) :
  platform_kept e m → (∀ a, platform_kept e (k a)) → platform_kept e (bind m k).
Proof.
  intros Hm Hk st. unfold bind. specialize (Hm st).
  destruct (m e st) as [[a | x |] st']; simpl in *; try done.
  by rewrite Hk.
Qed.

Lemma ret_session_kept {A} (a : A) : session_kept e (ret a).
Proof. done. Qed.
Lemma raise_session_kept {A} x : session_kept e (raise (A := A) x).
Proof. done. Qed.
Lemma gets_session_kept {A} (f : State C → A) : session_kept e (gets f).
Proof. done. Qed.
Lemma ask_session_kept {A} (f : Env C → A) : session_kept e (ask f).
Proof. done. Qed.
Lemma on_platform_session_kept f : session_kept e (on_platform f).
Proof. done. Qed.

Lemma ret_platform_kept {A} (a : A) : platform_kept e (ret a).
Proof. done. Qed.
Lemma raise_platform_kept {A} x : platform_kept e (raise (A := A) x).
Proof. done. Qed.
Lemma gets_platform_kept {A} (f : State C → A) : platform_kept e (gets f).
Proof. done. Qed.
Lemma ask_platform_kept {A} (f : Env C → A) : platform_kept e (ask f).
Proof. done. Qed.
Lemma on_session_platform_kept f : platform_kept e (on_session f).
Proof. done. Qed.

Ltac kept :=
  repeat first
    [ apply bind_session_kept | apply bind_platform_kept
    | apply ret_session_kept | apply ret_platform_kept
    | apply raise_session_kept | apply raise_platform_kept
    | apply gets_session_kept | apply gets_platform_kept
    | apply ask_session_kept | apply ask_platform_kept
    | apply on_platform_session_kept | apply on_session_platform_kept
    | match goal with |- ∀ _, _ => intro end
    | match goal with
      | |- session_kept _ (match ?x with _ => _ end) => destruct x
      | |- platform_kept _ (match ?x with _ => _ end) => destruct x
      end ].

(** The registration works on the registry and on disk; the session is
    not its business. *)
Lemma install_wheel_session_kept u vip path b :
  session_kept e (_install_wheel_to_platform u vip path b).
Proof.
  unfold _install_wheel_to_platform, aip_create_agent_data_dir_if_missing,
    backup_agent_data, remove_agent, aip_remove_agent, aip_install_agent,
    restore_agent_data_from_tgz, aip_get_agent_keystore, record.
  kept.
Qed.

(** The transfer works on the session; the registry and the disk are
    not its business. *)
Lemma receive_file_platform_kept fuel rf rc path :
  platform_kept e (receive_file fuel rf rc path).
Proof.
  induction fuel as [| fuel IH]; [done |].
  simpl. unfold channel_send, channel_recv, sha512_update, store_write,
    sha512_get_digest, assert.
  kept. apply IH.
Qed.

Lemma install_agent_unfold fuel filename chan vip pk sk force p s u b :
  (_identity_exists_but_no_force vip force e (p, s)).1 = Return (u, b) →
  fs_open e (basename filename) = Ok tt →
  install_agent fuel filename chan vip pk sk force e (p, s)
  = let path := basename filename in
    match receive_file fuel (Fetch FETCH_SIZE) Checksum path e
            (p, opened path ∅ (set_channel_open true s)) with
    | (Return _, st') =>
        match _install_wheel_to_platform u vip path b e (closed st') with
        | (OutOfFuel, st'') => (OutOfFuel, st'')
        | (r, st'') => (r, removed st'')
        end
    | (Raise x, st') => (Raise x, removed (closed (warned x st')))
    | (OutOfFuel, st') => (OutOfFuel, st')
    end.
Proof.
  intros Hcheck Hopen. unfold install_agent.
  pose proof (identity_check_pure vip force (p, s)) as Hpure.
  unfold bind at 1.
  destruct (_identity_exists_but_no_force vip force e (p, s))
    as [o st0]. simpl in Hcheck, Hpure. subst o st0.
  unfold try_finally, vip_channel, mkdtemp, rmtree_tmpdir.
  unfold bind at 1. unfold on_session at 1. unfold modify at 1.
  cbn [fst snd].
  unfold bind at 1. unfold bind at 1. unfold on_session at 1.
  unfold modify at 1. cbn [fst snd].
  erewrite pull_artifact_unfold by (reflexivity || exact Hopen).
  change (opened (basename filename) ∅
            (set_tmpdir (λ _, Some ∅) (set_channel_open true s)))
    with (opened (basename filename) ∅ (set_channel_open true s)).
  cbv zeta.
  destruct (receive_file fuel (Fetch FETCH_SIZE) Checksum
              (basename filename) e _) as [[[] | x |] st']; reflexivity.
Qed.

(** When the destination file does not open, [install_agent] lets the
    exception of [open] through. The channel was made before and stays
    open (it is closed in the [finally] of a [try] that has not begun);
    the temporary directory is removed. *)
Lemma install_agent_unopened fuel filename chan vip pk sk force p s u b x :
  (_identity_exists_but_no_force vip force e (p, s)).1 = Return (u, b) →
  fs_open e (basename filename) = Fail x →
  install_agent fuel filename chan vip pk sk force e (p, s)
  = (Raise x, (p, set_tmpdir (λ _, None) (set_channel_open true s))).
Proof.
  intros Hcheck Hopen. unfold install_agent.
  pose proof (identity_check_pure vip force (p, s)) as Hpure.
  unfold bind at 1.
  destruct (_identity_exists_but_no_force vip force e (p, s))
    as [o st0]. simpl in Hcheck, Hpure. subst o st0.
  unfold try_finally, vip_channel, mkdtemp, rmtree_tmpdir.
  unfold bind at 1. unfold on_session at 1. unfold modify at 1.
  cbn [fst snd].
  unfold bind at 1. unfold bind at 1. unfold on_session at 1.
  unfold modify at 1. cbn [fst snd].
  erewrite pull_artifact_unopened by (reflexivity || exact Hopen).
  reflexivity.
Qed.

Lemma install_agent_refused fuel filename chan vip pk sk force st x :
  (_identity_exists_but_no_force vip force e st).1 = Raise x →
  install_agent fuel filename chan vip pk sk force e st = (Raise x, st).
Proof.
  intros Hcheck. unfold install_agent.
  pose proof (identity_check_pure vip force st) as Hpure.
  unfold bind at 1.
  destruct (_identity_exists_but_no_force vip force e st) as [o st0].
  simpl in Hcheck, Hpure. by subst o st0.
Qed.
End around.

(** C1, as the code has it. For a chunk size of at least one byte and an
    artifact none of whose chunks is the eight bytes of the sentinel, the
    transfer from the sender of the spec into a destination file that
    opens returns; the destination file then holds exactly the bytes of
    the artifact, the hash was fed exactly these bytes, and the digest
    received at the last checksum exchange is their hash (there is no
    exchange for the empty artifact). *)
Theorem transfer_round_trip h uuid dd n path fuel (artifact : bytes) p :
  0 < n →
  length artifact < fuel →
  (∀ j, chunk_at n j artifact ≠ complete) →
  fs_open (sender_env h uuid dd) path = Ok tt →
  let r := (mkdtemp ;; pull_artifact fuel (Fetch n) Checksum path)%py
             (sender_env h uuid dd)
             (p, fresh_session (sender_start artifact)) in
  r.1 = Return tt
  ∧ tmpdir r.2.2 = Some {[path := artifact]}
  ∧ sha512 r.2.2 = artifact
  ∧ last (checksums (traffic r.2.2))
    = match artifact with [] => None | _ => Some (h artifact) end
  ∧ traffic r.2.2 = transcript fuel n h [] artifact
  ∧ r.2.1 = p.
Proof.
  intros Hn Hfuel Hchunks Hopen r.
  edestruct (receive_from_sender h uuid dd n path artifact Hn fuel 0 [] [] p
               (opened path ∅
                  (set_tmpdir (λ _, Some ∅)
                     (fresh_session (sender_start artifact))))
               (<[path := []]> ∅))
    as (s' & Hrun & Htmp & Hsha & Htraffic & _ & _ & _); try done.
  { by rewrite lookup_insert_eq. }
  assert (r = (Return tt, closed (p, s'))) as ->.
  { unfold r, bind, mkdtemp, on_session, modify. cbn [fst snd].
    erewrite pull_artifact_unfold by (reflexivity || exact Hopen).
    by rewrite Hrun. }
  unfold closed, set_channel_open, set_store_open. simpl in *.
  rewrite Htmp, Hsha, Htraffic.
  rewrite insert_insert_eq, insert_empty.
  repeat split; try done.
  by apply checksums_transcript.
Qed.

Lemma transfer_round_trip_witness :
  let artifact := ["w"; "h"; "e"; "e"; "l"]%byte in
  let r := (mkdtemp ;; pull_artifact 6 (Fetch 2) Checksum "agent.whl")%py
             (sender_env toy_hash "u-2" data_dir_of)
             (nowhere, fresh_session (sender_start artifact)) in
  tmpdir r.2.2 = Some {["agent.whl" := artifact]}
  ∧ last (checksums (traffic r.2.2)) = Some (toy_hash artifact).
Proof.
  intros artifact r.
  assert (∀ j, chunk_at 2 j artifact ≠ complete) as Hchunks.
  { intros j Heq.
    assert (length (chunk_at 2 j artifact) ≤ 2) as Hle
      by (unfold chunk_at; rewrite length_take; lia).
    rewrite Heq in Hle. simpl in Hle. lia. }
  destruct (transfer_round_trip toy_hash "u-2" data_dir_of 2 "agent.whl" 6
              artifact nowhere) as (_ & Htmp & _ & Hlast & _).
  - lia.
  - simpl. lia.
  - exact Hchunks.
  - reflexivity.
  - split; [exact Htmp | exact Hlast].
Defined.

(** C1 fails: an artifact that is the eight bytes [complete] is taken
    for the sentinel at the first fetch. The transfer returns, nothing was
    written, no checksum was exchanged. *)
Lemma sentinel_artifact_is_lost :
  let r := (mkdtemp ;; pull_artifact 2 (Fetch FETCH_SIZE) Checksum "agent.whl")%py
             (sender_env toy_hash "u-2" data_dir_of)
             (nowhere, fresh_session (sender_start complete)) in
  r.1 = Return tt
  ∧ tmpdir r.2.2 ≫= (.!! "agent.whl") = Some []
  ∧ tmpdir r.2.2 ≫= (.!! "agent.whl") ≠ Some complete
  ∧ checksums (traffic r.2.2) = [].
Proof. vm_compute. repeat split; try reflexivity. discriminate. Qed.

(** The same through [install_agent]: the call returns the uuid of an
    agent registered with an empty package. *)
Example sentinel_artifact_installs_nothing :
  let r := install_agent 2 "agent.whl" "chan" None None None false
             (sender_env toy_hash "u-2" data_dir_of)
             (nowhere, fresh_session (sender_start complete)) in
  r.1 = Return "u-2"
  ∧ ag_package <$> agents r.2.1 !! "u-2" = Some []
  ∧ traffic r.2.2 = [Sent (Fetch 1024); Received complete].
Proof. vm_compute. done. Qed.

(** C8. When the first fetch is answered with the sentinel, as it is for
    an empty artifact, the transfer into a destination file that opens
    returns after this one exchange: nothing is written to the file, no
    checksum is asked for, and the hash is fed nothing. *)
Theorem empty_artifact_transfer {C} (e : Env C) rf rc path fuel p
    (s : Session C) t c1 :
  tmpdir s = Some t →
  fs_open e path = Ok tt →
  chan_recv e (chan_send e rf (peer s)) = (Some complete, c1) →
  let r := pull_artifact (S fuel) rf rc path e (p, s) in
  r.1 = Return tt
  ∧ traffic r.2.2 = traffic s ++ [Sent rf; Received complete]
  ∧ tmpdir r.2.2 = Some (<[path := []]> t)
  ∧ sha512 r.2.2 = []
  ∧ peer r.2.2 = c1
  ∧ r.2.1 = p.
Proof.
  intros Htmp Hopen Hrecv r. unfold r.
  rewrite (pull_artifact_unfold e (S fuel) rf rc path p s t Htmp Hopen).
  erewrite turn_complete by exact Hrecv. done.
Qed.

Lemma empty_artifact_transfer_witness :
  let r := pull_artifact 1 (Fetch FETCH_SIZE) Checksum "agent.whl"
             (sender_env toy_hash "u-2" data_dir_of)
             (nowhere,
              set_tmpdir (λ _, Some ∅) (fresh_session (sender_start []))) in
  r.1 = Return tt
  ∧ traffic r.2.2 = [Sent (Fetch FETCH_SIZE); Received complete]
  ∧ tmpdir r.2.2 = Some {["agent.whl" := []]}
  ∧ sha512 r.2.2 = [].
Proof.
  intros r.
  pose proof (empty_artifact_transfer (sender_env toy_hash "u-2" data_dir_of)
                (Fetch FETCH_SIZE) Checksum "agent.whl" 0 nowhere
                (set_tmpdir (λ _, Some ∅) (fresh_session (sender_start [])))
                ∅ (sender_start []) eq_refl eq_refl eq_refl)
    as (Hret & Htraffic & Htmp & Hsha & _).
  split; [exact Hret |]. split; [exact Htraffic |].
  split; [| exact Hsha]. by rewrite insert_empty in Htmp.
Defined.

(** *** The transfer against a scripted peer *)

Lemma receive_good_rounds h uuid dd rf rc path chunks :
  ∀ fuel p (s : Session script) rest,
    Forall (.≠ complete) chunks →
    store_open s = true →
    peer s = good_rounds h (sha512 s) chunks ++ rest →
    ∃ s',
      receive_file (length chunks + fuel) rf rc path (script_env h uuid dd)
        (p, s)
      = receive_file fuel rf rc path (script_env h uuid dd) (p, s')
      ∧ peer s' = rest
      ∧ sha512 s' = sha512 s ++ concat chunks
      ∧ traffic s' = traffic s ++ rounds_traffic h rf rc (sha512 s) chunks
      ∧ store_open s' = true
      ∧ channel_open s' = channel_open s
      ∧ warnings s' = warnings s.
Proof.
  induction chunks as [| c chunks IH]; intros fuel p s rest Hall Hopen Hpeer.
  - exists s. simpl in *. by rewrite !app_nil_r.
  - apply Forall_cons in Hall as [Hc Hall]. simpl in Hpeer.
    change (length (c :: chunks) + fuel) with (S (length chunks + fuel)).
    erewrite turn_chunk; [| done | | exact Hc |].
    2:{ simpl. rewrite Hpeer. reflexivity. }
    2:{ simpl. reflexivity. }
    simpl sha512_digest. rewrite bool_decide_eq_true_2 by done.
    edestruct (IH fuel p
                 (round_done rf rc path c (h (sha512 s ++ c))
                    (good_rounds h (sha512 s ++ c) chunks ++ rest) (p, s)).2
                 rest Hall)
      as (s' & Hrun & Hpeer' & Hsha & Htraffic & Hopen' & Hchan & Hwarn);
      [done | done |].
    exists s'. split; [exact Hrun |]. simpl in *.
    rewrite Hpeer', Hsha, Htraffic, Hopen', Hchan, Hwarn, <- !app_assoc.
    done.
Qed.

Section scripted.
Context (h : bytes → bytes) (uuid : string) (dd : string → string).
Context (fuel : nat) (filename chan : string).
Context (vip pk sk : option string) (force : bool) (p : Platform).
Context (chunks : list bytes) (u : option string) (b : bool).

Local Abbreviation e := (script_env h uuid dd).
Local Abbreviation run :=
  (scripted_install h uuid dd fuel filename chan vip pk sk force p).
Local Abbreviation before :=
  (rounds_traffic h (Fetch FETCH_SIZE) Checksum [] chunks).

Hypothesis identity_free :
  ∀ s : Session script,
    (_identity_exists_but_no_force vip force e (p, s)).1 = Return (u, b).
Hypothesis chunks_ok : Forall (.≠ complete) chunks.
Hypothesis enough_fuel : length chunks < fuel.
Hypothesis file_opens : fs_open e (basename filename) = Ok tt.

Lemma scripted_rounds rest :
  ∃ s' k,
    run (good_rounds h [] chunks ++ rest)
    = match receive_file (S k) (Fetch FETCH_SIZE) Checksum
              (basename filename) e (p, s') with
      | (Return _, st') =>
          match _install_wheel_to_platform u vip (basename filename) b e
                  (closed st') with
          | (OutOfFuel, st'') => (OutOfFuel, st'')
          | (r, st'') => (r, removed st'')
          end
      | (Raise x, st') => (Raise x, removed (closed (warned x st')))
      | (OutOfFuel, st') => (OutOfFuel, st')
      end
    ∧ peer s' = rest
    ∧ sha512 s' = concat chunks
    ∧ traffic s' = before
    ∧ store_open s' = true
    ∧ warnings s' = [].
Proof.
  unfold scripted_install.
  erewrite install_agent_unfold by (apply identity_free || exact file_opens).
  cbv zeta.
  destruct (receive_good_rounds h uuid dd (Fetch FETCH_SIZE) Checksum
              (basename filename) chunks (fuel - length chunks) p
              (opened (basename filename) ∅
                 (set_channel_open true
                    (fresh_session (good_rounds h [] chunks ++ rest))))
              rest chunks_ok)
    as (s' & Hrun & Hpeer & Hsha & Htraffic & Hopen & _ & Hwarn);
    [done | done |].
  replace (length chunks + (fuel - length chunks)) with fuel in Hrun by lia.
  exists s', (fuel - length chunks - 1).
  replace (S (fuel - length chunks - 1)) with (fuel - length chunks) by lia.
  rewrite Hrun. done.
Qed.

Lemma mismatch_run bad d tail :
  bad ≠ complete →
  d ≠ h (concat chunks ++ bad) →
  let r := run (good_rounds h [] chunks ++ Some bad :: Some d :: tail) in
  r.1 = Raise AssertionError
  ∧ r.2.1 = p
  ∧ released r.2.2
  ∧ peer r.2.2 = tail
  ∧ traffic r.2.2
    = before ++ [Sent (Fetch FETCH_SIZE); Received bad; Sent Checksum;
                 Received d]
  ∧ warnings r.2.2 = ["Checksum mismatch on received file"].
Proof.
  intros Hbad Hd r.
  destruct (scripted_rounds (Some bad :: Some d :: tail))
    as (s' & k & Hrun & Hpeer & Hsha & Htraffic & Hopen & Hwarn).
  unfold r. rewrite Hrun.
  erewrite turn_chunk; [| done | | exact Hbad |].
  2:{ simpl. rewrite Hpeer. reflexivity. }
  2:{ simpl. reflexivity. }
  simpl sha512_digest. rewrite Hsha.
  rewrite bool_decide_eq_false_2 by done.
  unfold released. simpl. by rewrite Htraffic, Hwarn.
Qed.

Lemma fetch_timeout_run rest tail :
  script_deliver rest = (None, tail) →
  let r := run (good_rounds h [] chunks ++ rest) in
  r.1 = Raise GeventTimeout
  ∧ r.2.1 = p
  ∧ released r.2.2
  ∧ peer r.2.2 = tail
  ∧ traffic r.2.2 = before ++ [Sent (Fetch FETCH_SIZE); TimedOut]
  ∧ warnings r.2.2 = ["Gevent timeout trying to receive data"].
Proof.
  intros Hsilent r.
  destruct (scripted_rounds rest)
    as (s' & k & Hrun & Hpeer & Hsha & Htraffic & Hopen & Hwarn).
  unfold r. rewrite Hrun.
  erewrite turn_fetch_timeout; [| simpl; rewrite Hpeer; exact Hsilent].
  unfold released. simpl. by rewrite Htraffic, Hwarn.
Qed.

Lemma checksum_timeout_run c rest tail :
  c ≠ complete →
  script_deliver rest = (None, tail) →
  let r := run (good_rounds h [] chunks ++ Some c :: rest) in
  r.1 = Raise GeventTimeout
  ∧ r.2.1 = p
  ∧ released r.2.2
  ∧ peer r.2.2 = tail
  ∧ traffic r.2.2
    = before ++ [Sent (Fetch FETCH_SIZE); Received c; Sent Checksum;
                 TimedOut]
  ∧ warnings r.2.2 = ["Gevent timeout trying to receive data"].
Proof.
  intros Hc Hsilent r.
  destruct (scripted_rounds (Some c :: rest))
    as (s' & k & Hrun & Hpeer & Hsha & Htraffic & Hopen & Hwarn).
  unfold r. rewrite Hrun.
  erewrite turn_checksum_timeout; [| done | | exact Hc |].
  2:{ simpl. rewrite Hpeer. reflexivity. }
  2:{ simpl. exact Hsilent. }
  unfold released. simpl. by rewrite Htraffic, Hwarn.
Qed.
End scripted.

(** C4. When, in a session whose destination file opened and after any
    number of rounds that went well, the digest received for a chunk
    differs from the hash of what was received so far, [install_agent]
    raises the [AssertionError] of the failed [assert]. Nothing more is
    asked of the peer and nothing more is taken from it; the file and the
    channel are closed, the temporary directory with the partial file is
    gone, and the registry, the disk and the router have seen nothing. *)
Theorem checksum_mismatch_aborts h uuid dd fuel filename chan vip pk sk force
    p chunks u b bad d tail :
  (∀ s : Session script,
     (_identity_exists_but_no_force vip force (script_env h uuid dd) (p, s)).1
     = Return (u, b)) →
  Forall (.≠ complete) chunks →
  length chunks < fuel →
  fs_open (script_env h uuid dd) (basename filename) = Ok tt →
  bad ≠ complete →
  d ≠ h (concat chunks ++ bad) →
  let r := install_agent fuel filename chan vip pk sk force
             (script_env h uuid dd)
             (p, fresh_session
                   (good_rounds h [] chunks ++ Some bad :: Some d :: tail)) in
  r.1 = Raise AssertionError
  ∧ r.2.1 = p
  ∧ released r.2.2
  ∧ peer r.2.2 = tail
  ∧ traffic r.2.2
    = rounds_traffic h (Fetch FETCH_SIZE) Checksum [] chunks
      ++ [Sent (Fetch FETCH_SIZE); Received bad; Sent Checksum; Received d]
  ∧ warnings r.2.2 = ["Checksum mismatch on received file"].
Proof.
  intros Hid Hchunks Hfuel Hopen Hbad Hd.
  exact (mismatch_run h uuid dd fuel filename chan vip pk sk force p chunks
           u b Hid Hchunks Hfuel Hopen bad d tail Hbad Hd).
Qed.

(** Once the destination file has opened, whatever way [install_agent]
    ends, the file is closed, the channel is closed and the temporary
    directory is gone. (So it is when the identity test raises: nothing
    was taken then.) *)
Lemma install_agent_releases {C} (e : Env C) fuel filename chan vip pk sk
    force (st : State C) :
  released st.2 →
  fs_open e (basename filename) = Ok tt →
  (install_agent fuel filename chan vip pk sk force e st).1 ≠ OutOfFuel →
  released (install_agent fuel filename chan vip pk sk force e st).2.2.
Proof.
  destruct st as [p s]. intros Hfree Hopen Hend.
  pose proof (identity_check_pure e vip force (p, s)) as Hpure.
  destruct (_identity_exists_but_no_force vip force e (p, s))
    as [[[u b] | x |] st0] eqn:Hcheck; simpl in Hpure; subst st0.
  - rewrite (install_agent_unfold e fuel filename chan vip pk sk force p s u b)
      in * by (by rewrite Hcheck || exact Hopen).
    cbv zeta in *.
    destruct (receive_file fuel (Fetch FETCH_SIZE) Checksum
                (basename filename) e _) as [[[] | x |] st']; simpl in *.
    + pose proof (install_wheel_session_kept e u vip (basename filename) b
                    (closed st')) as Hkept.
      destruct (_install_wheel_to_platform u vip (basename filename) b e
                  (closed st')) as [[r | x |] st'']; simpl in *;
        try done; by rewrite Hkept.
    + by destruct x.
    + done.
  - rewrite (install_agent_refused e fuel filename chan vip pk sk force
               (p, s) x) by (by rewrite Hcheck).
    done.
  - exfalso. apply Hend. unfold install_agent, bind. by rewrite Hcheck.
Qed.

(** C5. In a session whose destination file opened, a receive that
    brings nothing within its 30 seconds, be it the receive of a chunk or
    the receive of a checksum, after any number of rounds that went
    well, ends [install_agent] with the [gevent.Timeout]: nothing more is
    sent, the registry is as it was. And however such a session ends, by
    a return, a timeout, a mismatch or an exception of the registration,
    the file is closed, the channel is closed and the temporary
    directory is removed. *)
Theorem timeout_aborts_session h uuid dd fuel filename chan vip pk sk force
    p chunks u b :
  (∀ s : Session script,
     (_identity_exists_but_no_force vip force (script_env h uuid dd) (p, s)).1
     = Return (u, b)) →
  Forall (.≠ complete) chunks →
  length chunks < fuel →
  fs_open (script_env h uuid dd) (basename filename) = Ok tt →
  let run sc := install_agent fuel filename chan vip pk sk force
                  (script_env h uuid dd) (p, fresh_session sc) in
  let before := rounds_traffic h (Fetch FETCH_SIZE) Checksum [] chunks in
  (∀ rest tail,
     script_deliver rest = (None, tail) →
     let r := run (good_rounds h [] chunks ++ rest) in
     r.1 = Raise GeventTimeout
     ∧ r.2.1 = p
     ∧ released r.2.2
     ∧ peer r.2.2 = tail
     ∧ traffic r.2.2 = before ++ [Sent (Fetch FETCH_SIZE); TimedOut]
     ∧ warnings r.2.2 = ["Gevent timeout trying to receive data"])
  ∧ (∀ c rest tail,
       c ≠ complete →
       script_deliver rest = (None, tail) →
       let r := run (good_rounds h [] chunks ++ Some c :: rest) in
       r.1 = Raise GeventTimeout
       ∧ r.2.1 = p
       ∧ released r.2.2
       ∧ peer r.2.2 = tail
       ∧ traffic r.2.2
         = before ++ [Sent (Fetch FETCH_SIZE); Received c; Sent Checksum;
                      TimedOut]
       ∧ warnings r.2.2 = ["Gevent timeout trying to receive data"])
  ∧ (∀ C (e : Env C) fuel' filename' chan' vip' pk' sk' force' (st : State C),
       released st.2 →
       fs_open e (basename filename') = Ok tt →
       (install_agent fuel' filename' chan' vip' pk' sk' force' e st).1
       ≠ OutOfFuel →
       released
         (install_agent fuel' filename' chan' vip' pk' sk' force' e st).2.2).
Proof.
  intros Hid Hchunks Hfuel Hopen run before. split; [| split].
  - intros rest tail Hsilent.
    exact (fetch_timeout_run h uuid dd fuel filename chan vip pk sk force p
             chunks u b Hid Hchunks Hfuel Hopen rest tail Hsilent).
  - intros c rest tail Hc Hsilent.
    exact (checksum_timeout_run h uuid dd fuel filename chan vip pk sk force
             p chunks u b Hid Hchunks Hfuel Hopen c rest tail Hc Hsilent).
  - intros C e. intros. by apply install_agent_releases.
Qed.

(** *** The identity test *)

Lemma truthy_str_nonempty (x : string) : x ≠ EmptyString → truthy_str x = true.
Proof. by destruct x. Qed.

(** An identity that some installed agent has is found, with the uuid of
    an agent that has it. *)
Lemma identity_exists_found {C} (e : Env C) ident p (s : Session C) uuid a :
  agents p !! uuid = Some a →
  ag_identity a = Some ident →
  ∃ u a',
    (_identity_exists ident e (p, s)).1 = Return (Some u)
    ∧ agents p !! u = Some a'
    ∧ ag_identity a' = Some ident.
Proof.
  intros Hagent Hident. unfold _identity_exists, list_agents. run.
  match goal with
  | |- context [?f <$> aip_list_agents p] => set (row := f)
  end.
  assert (row (uuid, ag_name a) ∈ row <$> aip_list_agents p) as Hin.
  { apply list_elem_of_fmap. exists (uuid, ag_name a). split; [done |].
    unfold aip_list_agents. apply elem_of_map_to_list.
    by rewrite lookup_fmap, Hagent. }
  destruct (List.find (λ x : listed, bool_decide (l_identity x = Some ident))
              (row <$> aip_list_agents p)) as [x |] eqn:Hfind.
  - apply List.find_some in Hfind as [Hx Hmatch].
    apply bool_decide_eq_true in Hmatch.
    apply list_elem_of_In in Hx.
    destruct (row <$> aip_list_agents p) as [| x0 results] eqn:Hresults;
      [by apply elem_of_nil in Hin |].
    rewrite <- Hresults in Hx.
    apply list_elem_of_fmap in Hx as ([u n] & -> & Hun).
    apply elem_of_map_to_list in Hun. rewrite lookup_fmap in Hun.
    destruct (agents p !! u) as [a' |] eqn:Ha'; [| done].
    exists u, a'. repeat split; try done.
    simpl in Hmatch. unfold aip_agent_identity in Hmatch.
    by rewrite Ha' in Hmatch.
  - exfalso.
    pose proof (List.find_none _ _ Hfind (row (uuid, ag_name a))) as Hnone.
    rewrite <- list_elem_of_In in Hnone. specialize (Hnone Hin).
    apply bool_decide_eq_false in Hnone. apply Hnone. simpl.
    unfold aip_agent_identity. by rewrite Hagent.
Qed.

(** C6. [install_agent] with [force] false, for an identity that an
    installed agent has, raises the [ValueError] of the identity test
    and leaves everything as it was: no channel was made, nothing was
    asked of the peer, no file was written, and the registry was only
    read. Identities and uuids are non-empty strings. *)
Theorem conflict_without_force {C} (e : Env C) fuel filename chan ident pk sk
    (st : State C) uuid a :
  agents st.1 !! uuid = Some a →
  ag_identity a = Some ident →
  ident ≠ EmptyString →
  agents st.1 !! EmptyString = None →
  install_agent fuel filename chan (Some ident) pk sk false e st
  = (Raise (ValueError "Identity already exists, but not forced!"), st).
Proof.
  destruct st as [p s]. simpl. intros Hagent Hident Hne Hwf.
  apply install_agent_refused.
  destruct (identity_exists_found e ident p s uuid a Hagent Hident)
    as (u & a' & Hfound & Hu & _).
  pose proof (identity_exists_pure e ident (p, s)) as Hpure.
  unfold _identity_exists_but_no_force, bind.
  rewrite truthy_str_nonempty by done.
  destruct (_identity_exists ident e (p, s)) as [o st0].
  simpl in Hfound, Hpure. subst o st0. simpl.
  rewrite truthy_str_nonempty; [done |].
  intros ->. by rewrite Hwf in Hu.
Qed.

(** *** The registration *)

(** C7. [_install_wheel_to_platform] for an agent that exists: the data
    directory of the old agent is archived, its keypair read, the router
    told, the old agent removed, the new one installed with the keypair
    of the old one, and the archive restored into the data directory of
    the new one, in this order. Afterwards the old uuid is not in the
    registry, and every file the old data directory had is in the new
    data directory, with its content. The registry gives the new agent a
    uuid other than the old one. *)
Theorem forced_reinstall {C} (e : Env C) old vip path p (s : Session C)
    a wheel :
  truthy_str old = true →
  truthy_str (agent_data_dir e old) = true →
  agents p !! old = Some a →
  tmpdir s ≫= (.!! path) = Some wheel →
  uuid4 e ≠ old →
  let new := uuid4 e in
  let archive := "/tmp/" +:+ old +:+ ".tar.gz" in
  let old_dir := agent_data_dir e old in
  let new_dir := agent_data_dir e new in
  let old_files := default ∅ (dirs p !! old_dir) in
  let r := _install_wheel_to_platform (Some old) vip path true e (p, s) in
  r.1 = Return new
  ∧ history r.2.1
    = history p
      ++ [Archived archive old_dir; KeystoreRead old;
          RouterTold "agentstop" [ag_identity a]; Removed old;
          Installed new vip (ag_public a) (ag_secret a);
          Restored archive new_dir]
  ∧ agents r.2.1 !! old = None
  ∧ agents r.2.1 !! new
    = Some {| ag_name := package_name e path wheel; ag_identity := vip;
              ag_tag := None; ag_priority := None; ag_public := ag_public a;
              ag_secret := ag_secret a; ag_package := wheel |}
  ∧ tarballs r.2.1 !! archive = Some old_files
  ∧ ∀ f c, old_files !! f = Some c →
      ∃ new_files,
        dirs r.2.1 !! new_dir = Some new_files ∧ new_files !! f = Some c.
Proof.
  intros Hold Hdir Hagent Hwheel Hfresh new archive old_dir new_dir old_files r.
  unfold r, _install_wheel_to_platform.
  unfold aip_create_agent_data_dir_if_missing, backup_agent_data,
    aip_get_agent_keystore, remove_agent, aip_remove_agent,
    aip_install_agent, restore_agent_data_from_tgz, record, keystore_of,
    aip_agent_identity.
  rewrite Hold. run. rewrite Hdir. simpl. fold old_dir.
  assert ((match dirs p !! old_dir with
           | Some _ => dirs p
           | None => <[old_dir := ∅]> (dirs p)
           end) !! old_dir = Some old_files) as ->.
  { unfold old_files. destruct (dirs p !! old_dir) eqn:Hd; simpl; [done |].
    by rewrite lookup_insert_eq. }
  simpl. rewrite Hagent. simpl. rewrite Hwheel. simpl.
  fold new new_dir archive. rewrite lookup_insert_eq. simpl.
  rewrite <- !app_assoc. simpl.
  split; [reflexivity |]. split; [reflexivity |].
  split; [rewrite lookup_insert_ne by exact Hfresh; apply lookup_delete_eq |].
  split; [by rewrite lookup_insert_eq |].
  split; [by rewrite lookup_insert_eq |].
  intros f c Hf. eexists. rewrite lookup_insert_eq. split; [done |].
  by apply lookup_union_Some_l.
Qed.

(** *** The theorems at work on small platforms *)

Lemma checksum_mismatch_aborts_witness :
  let r := install_agent 5 "agent.whl" "chan" None None None false
             (script_env toy_hash "new-2" data_dir_of)
             (lived_in,
              fresh_session
                (good_rounds toy_hash [] [["a"; "b"]%byte]
                 ++ [Some ["c"%byte]; Some []; Some complete])) in
  r.1 = Raise AssertionError
  ∧ r.2.1 = lived_in
  ∧ released r.2.2
  ∧ peer r.2.2 = [Some complete].
Proof.
  intros r.
  destruct (checksum_mismatch_aborts toy_hash "new-2" data_dir_of 5
              "agent.whl" "chan" None None None false lived_in
              [["a"; "b"]%byte] None false ["c"%byte] [] [Some complete])
    as (Hraise & Hsame & Hfree & Hpeer & _).
  - intros s. reflexivity.
  - repeat constructor. discriminate.
  - simpl. lia.
  - reflexivity.
  - discriminate.
  - discriminate.
  - split; [exact Hraise |]. split; [exact Hsame |].
    split; [exact Hfree | exact Hpeer].
Defined.

Lemma timeout_aborts_session_witness :
  let r := install_agent 5 "agent.whl" "chan" None None None false
             (script_env toy_hash "new-2" data_dir_of)
             (lived_in,
              fresh_session
                (good_rounds toy_hash [] [["a"; "b"]%byte]
                 ++ [Some ["c"%byte]])) in
  r.1 = Raise GeventTimeout
  ∧ r.2.1 = lived_in
  ∧ released r.2.2.
Proof.
  intros r.
  destruct (timeout_aborts_session toy_hash "new-2" data_dir_of 5
              "agent.whl" "chan" None None None false lived_in
              [["a"; "b"]%byte] None false)
    as (_ & Hchecksum & _).
  - intros s. reflexivity.
  - repeat constructor. discriminate.
  - simpl. lia.
  - reflexivity.
  - destruct (Hchecksum ["c"%byte] [] []) as (Hraise & Hsame & Hfree & _).
    + discriminate.
    + reflexivity.
    + split; [exact Hraise |]. split; [exact Hsame | exact Hfree].
Defined.

Lemma conflict_without_force_witness :
  install_agent 5 "agent.whl" "chan" (Some "listener") None None false
    (sender_env toy_hash "new-2" data_dir_of)
    (lived_in, fresh_session (sender_start ["n"; "e"; "w"]%byte))
  = (Raise (ValueError "Identity already exists, but not forced!"),
     (lived_in, fresh_session (sender_start ["n"; "e"; "w"]%byte))).
Proof.
  apply (conflict_without_force (sender_env toy_hash "new-2" data_dir_of) 5
           "agent.whl" "chan" "listener" None None
           (lived_in, fresh_session (sender_start ["n"; "e"; "w"]%byte))
           "old-1" listener).
  - reflexivity.
  - reflexivity.
  - discriminate.
  - reflexivity.
Defined.

Lemma forced_reinstall_witness :
  let r := _install_wheel_to_platform (Some "old-1") (Some "listener")
             "agent.whl" true
             (sender_env toy_hash "new-2" data_dir_of)
             (lived_in,
              set_tmpdir (λ _, Some {["agent.whl" := ["n"; "e"; "w"]%byte]})
                (fresh_session (sender_start []))) in
  r.1 = Return "new-2"
  ∧ agents r.2.1 !! "old-1" = None
  ∧ ∃ new_files,
      dirs r.2.1 !! data_dir_of "new-2" = Some new_files
      ∧ new_files !! "state.json" = Some ["{"; "}"]%byte.
Proof.
  intros r.
  destruct (forced_reinstall (sender_env toy_hash "new-2" data_dir_of)
              "old-1" (Some "listener") "agent.whl" lived_in
              (set_tmpdir (λ _, Some {["agent.whl" := ["n"; "e"; "w"]%byte]})
                 (fresh_session (sender_start [])))
              listener ["n"; "e"; "w"]%byte)
    as (Hret & _ & Hgone & _ & _ & Hfiles).
  - reflexivity.
  - reflexivity.
  - reflexivity.
  - reflexivity.
  - discriminate.
  - split; [exact Hret |]. split; [exact Hgone |].
    apply Hfiles. reflexivity.
Defined.

(** The whole of [install_agent] with [force] over an identity that
    exists: the package comes from the sender, the old agent goes, the
    new one has its keys and its file. *)
Example forced_reinstall_end_to_end :
  let r := install_agent 5 "dist/agent.whl" "chan" (Some "listener") None
             None true
             (sender_env toy_hash "new-2" data_dir_of)
             (lived_in, fresh_session (sender_start ["n"; "e"; "w"]%byte)) in
  r.1 = Return "new-2"
  ∧ agents r.2.1 !! "old-1" = None
  ∧ ag_identity <$> agents r.2.1 !! "new-2" = Some (Some "listener")
  ∧ ag_public <$> agents r.2.1 !! "new-2" = Some (Some "pub-key")
  ∧ ag_secret <$> agents r.2.1 !! "new-2" = Some (Some "sec-key")
  ∧ ag_package <$> agents r.2.1 !! "new-2" = Some ["n"; "e"; "w"]%byte
  ∧ dirs r.2.1 !! data_dir_of "new-2" ≫= (.!! "state.json")
    = Some ["{"; "}"]%byte
  ∧ tmpdir r.2.2 = None.
Proof. vm_compute. done. Qed.
End InstallerProofs.

(** ** Invariants of the crash supervisor *)

Module SupervisorInvariants.
Import Supervisor SupervisorProofs Attempts.

Ltac run := unfold bind, ret, gets, modify, ask, call, raise, emit; simpl.

Lemma monitor_agent_bounded row e s :
  attempts_bounded s →
  attempts_bounded (monitor_agent row e s).2
  ∧ ∃ new, effects (monitor_agent row e s).2 = effects s ++ new
           ∧ Forall (poll_effect (get_aware_utc_now e)) new.
Proof.
  destruct row as [[[u n] [pid stat]] ident]. intros Hb.
  destruct (truthy_status stat) eqn:Hstat.
  - destruct (Z.ltb_spec (default (-1) (crashed_agents s !! u) + 1) 5)%Z
      as [Hlt | Hge].
    + rewrite monitor_agent_schedules by done. cbn [snd crashed_agents effects]. split.
      * intros k v. destruct (decide (u = k)) as [-> | Hne].
        -- simpl. rewrite lookup_insert_eq. intros [= <-].
           destruct (crashed_agents s !! k) as [w |] eqn:Hw; simpl in *;
             [apply Hb in Hw |]; lia.
        -- simpl. rewrite lookup_insert_ne by done. apply Hb.
      * eexists. split; [done |]. repeat constructor.
        exists (default (-1) (crashed_agents s !! u) + 1)%Z. split; [| done].
        destruct (crashed_agents s !! u) as [w |] eqn:Hw; simpl in *;
          [apply Hb in Hw |]; lia.
    + rewrite monitor_agent_alerts by done.
      destruct (health_send_alert e _ _); cbn [snd crashed_agents effects].
      * split.
        -- intros k v Hk. simpl in Hk.
           apply lookup_delete_Some in Hk as [_ Hk]. by eapply Hb.
        -- eexists. split; [done |]. by repeat constructor.
      * split; [done |]. eexists. split; [done |]. by repeat constructor.
  - rewrite monitor_agent_clean by done. split; [done |].
    exists []. by rewrite app_nil_r.
Qed.

Lemma for_each_bounded rows e : ∀ s,
  attempts_bounded s →
  attempts_bounded (for_each rows monitor_agent e s).2
  ∧ ∃ new, effects (for_each rows monitor_agent e s).2 = effects s ++ new
           ∧ Forall (poll_effect (get_aware_utc_now e)) new.
Proof.
  induction rows as [| row rows IH]; intros s Hb.
  - simpl. split; [done |]. exists []. by rewrite app_nil_r.
  - rewrite for_each_cons.
    destruct (monitor_agent_bounded row e s Hb) as (Hb1 & new1 & He1 & Hn1).
    destruct (monitor_agent row e s) as [[[] | x |] s1]; simpl in *;
      [| by eauto..].
    destruct (IH s1 Hb1) as (Hb2 & new2 & He2 & Hn2).
    split; [done |]. exists (new1 ++ new2).
    rewrite He2, He1, <- app_assoc. split; [done |]. by apply Forall_app.
Qed.

Lemma poll_bounded e s :
  attempts_bounded s →
  attempts_bounded (_monitor_agents e s).2
  ∧ ∃ new, effects (_monitor_agents e s).2 = effects s ++ new
           ∧ Forall (poll_effect (get_aware_utc_now e)) new.
Proof.
  intros Hb. unfold _monitor_agents, bind, call.
  destruct (aip_status_agents e) as [rows | x].
  - by apply for_each_bounded.
  - simpl. split; [done |]. exists []. by rewrite app_nil_r.
Qed.

Lemma restart_bounded u n e s :
  attempts_bounded s → attempts_bounded (_restart_agent u n e s).2.
Proof.
  intros Hb.
  assert (∀ c l, (∀ k v, c !! k = Some v → crashed_agents s !! k = Some v) →
            attempts_bounded {| crashed_agents := c; effects := l |}) as Hsub.
  { intros c l Hc k v Hk. apply (Hb k v). by apply Hc. }
  unfold _restart_agent, stop_agent, crashed_agents_pop. run.
  destruct (aip_agent_status e u) as [[pid stat] |]; simpl; [| done].
  destruct (truthy_status stat); [| done].
  destruct (aip_agent_identity e u) as [ident |]; simpl; [| done].
  destruct (aip_stop_agent e u); simpl; [| by apply Hsub].
  destruct (connection_send_vip e "agentstop" [ident]); simpl;
    [| by apply Hsub].
  destruct (aip_start_agent e u) as [[pid' stat'] |]; simpl; [| by apply Hsub].
  destruct stat' as [c |]; simpl; [by apply Hsub |].
  destruct (crashed_agents s !! u); simpl; apply Hsub; simpl; [| done].
  intros k v Hk. by apply lookup_delete_Some in Hk as [_ Hk].
Qed.

(** X1. Whatever the scheduler runs, polls and restart tasks in any order
    and whatever the collaborators answer, the attempt counts kept in
    [crashed_agents] stay between 0 and 4 once they are. *)
Theorem attempts_stay_bounded ts : ∀ s,
  attempts_bounded s → attempts_bounded (run_tasks ts s).
Proof.
  induction ts as [| [t e] ts IH]; intros s Hb; simpl; [done |].
  apply IH. destruct t as [| u n]; simpl.
  - by apply poll_bounded.
  - by apply restart_bounded.
Qed.

(** X2. A poll only adds to what the supervisor has done, and what it adds
    is a restart scheduled at the time of the poll plus 0, 5, 10, 15 or
    20 minutes, or an alert. The poll itself never stops or starts an
    agent. *)
Theorem poll_effects_bounded e s :
  attempts_bounded s →
  ∃ new,
    effects (_monitor_agents e s).2 = effects s ++ new
    ∧ Forall (poll_effect (get_aware_utc_now e)) new.
Proof. intros Hb. by destruct (poll_bounded e s Hb). Qed.

Lemma monitor_agent_frame uid row e s :
  (row_uid row = uid → truthy_status (row_stat row) = false) →
  same_view uid s (monitor_agent row e s).2.
Proof.
  destruct row as [[[u n] [pid stat]] ident]. unfold row_uid, row_stat.
  cbn [fst snd]. intros Hrow.
  destruct (truthy_status stat) eqn:Hstat.
  - assert (u ≠ uid) as Hne by (intros Heq; by specialize (Hrow Heq)).
    destruct (Z.ltb_spec (default (-1) (crashed_agents s !! u) + 1) 5)%Z
      as [Hlt | Hge].
    + rewrite monitor_agent_schedules by done. split; simpl.
      * by rewrite lookup_insert_ne.
      * rewrite agent_events_snoc. simpl.
        rewrite bool_decide_eq_false_2 by done. by rewrite app_nil_r.
    + rewrite monitor_agent_alerts by done.
      destruct (health_send_alert e _ _); split; simpl;
        rewrite ?lookup_delete_ne by done; try done;
        rewrite agent_events_snoc; simpl;
        rewrite bool_decide_eq_false_2 by done; by rewrite app_nil_r.
  - rewrite monitor_agent_clean by done. apply same_view_refl.
Qed.

Lemma for_each_frame uid (rows : list agent_status) e : ∀ s,
  (∀ row, row ∈ rows → row_uid row = uid →
     truthy_status (row_stat row) = false) →
  same_view uid s (for_each rows monitor_agent e s).2.
Proof.
  induction rows as [| row rows IH]; intros s Hrows.
  - apply same_view_refl.
  - rewrite for_each_cons.
    pose proof (monitor_agent_frame uid row e s) as Hrow.
    destruct (monitor_agent row e s) as [[[] | x |] s1]; simpl in *.
    + eapply same_view_trans.
      * apply Hrow. apply Hrows. by left.
      * apply IH. intros r Hr. apply Hrows. by right.
    + apply Hrow. apply Hrows. by left.
    + apply Hrow. apply Hrows. by left.
Qed.

(** X3. A poll touches neither the crash record nor the events of an agent
    that the status list does not report with a non-clean status,
    whatever it does for the other agents and also when an alert for one
    of them fails. *)
Theorem poll_leaves_others uid e s :
  (∀ rows row, aip_status_agents e = Ok rows → row ∈ rows →
     row_uid row = uid → truthy_status (row_stat row) = false) →
  same_view uid s (_monitor_agents e s).2.
Proof.
  intros Hrows. unfold _monitor_agents, bind, call.
  destruct (aip_status_agents e) as [rows | x] eqn:Hstatus.
  - apply for_each_frame. intros row. by apply Hrows.
  - apply same_view_refl.
Qed.

Lemma restart_agent_healthy uid name e s pid stat :
  aip_agent_status e uid = Ok (pid, stat) →
  truthy_status stat = false →
  _restart_agent uid name e s = (Return tt, s).
Proof.
  intros Hstatus Hstat. unfold _restart_agent. run.
  by rewrite Hstatus, Hstat.
Qed.

(** X4. A restart task that finds the agent with a clean status does
    nothing: the agent is neither stopped nor started, and its crash
    record stays. The next poll that finds the agent crashed therefore
    goes on counting, attempt [k + 1] with a delay of [5 * (k + 1)]
    minutes, and not from attempt 0. *)
Theorem recovery_keeps_record uid name e1 e2 s pid stat k :
  aip_agent_status e1 uid = Ok (pid, stat) →
  truthy_status stat = false →
  crashed_agents s !! uid = Some k →
  (k < 4)%Z →
  crashing uid name e2 →
  let s' := run_tasks [(RestartTask uid name, e1); (Poll, e2)] s in
  _restart_agent uid name e1 s = (Return tt, s)
  ∧ crashed_agents s' !! uid = Some (k + 1)%Z
  ∧ agent_events uid (effects s')
    = agent_events uid (effects s)
      ++ [Scheduled (get_aware_utc_now e2 + timedelta_minutes ((k + 1) * 5))
            uid name].
Proof.
  intros Hstatus Hstat Hrec Hk Hcrash s'.
  pose proof (restart_agent_healthy uid name e1 s pid stat Hstatus Hstat)
    as Hnoop.
  split; [done |]. unfold s'. simpl. rewrite Hnoop. simpl.
  destruct (poll_crashing uid name e2 s Hcrash) as (s2 & -> & Hview).
  rewrite Hrec in Hview. simpl in Hview.
  destruct (Z.ltb_spec (k + 1) 5); [done | lia].
Qed.


#[local] Arguments Nat.modulo : simpl never.
#[local] Arguments Nat.div : simpl never.



Lemma attempts_stay_bounded_witness :
  attempts_bounded
    (run_tasks [(Poll, crash_poll 0); (RestartTask "a1b2" "listener", alert_up);
                (Poll, alert_down)] exhausted).
Proof.
  apply attempts_stay_bounded. intros k v. unfold exhausted. simpl.
  intros [_ <-]%lookup_singleton_Some. lia.
Defined.

Lemma poll_effects_bounded_witness :
  ∃ new,
    effects (_monitor_agents alert_up exhausted).2 = effects exhausted ++ new
    ∧ Forall (poll_effect (get_aware_utc_now alert_up)) new.
Proof.
  apply poll_effects_bounded. intros k v. unfold exhausted. simpl.
  intros [_ <-]%lookup_singleton_Some. lia.
Defined.

Lemma poll_leaves_others_witness :
  same_view "c3d4" stuck
    (_monitor_agents
       (sim [crashed_row "a1b2" "listener";
             ("c3d4", "forwarder", (Some 5%Z, None), Some "forwarder")]
          0 (Ok tt) (Some 1%Z)) stuck).2.
Proof.
  apply poll_leaves_others. intros rows row [= <-] Hin Huid.
  apply list_elem_of_In in Hin. simpl in Hin.
  destruct Hin as [<- | [<- | []]]; [discriminate Huid | reflexivity].
Defined.

Lemma recovery_keeps_record_witness :
  let e1 := sim [("a1b2", "listener", (Some 77%Z, None), Some "listener")]
              300 (Ok tt) (Some 1%Z) in
  let s' := run_tasks [(RestartTask "a1b2" "listener", e1);
                       (Poll, crash_poll 600)] stuck in
  crashed_agents s' !! "a1b2" = Some 3%Z
  ∧ agent_events "a1b2" (effects s')
    = [Scheduled (600 + timedelta_minutes 15) "a1b2" "listener"].
Proof.
  intros e1 s'.
  destruct (recovery_keeps_record "a1b2" "listener" e1 (crash_poll 600) stuck
              (Some 77%Z) None 2%Z eq_refl eq_refl eq_refl)
    as (_ & Hrec & Hev).
  - lia.
  - apply crash_poll_crashing.
  - split; [exact Hrec | exact Hev].
Defined.

End SupervisorInvariants.

(** ** The installer against any peer, and from end to end *)

Module InstallerIntegrity.
Import Installer InstallerProofs Rpc Peers.

Ltac run :=
  unfold bind, ret, gets, modify, ask, call, raise, on_session, on_platform,
    set_peer, set_channel_open, set_tmpdir, set_store_open, set_sha512,
    set_traffic, set_warnings, set_agents, set_dirs, set_tarballs,
    set_history;
  simpl.

Section any_peer.
Context {C : Type} (e : Env C).

Lemma find_identity_sound ident (l : list listed) x :
  List.find (fun x => bool_decide (l_identity x = Some ident)) l = Some x →
  x ∈ l ∧ l_identity x = Some ident.
Proof.
  intros [Hin Hid%bool_decide_eq_true]%List.find_some.
  by apply list_elem_of_In in Hin.
Qed.

Lemma find_identity_complete ident (l : list listed) :
  List.find (fun x => bool_decide (l_identity x = Some ident)) l = None →
  ∀ x, x ∈ l → l_identity x ≠ Some ident.
Proof.
  intros Hnone x Hin%list_elem_of_In.
  by apply (List.find_none _ _ Hnone), bool_decide_eq_false in Hin.
Qed.

Lemma listed_of_registry p x :
  x ∈ (λ '(uuid, name),
         {| l_name := name; l_uuid := uuid; l_tag := aip_agent_tag p uuid;
            l_priority := aip_agent_priority p uuid;
            l_identity := aip_agent_identity p uuid |}) <$> aip_list_agents p
  ↔ ∃ a, agents p !! l_uuid x = Some a
         ∧ x = {| l_name := ag_name a; l_uuid := l_uuid x; l_tag := ag_tag a;
                  l_priority := ag_priority a;
                  l_identity := ag_identity a |}.
Proof.
  unfold aip_list_agents. rewrite list_elem_of_fmap. split.
  - intros ([u n] & -> & Hin). simpl.
    apply elem_of_map_to_list in Hin. rewrite lookup_fmap in Hin.
    destruct (agents p !! u) as [a |] eqn:Ha; [| done].
    simpl in Hin. injection Hin as <-. exists a. split; [done |].
    unfold aip_agent_tag, aip_agent_priority, aip_agent_identity.
    by rewrite Ha.
  - intros (a & Ha & Hx). exists (l_uuid x, ag_name a). split.
    + rewrite Hx at 1. simpl.
      unfold aip_agent_tag, aip_agent_priority, aip_agent_identity.
      by rewrite Ha.
    + apply elem_of_map_to_list. rewrite lookup_fmap. by rewrite Ha.
Qed.

Lemma identity_exists_spec name (st : State C) :
  ∃ found,
    _identity_exists name e st = (Return found, st)
    ∧ match found with
      | Some uuid =>
          ∃ a, agents st.1 !! uuid = Some a ∧ ag_identity a = Some name
      | None =>
          ∀ uuid a, agents st.1 !! uuid = Some a → ag_identity a ≠ Some name
      end.
Proof.
  unfold _identity_exists, list_agents. run.
  set (results := _ <$> aip_list_agents st.1).
  assert (∀ x, x ∈ results ↔ ∃ a, agents st.1 !! l_uuid x = Some a
            ∧ x = {| l_name := ag_name a; l_uuid := l_uuid x;
                     l_tag := ag_tag a; l_priority := ag_priority a;
                     l_identity := ag_identity a |}) as Hres
    by apply listed_of_registry.
  destruct st as [p s]. simpl in *.
  destruct results as [| x0 l] eqn:Hl.
  - exists None. split; [done |]. intros uuid a Ha _.
    specialize (Hres {| l_name := ag_name a; l_uuid := uuid;
                        l_tag := ag_tag a; l_priority := ag_priority a;
                        l_identity := ag_identity a |}).
    simpl in Hres. destruct Hres as [_ Hres].
    eapply elem_of_nil, Hres. by exists a.
  - rewrite <- Hl in *. clear Hl.
    destruct (List.find _ results) as [x |] eqn:Hfind.
    + exists (Some (l_uuid x)). split; [done |].
      apply find_identity_sound in Hfind as [Hin Hid].
      apply Hres in Hin as (a & Ha & Hx). exists a. split; [done |].
      rewrite Hx in Hid. done.
    + exists None. split; [done |]. intros uuid a Ha Hid.
      eapply (find_identity_complete _ _ Hfind
                {| l_name := ag_name a; l_uuid := uuid;
                   l_tag := ag_tag a; l_priority := ag_priority a;
                   l_identity := ag_identity a |}); [| done].
      apply Hres. by exists a.
Qed.

(** X6. [identity_exists] raises [ValueError] for no identity and for the
    empty one, and otherwise answers without changing anything: with the
    uuid of an installed agent that has the identity, or with [None],
    and then no installed agent has it. *)
Theorem identity_lookup (ident : option string) (st : State C) :
  match ident with
  | None | Some EmptyString =>
      identity_exists ident e st
      = (Raise (ValueError "Attribute identity cannot be None or empty"), st)
  | Some name =>
      ∃ found,
        identity_exists ident e st = (Return found, st)
        ∧ match found with
          | Some uuid =>
              ∃ a, agents st.1 !! uuid = Some a ∧ ag_identity a = Some name
          | None =>
              ∀ uuid a, agents st.1 !! uuid = Some a →
                ag_identity a ≠ Some name
          end
  end.
Proof.
  destruct ident as [[| c name] |]; try done.
  apply (identity_exists_spec (String c name)).
Qed.

Lemma receive_file_returns rf rc path fuel : ∀ p (s : Session C) st' t file0,
  store_open s = true →
  tmpdir s = Some t →
  t !! path = Some file0 →
  receive_file fuel rf rc path e (p, s) = (Return tt, st') →
  ∃ chunks,
    Forall (.≠ complete) chunks
    ∧ st'.1 = p
    ∧ traffic st'.2
      = traffic s
        ++ rounds_traffic (sha512_digest e) rf rc (sha512 s) chunks
        ++ [Sent rf; Received complete]
    ∧ sha512 st'.2 = sha512 s ++ concat chunks
    ∧ tmpdir st'.2 = Some (<[path := file0 ++ concat chunks]> t)
    ∧ store_open st'.2 = true
    ∧ channel_open st'.2 = channel_open s
    ∧ warnings st'.2 = warnings s.
Proof.
  induction fuel as [| fuel IH]; intros p s st' t file0 Hopen Htmp Hfile Hrun.
  - discriminate Hrun.
  - destruct (chan_recv e (chan_send e rf (peer s))) as [[chunk |] c1] eqn:Hc1.
    + destruct (decide (chunk = complete)) as [-> | Hchunk].
      * rewrite (turn_complete e rf rc path fuel (p, s) c1 Hc1) in Hrun.
        injection Hrun as <-. exists []. simpl.
        rewrite !app_nil_r, insert_id by done. repeat split; done.
      * destruct (chan_recv e (chan_send e rc c1)) as [[d |] c2] eqn:Hc2.
        -- rewrite (turn_chunk e rf rc path fuel (p, s) c1 chunk c2 d
                      Hopen Hc1 Hchunk Hc2) in Hrun.
           destruct (bool_decide_reflect
                       (d = sha512_digest e (sha512 (p, s).2 ++ chunk)))
             as [Hd | Hd]; [| discriminate Hrun].
           simpl in Hd.
           apply (IH _ _ _ (<[path := file0 ++ chunk]> t) (file0 ++ chunk))
             in Hrun as (chunks & Hall & Hp & Htr & Hfed & Hdir & Hst & Hch
                         & Hw);
             [| done | by simpl; rewrite Htmp; simpl; rewrite Hfile
                | by rewrite lookup_insert_eq ].
           exists (chunk :: chunks). simpl in *.
           rewrite Htr, Hfed, Hdir, Hd, insert_insert_eq, <- !app_assoc.
           repeat split; try done. by constructor.
        -- by rewrite (turn_checksum_timeout e rf rc path fuel (p, s) c1 chunk
                         c2 Hopen Hc1 Hchunk Hc2) in Hrun.
    + by rewrite (turn_fetch_timeout e rf rc path fuel (p, s) c1 Hc1) in Hrun.
Qed.

(** X7. Against any peer and any hash: when the transfer returns, the peer
    has answered every fetch but the last with a chunk and every
    checksum request with the digest of all chunks so far, and the last
    fetch with the sentinel; the file holds the chunks in order and
    nothing else, the file and the channel are closed and the platform
    is as it was. *)
Theorem transfer_returns_only_verified rf rc path fuel p (s : Session C) t
    st' :
  tmpdir s = Some t →
  pull_artifact fuel rf rc path e (p, s) = (Return tt, st') →
  ∃ chunks,
    Forall (.≠ complete) chunks
    ∧ traffic st'.2
      = traffic s
        ++ rounds_traffic (sha512_digest e) rf rc [] chunks
        ++ [Sent rf; Received complete]
    ∧ tmpdir st'.2 = Some (<[path := concat chunks]> t)
    ∧ sha512 st'.2 = concat chunks
    ∧ store_open st'.2 = false
    ∧ channel_open st'.2 = false
    ∧ st'.1 = p.
Proof.
  intros Htmp Hrun.
  destruct (fs_open e path) as [[] | x0] eqn:Hopen;
    [| by rewrite (pull_artifact_unopened e _ _ _ _ _ _ _ x0 Htmp Hopen)
         in Hrun].
  rewrite (pull_artifact_unfold e _ _ _ _ _ _ _ Htmp Hopen) in Hrun.
  destruct (receive_file fuel rf rc path e (p, opened path t s))
    as [[[] | x |] st1] eqn:Hloop; try discriminate Hrun.
  injection Hrun as <-.
  apply (receive_file_returns _ _ _ _ _ _ _ (<[path := []]> t) [])
    in Hloop as (chunks & Hall & Hp & Htr & Hfed & Hdir & _);
    [| done | done | by rewrite lookup_insert_eq ].
  exists chunks. simpl in *.
  rewrite Htr, Hfed, Hdir, insert_insert_eq. repeat split; done.
Qed.

Lemma identity_check_outcome vip force (st : State C) :
  (∃ u b, (_identity_exists_but_no_force vip force e st).1 = Return (u, b))
  ∨ ∃ x, (_identity_exists_but_no_force vip force e st).1 = Raise x.
Proof.
  unfold _identity_exists_but_no_force, _identity_exists, list_agents. run.
  destruct vip as [ident |]; simpl; [| left; by eexists _, _].
  destruct (truthy_str ident); simpl; [| left; by eexists _, _].
  destruct (_ <$> aip_list_agents st.1) as [| x l]; simpl;
    [left; by eexists _, _ |].
  destruct (truthy_opt_str _); [| left; by eexists _, _].
  destruct force; simpl; [left; by eexists _, _ | right; by eexists].
Qed.

Lemma bind_returns {A B} (m : M (Env C) (State C) A)
    (k : A → M (Env C) (State C) B) st b st2 :
  bind m k e st = (Return b, st2) →
  ∃ a st1, m e st = (Return a, st1) ∧ k a e st1 = (Return b, st2).
Proof.
  unfold bind. destruct (m e st) as [[a | x |] st1]; try done.
  intros Hk. by exists a, st1.
Qed.

(** The steps of the registration before [aip.install_agent] leave the
    session alone, and so the received file. *)
Lemma before_install_session_kept (u : option string) :
  session_kept e
    (match u with
     | Some uuid =>
         if truthy_str uuid then
           let backup_agent_file := "/tmp/" +:+ uuid +:+ ".tar.gz" in
           let* agent_data_dir :=
             aip_create_agent_data_dir_if_missing uuid in
           (if truthy_str agent_data_dir then
              backup_agent_data backup_agent_file agent_data_dir
            else ret tt) ;;
           let* keystore := aip_get_agent_keystore uuid in
           let publickey := keystore.1 in
           let secretkey := keystore.2 in
           remove_agent uuid ;;
           ret (Some backup_agent_file, publickey, secretkey)
         else ret (None, None, None)
     | None => ret (None, None, None)
     end)%py.
Proof.
  destruct u as [uuid |]; [| done].
  destruct (truthy_str uuid); [| done].
  unfold aip_create_agent_data_dir_if_missing, backup_agent_data,
    aip_get_agent_keystore, remove_agent, aip_remove_agent, record.
  intros st. run.
  destruct (truthy_str _); simpl; [| done].
  by destruct (_ !! agent_data_dir e uuid); simpl;
    rewrite ?lookup_insert_eq; simpl;
    try destruct (dirs st.1 !! agent_data_dir e uuid).
Qed.

(** What follows [aip.install_agent] leaves the registry alone. *)
Lemma after_install_agents_kept (file : option string) (b : bool) uuid
    (st : State C) :
  agents
    ((match file with
      | Some file =>
          if b then
            let* d := aip_create_agent_data_dir_if_missing uuid in
            restore_agent_data_from_tgz file d
          else ret tt
      | None => ret tt
      end)%py e st).2.1
  = agents st.1.
Proof.
  destruct file as [file |]; [| done]. destruct b; [| done].
  unfold aip_create_agent_data_dir_if_missing, restore_agent_data_from_tgz,
    record.
  run. by destruct (tarballs st.1 !! file).
Qed.

Lemma install_wheel_registers u vip path b (st : State C) uuid st2 :
  _install_wheel_to_platform u vip path b e st = (Return uuid, st2) →
  ∃ a wheel,
    tmpdir st.2 ≫= (.!! path) = Some wheel
    ∧ agents st2.1 !! uuid = Some a
    ∧ ag_package a = wheel
    ∧ ag_identity a = vip.
Proof.
  unfold _install_wheel_to_platform. intros Hrun.
  apply bind_returns in Hrun as ([[file pk] sk] & st1 & Hbefore & Hrun).
  pose proof (before_install_session_kept u st) as Hkept.
  cbv zeta in Hkept. rewrite Hbefore in Hkept. simpl in Hkept.
  apply bind_returns in Hrun as (new & st3 & Hinstall & Hrun).
  apply bind_returns in Hrun as ([] & st4 & Hafter & Hret).
  injection Hret as <- <-.
  pose proof (after_install_agents_kept file b new st3) as Hagents.
  rewrite Hafter in Hagents. simpl in Hagents.
  unfold aip_install_agent, record in Hinstall.
  revert Hinstall. run. rewrite Hkept.
  destruct (tmpdir st.2 ≫= lookup path) as [wheel |]; [| done].
  intros [= <- <-]. eexists _, wheel. rewrite Hagents. simpl.
  rewrite lookup_insert_eq. by repeat split.
Qed.

(** X8. Against any peer: when [install_agent] returns a uuid, the agent
    registered under it has as its package exactly the chunks received,
    each of which was followed by the digest of all chunks up to it, and
    its identity is the one asked for. Nothing unverified is ever
    registered. *)
Theorem installed_package_was_verified fuel filename chan vip pk sk force p
    (s : Session C) uuid st' :
  install_agent fuel filename chan vip pk sk force e (p, s)
  = (Return uuid, st') →
  ∃ chunks a,
    Forall (.≠ complete) chunks
    ∧ traffic st'.2
      = traffic s
        ++ rounds_traffic (sha512_digest e) (Fetch FETCH_SIZE) Checksum []
             chunks
        ++ [Sent (Fetch FETCH_SIZE); Received complete]
    ∧ agents st'.1 !! uuid = Some a
    ∧ ag_package a = concat chunks
    ∧ ag_identity a = vip.
Proof.
  intros Hrun.
  destruct (identity_check_outcome vip force (p, s))
    as [(u & b & Hcheck) | (x & Hcheck)].
  - destruct (fs_open e (basename filename)) as [[] | x0] eqn:Hopen;
      [| by rewrite (install_agent_unopened e _ _ _ _ _ _ _ _ _ u b x0 Hcheck
                       Hopen) in Hrun].
    rewrite (install_agent_unfold e _ _ _ _ _ _ _ _ _ u b Hcheck Hopen) in Hrun.
    cbv zeta in Hrun.
    destruct (receive_file _ _ _ _ e _) as [[[] | x |] st1] eqn:Hloop;
      try discriminate Hrun.
    apply (receive_file_returns _ _ _ _ _ _ _ (<[basename filename := []]> ∅)
             []) in Hloop
      as (chunks & Hall & Hp & Htr & Hfed & Hdir & _);
      [| done | done | by rewrite lookup_insert_eq ].
    destruct (_install_wheel_to_platform _ _ _ _ e (closed st1))
      as [[new | x |] st2] eqn:Hwheel; try discriminate Hrun.
    injection Hrun as <- <-.
    pose proof (install_wheel_session_kept e u vip (basename filename) b
                  (closed st1)) as Hkept.
    rewrite Hwheel in Hkept. simpl in Hkept.
    apply install_wheel_registers in Hwheel
      as (a & wheel & Hfile & Ha & Hpkg & Hid).
    exists chunks, a. simpl in *. rewrite Hkept. simpl.
    rewrite Hdir in Hfile. simpl in Hfile.
    rewrite insert_insert_eq, lookup_insert_eq in Hfile.
    injection Hfile as <-. by repeat split.
  - by rewrite (install_agent_refused e _ _ _ _ _ _ _ _ x Hcheck) in Hrun.
Qed.

(** X22. When [open] refuses the destination file, as it does for a
    [filename] whose base name is empty, [install_agent] ends with the
    exception of [open] before anything is asked of the peer. The
    temporary directory is removed and the platform is as it was, but
    the channel made for the transfer stays open: [channel.close] is in
    the [finally] of the inner [try], which was not entered. *)
Theorem unopened_file_leaves_channel_open fuel filename chan vip pk sk force p
    (s : Session C) u b x :
  (_identity_exists_but_no_force vip force e (p, s)).1 = Return (u, b) →
  fs_open e (basename filename) = Fail x →
  let r := install_agent fuel filename chan vip pk sk force e (p, s) in
  r.1 = Raise x
  ∧ r.2.1 = p
  ∧ channel_open r.2.2 = true
  ∧ tmpdir r.2.2 = None
  ∧ store_open r.2.2 = store_open s
  ∧ traffic r.2.2 = traffic s
  ∧ peer r.2.2 = peer s.
Proof.
  intros Hcheck Hopen r. unfold r.
  rewrite (install_agent_unopened e _ _ _ _ _ _ _ _ _ u b x Hcheck Hopen).
  by repeat split.
Qed.

Lemma identity_check_free vip force (st : State C) :
  (∀ name uuid a, vip = Some name → agents st.1 !! uuid = Some a →
     ag_identity a ≠ Some name) →
  _identity_exists_but_no_force vip force e st = (Return (None, false), st).
Proof.
  intros Hfree. unfold _identity_exists_but_no_force.
  destruct vip as [name |]; [| done].
  destruct (truthy_str name); [| done].
  destruct (identity_exists_spec name st) as (found & Hrun & Hfound).
  unfold bind. rewrite Hrun.
  destruct found as [uuid |]; [| done].
  destruct Hfound as (a & Ha & Hid). by destruct (Hfree name uuid a).
Qed.
End any_peer.

(** X9. Installing under an identity that no agent has (or under none),
    from the sender of the spec, into a destination file that opens:
    [install_agent] returns the new uuid, the registry gains this one
    agent with the artifact as its package and without keys (the
    [publickey] and [secretkey] passed to [install_agent] are not used),
    nothing is archived or restored, and the file, the channel and the
    temporary directory are released. *)
Theorem fresh_install h uuid dd fuel filename chan vip pk sk force p
    (artifact : bytes) :
  length artifact < fuel →
  (∀ j, chunk_at FETCH_SIZE j artifact ≠ complete) →
  (∀ name u a, vip = Some name → agents p !! u = Some a →
     ag_identity a ≠ Some name) →
  fs_open (sender_env h uuid dd) (basename filename) = Ok tt →
  let r := install_agent fuel filename chan vip pk sk force
             (sender_env h uuid dd)
             (p, fresh_session (sender_start artifact)) in
  r.1 = Return uuid
  ∧ (∃ name,
       agents r.2.1
       = <[uuid := {| ag_name := name; ag_identity := vip;
                      ag_tag := None; ag_priority := None;
                      ag_public := None; ag_secret := None;
                      ag_package := artifact |}]> (agents p))
  ∧ dirs r.2.1 = dirs p
  ∧ tarballs r.2.1 = tarballs p
  ∧ history r.2.1 = history p ++ [Installed uuid vip None None]
  ∧ released r.2.2
  ∧ warnings r.2.2 = []
  ∧ traffic r.2.2 = transcript fuel FETCH_SIZE h [] artifact.
Proof.
  intros Hfuel Hchunks Hfree Hopen r. unfold r.
  rewrite (install_agent_unfold _ _ _ _ _ _ _ _ _ _ None false)
    by (by rewrite identity_check_free || exact Hopen).
  cbv zeta.
  destruct (receive_from_sender h uuid dd FETCH_SIZE (basename filename)
              artifact ltac:(unfold FETCH_SIZE; lia) fuel 0 [] [] p
              (opened (basename filename) ∅
                 (set_channel_open true
                    (fresh_session (sender_start artifact))))
              (<[basename filename := []]> ∅))
    as (s' & -> & Hdir & Hfed & Htr & Hch & Hst & Hw);
    try done; [by rewrite lookup_insert_eq |].
  unfold _install_wheel_to_platform, aip_install_agent, record. run.
  rewrite Hdir. simpl. rewrite insert_insert_eq, lookup_insert_eq. simpl.
  rewrite Hw, Htr. split; [done |]. split; [by eexists |]. by repeat split.
Qed.




Lemma receive_from_feeder h chunk uuid dd n path fuel : ∀ p (s : Session feeder) t
    file0,
  chunk ≠ complete →
  peer s = {| fed := sha512 s; asked := None |} →
  store_open s = true →
  tmpdir s = Some t →
  t !! path = Some file0 →
  ∃ s',
    receive_file fuel (Fetch n) Checksum path (feeder_env h chunk uuid dd)
      (p, s)
    = (OutOfFuel, (p, s'))
    ∧ tmpdir s' = Some (<[path := file0 ++ concat (replicate fuel chunk)]> t)
    ∧ length (traffic s') = length (traffic s) + 4 * fuel
    ∧ store_open s' = true.
Proof.
  induction fuel as [| fuel IH]; intros p s t file0 Hchunk Hpeer Hopen Htmp
    Hfile.
  - exists s. split; [done |]. simpl.
    rewrite app_nil_r, insert_id by done. repeat split; [done | lia | done].
  - rewrite (turn_chunk (feeder_env h chunk uuid dd) (Fetch n) Checksum path
               fuel (p, s) {| fed := sha512 s ++ chunk; asked := None |} chunk
               {| fed := sha512 s ++ chunk; asked := None |}
               (h (sha512 s ++ chunk))); try done;
      [| by simpl; rewrite Hpeer].
    simpl. rewrite bool_decide_eq_true_2 by done.
    destruct (IH p (round_done (Fetch n) Checksum path chunk
                      (h (sha512 s ++ chunk))
                      {| fed := sha512 s ++ chunk; asked := None |} (p, s)).2
                (<[path := file0 ++ chunk]> t) (file0 ++ chunk))
      as (s' & Hrun & Hdir & Hlen & Hst); try done.
    { simpl. by rewrite Htmp; simpl; rewrite Hfile. }
    { by rewrite lookup_insert_eq. }
    exists s'. split; [exact Hrun |]. rewrite Hdir, Hlen.
    cbn [round_done snd traffic replicate concat].
    rewrite insert_insert_eq, length_app, app_assoc. simpl.
    split; [done |]. split; [lia | done].
Qed.

(** X20. The transfer has no limit of its own. Against a peer that answers
    every fetch with a chunk and every checksum request with the right
    digest, the loop of [install_agent], entered once the destination
    file has opened, is still running after any number of turns: the file grows by one chunk a turn, four messages are
    exchanged a turn, the file is open and nothing has been registered. *)
Theorem transfer_has_no_size_limit h chunk uuid dd fuel filename chan vip pk
    sk force p u b :
  chunk ≠ complete →
  (∀ s : Session feeder,
     (_identity_exists_but_no_force vip force (feeder_env h chunk uuid dd)
        (p, s)).1
     = Return (u, b)) →
  fs_open (feeder_env h chunk uuid dd) (basename filename) = Ok tt →
  let r := install_agent fuel filename chan vip pk sk force
             (feeder_env h chunk uuid dd) (p, fresh_session feeder_start) in
  r.1 = OutOfFuel
  ∧ tmpdir r.2.2 ≫= (.!! basename filename)
    = Some (concat (replicate fuel chunk))
  ∧ length (traffic r.2.2) = 4 * fuel
  ∧ store_open r.2.2 = true
  ∧ r.2.1 = p.
Proof.
  intros Hchunk Hcheck Hopen r. unfold r.
  rewrite (install_agent_unfold _ _ _ _ _ _ _ _ _ _ u b)
    by (exact Hopen || apply Hcheck).
  cbv zeta.
  destruct (receive_from_feeder h chunk uuid dd FETCH_SIZE (basename filename)
              fuel p
              (opened (basename filename) ∅
                 (set_channel_open true (fresh_session feeder_start)))
              (<[basename filename := []]> ∅) [])
    as (s' & -> & Hdir & Hlen & Hst); try done;
    [by rewrite lookup_insert_eq |].
  simpl. rewrite Hdir. simpl.
  rewrite insert_insert_eq, lookup_insert_eq.
  repeat split; done.
Qed.

(** X21. The old agent is removed before the new one is installed, and
    nothing undoes the removal: when [aip.install_agent] raises (here for
    a package file that is not there), [_install_wheel_to_platform] lets
    the exception through with the old agent out of the registry and its
    data directory gone. What is left of it is the archive of its data
    directory. *)
Theorem failed_install_loses_old_agent {C} (e : Env C) old vip path p
    (s : Session C) a :
  truthy_str old = true →
  truthy_str (agent_data_dir e old) = true →
  agents p !! old = Some a →
  tmpdir s ≫= (.!! path) = None →
  let archive := "/tmp/" +:+ old +:+ ".tar.gz" in
  let old_dir := agent_data_dir e old in
  let r := _install_wheel_to_platform (Some old) vip path true e (p, s) in
  r.1 = Raise (RemoteError "FileNotFoundError")
  ∧ agents r.2.1 = delete old (agents p)
  ∧ dirs r.2.1 !! old_dir = None
  ∧ tarballs r.2.1 !! archive = Some (default ∅ (dirs p !! old_dir))
  ∧ history r.2.1
    = history p
      ++ [Archived archive old_dir; KeystoreRead old;
          RouterTold "agentstop" [ag_identity a]; Removed old].
Proof.
  intros Hold Hdir Hagent Hwheel archive old_dir r.
  unfold r, _install_wheel_to_platform.
  unfold aip_create_agent_data_dir_if_missing, backup_agent_data,
    aip_get_agent_keystore, remove_agent, aip_remove_agent,
    aip_install_agent, restore_agent_data_from_tgz, record, keystore_of,
    aip_agent_identity.
  rewrite Hold. run. rewrite Hdir. simpl. fold old_dir.
  assert ((match dirs p !! old_dir with
           | Some _ => dirs p
           | None => <[old_dir := ∅]> (dirs p)
           end) !! old_dir = Some (default ∅ (dirs p !! old_dir))) as ->.
  { destruct (dirs p !! old_dir) eqn:Hd; simpl; [done |].
    by rewrite lookup_insert_eq. }
  simpl. rewrite Hagent. simpl. rewrite Hwheel. simpl.
  fold archive. rewrite <- !app_assoc. simpl.
  split; [reflexivity |]. split; [reflexivity |].
  split; [apply lookup_delete_eq |].
  split; [by rewrite lookup_insert_eq | reflexivity].
Qed.

Lemma transfer_returns_only_verified_witness :
  let s0 := set_tmpdir (λ _, Some ∅)
              (fresh_session (sender_start ["w"; "h"; "e"; "e"; "l"]%byte)) in
  let r := pull_artifact 6 (Fetch 2) Checksum "agent.whl"
             (sender_env toy_hash "u-2" data_dir_of) (nowhere, s0) in
  ∃ chunks,
    Forall (.≠ complete) chunks
    ∧ traffic r.2.2
      = traffic s0 ++ rounds_traffic toy_hash (Fetch 2) Checksum [] chunks
        ++ [Sent (Fetch 2); Received complete]
    ∧ tmpdir r.2.2 = Some (<["agent.whl" := concat chunks]> ∅)
    ∧ sha512 r.2.2 = concat chunks
    ∧ store_open r.2.2 = false
    ∧ channel_open r.2.2 = false
    ∧ r.2.1 = nowhere.
Proof.
  intros s0 r.
  apply (transfer_returns_only_verified
           (sender_env toy_hash "u-2" data_dir_of) (Fetch 2) Checksum
           "agent.whl" 6 nowhere s0 ∅ r.2).
  - reflexivity.
  - vm_compute. reflexivity.
Defined.

Lemma installed_package_was_verified_witness :
  let s0 := fresh_session (sender_start ["n"; "e"; "w"]%byte) in
  let r := install_agent 5 "dist/agent.whl" "chan" (Some "listener") None
             None true (sender_env toy_hash "new-2" data_dir_of)
             (lived_in, s0) in
  ∃ chunks a,
    Forall (.≠ complete) chunks
    ∧ traffic r.2.2
      = traffic s0
        ++ rounds_traffic toy_hash (Fetch FETCH_SIZE) Checksum [] chunks
        ++ [Sent (Fetch FETCH_SIZE); Received complete]
    ∧ agents r.2.1 !! "new-2" = Some a
    ∧ ag_package a = concat chunks
    ∧ ag_identity a = Some "listener".
Proof.
  intros s0 r.
  apply (installed_package_was_verified
           (sender_env toy_hash "new-2" data_dir_of) 5 "dist/agent.whl"
           "chan" (Some "listener") None None true lived_in s0 "new-2" r.2).
  vm_compute. reflexivity.
Defined.

Lemma unopened_file_leaves_channel_open_witness :
  let r := install_agent 5 "dist/" "chan" None None None false
             (sender_env toy_hash "new-2" data_dir_of)
             (lived_in, fresh_session (sender_start ["n"; "e"; "w"]%byte)) in
  r.1 = Raise (RemoteError "IsADirectoryError")
  ∧ r.2.1 = lived_in
  ∧ channel_open r.2.2 = true
  ∧ tmpdir r.2.2 = None
  ∧ traffic r.2.2 = [].
Proof.
  intros r.
  destruct (unopened_file_leaves_channel_open
              (sender_env toy_hash "new-2" data_dir_of) 5 "dist/" "chan" None
              None None false lived_in
              (fresh_session (sender_start ["n"; "e"; "w"]%byte)) None false
              (RemoteError "IsADirectoryError"))
    as (Hraise & Hsame & Hchan & Htmp & _ & Htraffic & _).
  - reflexivity.
  - reflexivity.
  - split; [exact Hraise |]. split; [exact Hsame |].
    split; [exact Hchan |]. split; [exact Htmp | exact Htraffic].
Defined.

Lemma fresh_install_witness :
  let r := install_agent 5 "dist/agent.whl" "chan" (Some "forwarder")
             (Some "ignored-pub") (Some "ignored-sec") false
             (sender_env toy_hash "new-2" data_dir_of)
             (lived_in, fresh_session (sender_start ["n"; "e"; "w"]%byte)) in
  r.1 = Return "new-2"
  ∧ (∃ name,
       agents r.2.1
       = <["new-2" := {| ag_name := name;
                         ag_identity := Some "forwarder";
                         ag_tag := None; ag_priority := None;
                         ag_public := None; ag_secret := None;
                         ag_package := ["n"; "e"; "w"]%byte |}]>
           (agents lived_in))
  ∧ history r.2.1 = [Installed "new-2" (Some "forwarder") None None]
  ∧ released r.2.2.
Proof.
  intros r.
  destruct (fresh_install toy_hash "new-2" data_dir_of 5 "dist/agent.whl"
              "chan" (Some "forwarder") (Some "ignored-pub")
              (Some "ignored-sec") false lived_in ["n"; "e"; "w"]%byte)
    as (Hret & Hagents & _ & _ & Hhist & Hrel & _).
  - simpl. lia.
  - intros [| [| j]]; [done | done |]. unfold chunk_at.
    rewrite drop_ge by (simpl; unfold FETCH_SIZE; lia). done.
  - intros name u a [= <-]. unfold lived_in. simpl.
    intros [<- <-]%lookup_singleton_Some. done.
  - reflexivity.
  - split; [exact Hret |]. split; [exact Hagents |].
    split; [exact Hhist | exact Hrel].
Defined.


Lemma transfer_has_no_size_limit_witness :
  let r := install_agent 3 "dist/agent.whl" "chan" None None None false
             (feeder_env toy_hash ["a"; "b"]%byte "new-2" data_dir_of)
             (lived_in, fresh_session feeder_start) in
  r.1 = OutOfFuel
  ∧ tmpdir r.2.2 ≫= (.!! "agent.whl")
    = Some ["a"; "b"; "a"; "b"; "a"; "b"]%byte
  ∧ length (traffic r.2.2) = 12
  ∧ r.2.1 = lived_in.
Proof.
  intros r.
  destruct (transfer_has_no_size_limit toy_hash ["a"; "b"]%byte "new-2"
              data_dir_of 3 "dist/agent.whl" "chan" None None None false
              lived_in None false)
    as (Hret & Hfile & Hlen & _ & Hp).
  - discriminate.
  - reflexivity.
  - reflexivity.
  - split; [exact Hret |]. split; [exact Hfile |].
    split; [exact Hlen | exact Hp].
Defined.

Lemma failed_install_loses_old_agent_witness :
  let r := _install_wheel_to_platform (Some "old-1") (Some "listener")
             "agent.whl" true
             (sender_env toy_hash "new-2" data_dir_of)
             (lived_in, set_tmpdir (λ _, Some ∅)
                          (fresh_session (sender_start []))) in
  r.1 = Raise (RemoteError "FileNotFoundError")
  ∧ agents r.2.1 = delete "old-1" (agents lived_in)
  ∧ tarballs r.2.1 !! "/tmp/old-1.tar.gz"
    = Some {["state.json" := ["{"; "}"]%byte]}.
Proof.
  intros r.
  destruct (failed_install_loses_old_agent
              (sender_env toy_hash "new-2" data_dir_of) "old-1"
              (Some "listener") "agent.whl" lived_in
              (set_tmpdir (λ _, Some ∅) (fresh_session (sender_start [])))
              listener)
    as (Hret & Hagents & _ & Harchive & _).
  - reflexivity.
  - reflexivity.
  - reflexivity.
  - reflexivity.
  - split; [exact Hret |]. split; [exact Hagents | exact Harchive].
Defined.
End InstallerIntegrity.

(** ** Properties of the command line *)

Module CliProofs.
Import Installer Cli.

Lemma is_wild_spec c : is_wild c = true ↔ c = "*"%char ∨ c = "?"%char.
Proof.
  unfold is_wild. rewrite orb_true_iff, !Ascii.eqb_eq. done.
Qed.

Lemma wild_free_app a b : wild_free (a +:+ b) = wild_free a && wild_free b.
Proof.
  induction a as [| c a IH]; simpl; [done |]. by rewrite IH, andb_assoc.
Qed.

Lemma re_escape_app a b : re_escape (a +:+ b) = re_escape a ++ re_escape b.
Proof. induction a as [| c a IH]; simpl; [done |]. by rewrite IH. Qed.

Lemma piece_wild_free s : wild_free s = true → piece s = re_escape s.
Proof.
  intros Hs. unfold piece.
  repeat case_bool_decide; try done; subst; try discriminate Hs.
  set_unfold. by destruct_or!; subst.
Qed.

Lemma piece_wild c :
  is_wild c = true →
  piece (String c EmptyString)
  = [if Ascii.eqb c "*" then AnyString
     else if Ascii.eqb c "?" then AnyChar else Lit c].
Proof. by intros [-> | ->]%is_wild_spec. Qed.

Lemma glob_tokens_lit c :
  is_wild c = false →
  (if Ascii.eqb c "*" then AnyString
   else if Ascii.eqb c "?" then AnyChar else Lit c) = Lit c.
Proof.
  unfold is_wild. intros [-> ->]%orb_false_iff. done.
Qed.

Lemma split_tokens p : ∀ acc,
  wild_free acc = true →
  concat (piece <$> re_split_from acc p) = re_escape acc ++ glob_tokens p.
Proof.
  induction p as [| c r IH]; intros acc Hacc; simpl.
  - by rewrite piece_wild_free, !app_nil_r.
  - destruct (is_wild c) eqn:Hc.
    + simpl. rewrite piece_wild_free, piece_wild, IH by done. done.
    + rewrite IH by (by rewrite wild_free_app, Hacc; simpl; rewrite Hc).
      rewrite re_escape_app, glob_tokens_lit, <- app_assoc by done. done.
Qed.

Lemma split_length p : ∀ acc,
  length (re_split_from acc p) = 1 ↔ wild_free p = true.
Proof.
  induction p as [| c r IH]; intros acc; simpl; [done |].
  destruct (is_wild c); simpl; [split; [lia | done] | apply IH].
Qed.

Lemma glob_tokens_wild_free p :
  wild_free p = true → glob_tokens p = re_escape p.
Proof.
  induction p as [| c r IH]; simpl; [done |].
  intros [Hc%negb_true_iff Hr]%andb_true_iff.
  by rewrite glob_tokens_lit, IH.
Qed.

Lemma escape_tokens (pattern : string) :
  escape pattern = (glob_tokens pattern, negb (wild_free pattern)).
Proof.
  unfold escape, re_split. case_bool_decide as Hlen.
  - apply split_length in Hlen. by rewrite Hlen, glob_tokens_wild_free.
  - fold piece. rewrite split_tokens by done. simpl. f_equal.
    destruct (wild_free pattern) eqn:Hfree; [| done].
    by apply (split_length _ EmptyString) in Hfree.
Qed.

Lemma wild_free_spec p :
  wild_free p = false
  ↔ ∃ c, In c (String.list_ascii_of_string p) ∧ (c = "*"%char ∨ c = "?"%char).
Proof.
  induction p as [| c p IH]; simpl.
  - split; [done | by intros (? & [] & _)].
  - rewrite andb_false_iff, negb_false_iff, is_wild_spec, IH. split.
    + intros [Hc | (d & Hd & Hwild)]; [by exists c; auto |].
      exists d. auto.
    + intros (d & [<- | Hd] & Hwild); [by left |]. right. by exists d.
Qed.

Lemma glob_tokens_literals p c :
  Lit c ∈ glob_tokens p → is_wild c = false.
Proof.
  induction p as [| d p IH]; simpl; [by intros ?%elem_of_nil |].
  intros [Hd | Hin]%elem_of_cons; [| by apply IH].
  unfold is_wild.
  destruct (Ascii.eqb_spec d "*"); [done |].
  destruct (Ascii.eqb_spec d "?"); [done |].
  injection Hd as ->. apply orb_false_iff. by rewrite !Ascii.eqb_neq.
Qed.

Lemma glob_tokens_length p : length (glob_tokens p) = String.length p.
Proof. induction p as [| c p IH]; simpl; [done |]. by rewrite IH. Qed.

(** X11. [escape] says that the pattern has wildcards exactly when a star or
    a question mark occurs in it; no star and no question mark of the
    pattern is ever taken literally (the clause for a backslash before a
    wildcard is never reached), and every character of the pattern
    gives one token. *)
Theorem wildcards_cannot_be_escaped (pattern : string) :
  ((escape pattern).2 = true
   ↔ ∃ c, In c (String.list_ascii_of_string pattern)
          ∧ (c = "*"%char ∨ c = "?"%char))
  ∧ (∀ c, Lit c ∈ (escape pattern).1 → c ≠ "*"%char ∧ c ≠ "?"%char)
  ∧ length (escape pattern).1 = String.length pattern.
Proof.
  rewrite escape_tokens. simpl. split; [| split].
  - by rewrite negb_true_iff, wild_free_spec.
  - intros c Hc%glob_tokens_literals.
    split; intros ->; discriminate Hc.
  - apply glob_tokens_length.
Qed.

Lemma re_match_star r s :
  re_match (AnyString :: r) s
  = re_match r s
    || match s with
       | String d s' => negb (Ascii.eqb d newline) && re_match (AnyString :: r) s'
       | EmptyString => false
       end.
Proof. by destruct s. Qed.

Lemma eqb_newline d : negb (Ascii.eqb d newline) = true ↔ d ≠ newline.
Proof. by rewrite negb_true_iff, Ascii.eqb_neq. Qed.

Lemma re_match_glob p : ∀ r s,
  re_match (glob_tokens p ++ r) s = true
  ↔ glob (fun s => re_match r s = true) p s.
Proof.
  induction p as [| c p IH]; intros r s.
  - simpl. split; [by constructor | by inversion 1].
  - split.
    + cbn [glob_tokens app].
      destruct (Ascii.eqb_spec c "*") as [-> | Hstar].
      * induction s as [| d s IHs]; rewrite re_match_star.
        -- rewrite orb_false_r. intros ?%IH. by constructor.
        -- intros [?%IH | [?%eqb_newline ?]%andb_true_iff]%orb_true_iff.
           ++ by constructor.
           ++ apply glob_star_more; [done | by apply IHs].
      * destruct (Ascii.eqb_spec c "?") as [-> | Hone].
        -- destruct s as [| d s]; simpl; [done |].
           intros [?%eqb_newline ?%IH]%andb_true_iff. by constructor.
        -- destruct s as [| d s]; simpl; [done |].
           intros [->%Ascii.eqb_eq ?%IH]%andb_true_iff. constructor; [| done].
           unfold is_wild. apply orb_false_iff.
           by rewrite !Ascii.eqb_neq.
    + remember (String c p) as q eqn:Hq. intros Hglob. revert Hq.
      induction Hglob as [s Hs | q s Hglob _ | q d s Hd Hglob IHg
                         | q d s Hd Hglob _ | d q s Hd Hglob _];
        intros Hq; simplify_eq; cbn [glob_tokens app].
      * change (Ascii.eqb "*" "*") with true. cbv iota.
        rewrite re_match_star. apply orb_true_iff. left. by apply IH.
      * specialize (IHg eq_refl). cbn [glob_tokens app] in IHg.
        change (Ascii.eqb "*" "*") with true in *. cbv iota in *.
        rewrite re_match_star. apply orb_true_iff. right.
        apply andb_true_iff. by rewrite eqb_newline.
      * simpl. apply andb_true_iff. rewrite eqb_newline. split; [done |].
        by apply IH.
      * rewrite glob_tokens_lit by done. simpl.
        rewrite Ascii.eqb_refl. by apply IH.
Qed.

Lemma glob_impl (P Q : string → Prop) p s :
  (∀ s, P s → Q s) → glob P p s → glob Q p s.
Proof. intros HPQ. induction 1; by constructor; auto. Qed.

(** X12. What the expression built by [escape] matches: a star stands for
    any characters and a question mark for any one character, newlines
    apart, every other character for itself. As used without options the
    match may stop anywhere in the string; with the dollar sign added it
    reaches the end of the string, or the newline that ends it. *)
Theorem pattern_semantics (pattern s : string) :
  (re_match (escape pattern).1 s = true ↔ glob anything pattern s)
  ∧ (re_match ((escape pattern).1 ++ [EndOfString]) s = true
     ↔ glob at_end pattern s).
Proof.
  rewrite escape_tokens. simpl. split.
  - rewrite <- (app_nil_r (glob_tokens pattern)), re_match_glob.
    split; apply glob_impl; done.
  - rewrite re_match_glob. split; apply glob_impl; intros t; simpl;
      unfold at_end; rewrite andb_true_r, orb_true_iff, !bool_decide_eq_true;
      done.
Qed.

Lemma re_match_literal p : ∀ s,
  re_match (re_escape p) s = String.prefix p s.
Proof.
  induction p as [| c p IH]; intros [| d s]; simpl; try done.
  destruct (Ascii.ascii_dec c d) as [-> | Hne].
  - by rewrite Ascii.eqb_refl, IH.
  - by apply Ascii.eqb_neq in Hne as ->.
Qed.

Lemma re_match_literal_end p : ∀ s,
  re_match (re_escape p ++ [EndOfString]) s = true
  ↔ s = p ∨ s = p +:+ String newline EmptyString.
Proof.
  induction p as [| c p IH]; intros s; simpl.
  - rewrite andb_true_r, orb_true_iff, !bool_decide_eq_true. done.
  - destruct s as [| d s]; [by split; [| intros []] |].
    rewrite andb_true_iff, Ascii.eqb_eq, IH. split.
    + intros [-> [-> | ->]]; auto.
    + intros [[= -> ->] | [= -> ->]]; auto.
Qed.

(** X13. A pattern without wildcards matches, as used without options, the
    strings that begin with it; with the dollar sign added it matches the
    pattern itself and the pattern followed by one newline. *)
Theorem literal_pattern_matches (pattern s : string) :
  (∀ c, In c (String.list_ascii_of_string pattern) →
     c ≠ "*"%char ∧ c ≠ "?"%char) →
  (re_match (escape pattern).1 s = true ↔ String.prefix pattern s = true)
  ∧ (re_match ((escape pattern).1 ++ [EndOfString]) s = true
     ↔ s = pattern ∨ s = pattern +:+ String newline EmptyString).
Proof.
  intros Hfree.
  assert (wild_free pattern = true) as Hwf.
  { destruct (wild_free pattern) eqn:Hwf; [done |].
    apply wild_free_spec in Hwf as (c & Hin & Hc).
    destruct (Hfree c Hin) as [? ?]. by destruct Hc. }
  rewrite escape_tokens. simpl. rewrite glob_tokens_wild_free by done.
  split; [by rewrite re_match_literal | apply re_match_literal_end].
Qed.

Lemma filter_length_zero {A} (f : A → bool) (l : list A) :
  length (List.filter f l) = 0 ↔ ∀ b, b ∈ l → f b = false.
Proof.
  induction l as [| x l IH]; simpl.
  - split; [by intros _ b ?%elem_of_nil | done].
  - destruct (f x) eqn:Hx; simpl.
    + split; [done |]. intros Hall. specialize (Hall x).
      rewrite Hx in Hall. by discriminate Hall; left.
    + rewrite IH. split.
      * intros Hall b [-> | Hb]%elem_of_cons; auto.
      * intros Hall b Hb. apply Hall. by right.
Qed.

Lemma filter_length_one {A} (f : A → bool) (l : list A) :
  NoDup l →
  length (List.filter f l) = 1
  ↔ ∃ a, a ∈ l ∧ f a = true ∧ ∀ b, b ∈ l → f b = true → b = a.
Proof.
  induction 1 as [| x l Hx Hnd IH]; simpl.
  - split; [done | by intros (a & ?%elem_of_nil & _)].
  - destruct (f x) eqn:Hfx; simpl.
    + split.
      * intros [= Hlen]. rewrite filter_length_zero in Hlen.
        exists x. split; [by left |]. split; [done |].
        intros b [-> | Hb]%elem_of_cons Hfb; [done |].
        apply Hlen in Hb. congruence.
      * intros (a & Ha & Hfa & Huniq). f_equal.
        apply filter_length_zero. intros b Hb.
        destruct (f b) eqn:Hfb; [| done].
        assert (b = a) as -> by (apply Huniq; [by right | done]).
        assert (x = a) as -> by (apply Huniq; [by left | done]).
        done.
    + rewrite IH. split.
      * intros (a & Ha & Hfa & Huniq). exists a.
        split; [by right |]. split; [done |].
        intros b [-> | Hb]%elem_of_cons Hfb; [congruence | auto].
      * intros (a & [-> | Ha]%elem_of_cons & Hfa & Huniq); [congruence |].
        exists a. split; [done |]. split; [done |].
        intros b Hb. apply Huniq. by right.
Qed.

Lemma elem_of_filter_set (f : Agent → bool) (l : list Agent) a :
  a ∈ (list_to_set (List.filter f l) : gset Agent) ↔ a ∈ l ∧ f a = true.
Proof.
  rewrite elem_of_list_to_set, list_elem_of_In, List.filter_In,
    <- list_elem_of_In. done.
Qed.

Lemma filter_agents_each agents patterns opts :
  filter_agents agents patterns opts
  = (fun pattern => (pattern, filter_agent agents pattern opts)) <$> patterns.
Proof.
  unfold filter_agent, filter_agents. apply list_fmap_ext. intros _ p _.
  simpl. by destruct (escape p).
Qed.

(** X14. Without [--name], [--tag] and [--uuid], a pattern selects the one
    agent whose uuid it matches; when it matches the uuids of several
    agents it selects nothing, whatever the names are; when it matches no
    uuid it selects every agent whose name it matches. *)
Theorem selection_without_options agents patterns opts pattern result a :
  by_uuid opts = false → by_name opts = false → by_tag opts = false →
  NoDup agents →
  (pattern, result) ∈ filter_agents agents patterns opts →
  a ∈ result
  ↔ a ∈ agents
    ∧ ((glob anything pattern (uuid a)
        ∧ ∀ b, b ∈ agents → glob anything pattern (uuid b) → b = a)
       ∨ ((∀ b, b ∈ agents → ¬ glob anything pattern (uuid b))
          ∧ glob anything pattern (name a))).
Proof.
  intros Hu Hn Ht Hnd Hin. unfold filter_agents in Hin.
  apply list_elem_of_fmap in Hin as (p & Heq & _).
  rewrite Hu, Hn, Ht, escape_tokens in Heq. simpl in Heq.
  injection Heq as <- ->.
  assert (∀ s, re_match (glob_tokens pattern) s = true
               ↔ glob anything pattern s) as Hsem.
  { intros s. rewrite <- (app_nil_r (glob_tokens pattern)), re_match_glob.
    split; by apply glob_impl. }
  case_bool_decide as Hone.
  - apply filter_length_one in Hone as (a0 & Ha0 & Hfa0 & Huniq); [| done].
    rewrite union_empty_l_L, elem_of_filter_set. split.
    + intros [Ha Hfa]. split; [done |]. left.
      split; [by apply Hsem |]. intros b Hb Hfb%Hsem.
      rewrite (Huniq a), (Huniq b); done.
    + intros [Ha [[Hfa _] | [Hnone _]]].
      * split; [done | by apply Hsem].
      * destruct (Hnone a0 Ha0). by apply Hsem.
  - case_bool_decide as Hzero.
    + rewrite filter_length_zero in Hzero.
      case_bool_decide as Hnames.
      * rewrite union_empty_l_L, elem_of_filter_set. split.
        -- intros [Ha Hfa]. split; [done |]. right.
           split; [| by apply Hsem]. intros b Hb Hfb%Hsem.
           rewrite (Hzero b Hb) in Hfb. done.
        -- intros [Ha [[Hfa _] | [_ Hfa]]].
           ++ apply Hsem in Hfa. by rewrite (Hzero a Ha) in Hfa.
           ++ split; [done | by apply Hsem].
      * split; [by intros ?%elem_of_empty |].
        intros [Ha [[Hfa _] | [_ Hfa]]].
        -- apply Hsem in Hfa. by rewrite (Hzero a Ha) in Hfa.
        -- destruct Hnames.
           assert (length (List.filter
                     (fun agent => re_match (glob_tokens pattern) (name agent))
                     agents) ≠ 0); [| lia].
           rewrite filter_length_zero. intros Hall.
           apply Hsem in Hfa. by rewrite (Hall a Ha) in Hfa.
    + split; [by intros ?%elem_of_empty |].
      intros [Ha [[Hfa Huniq] | [Hnone _]]].
      * destruct Hone. apply filter_length_one; [done |].
        exists a. split; [done |]. split; [by apply Hsem |].
        intros b Hb Hfb. apply Huniq; [done | by apply Hsem].
      * destruct Hzero. apply filter_length_zero. intros b Hb.
        destruct (re_match _ (uuid b)) eqn:Hfb; [| done].
        destruct (Hnone b Hb). by apply Hsem.
Qed.

(** X15. With [--name], [--tag] or [--uuid], a pattern selects the agents of
    which one of the chosen fields matches the pattern in full (an agent
    without tag has the empty tag). *)
Theorem selection_with_options agents patterns opts pattern result a :
  by_uuid opts || by_name opts || by_tag opts = true →
  (pattern, result) ∈ filter_agents agents patterns opts →
  a ∈ result
  ↔ a ∈ agents
    ∧ ((by_uuid opts = true ∧ glob at_end pattern (uuid a))
       ∨ (by_name opts = true ∧ glob at_end pattern (name a))
       ∨ (by_tag opts = true
          ∧ glob at_end pattern (default EmptyString (tag a)))).
Proof.
  intros Hopts Hin. unfold filter_agents in Hin.
  apply list_elem_of_fmap in Hin as (p & Heq & _).
  rewrite Hopts, escape_tokens in Heq. simpl in Heq.
  injection Heq as <- ->.
  assert (∀ s, re_match (glob_tokens pattern ++ [EndOfString]) s = true
               ↔ glob at_end pattern s) as Hsem.
  { intros s. rewrite re_match_glob. split; apply glob_impl; intros t; simpl;
      unfold at_end; rewrite andb_true_r, orb_true_iff, !bool_decide_eq_true;
      done. }
  destruct (by_uuid opts), (by_name opts), (by_tag opts);
    rewrite ?elem_of_union, ?elem_of_filter_set, ?Hsem;
    try discriminate Hopts; rewrite ?elem_of_empty; clear;
    intuition discriminate.
Qed.

Lemma str_take_common n : ∀ a b,
  str_take n a = str_take n b → a = b ∨ n ≤ String.length (commonprefix a b).
Proof.
  induction n as [| n IH]; intros a b Heq; [right; lia |].
  destruct a as [| x a], b as [| y b]; simpl in *; try done; [by left |].
  injection Heq as -> Heq. rewrite Ascii.eqb_refl. simpl.
  destruct (IH _ _ Heq) as [-> | Hle]; [by left | right; lia].
Qed.

Lemma str_take_commonprefix a : ∀ b,
  str_take (String.length (commonprefix a b)) a = commonprefix a b
  ∧ str_take (String.length (commonprefix a b)) b = commonprefix a b.
Proof.
  induction a as [| x a IH]; intros [| y b]; simpl; try done.
  destruct (Ascii.eqb_spec x y) as [-> | Hne]; [| done].
  simpl. destruct (IH b) as [-> ->]. done.
Qed.

Lemma inner_loop_max i (agent1 : Agent) (l : list (nat * Agent)) : ∀ n0,
  let r :=
    foldl
      (fun n '(j, agent2) =>
         if bool_decide (i = j) then n
         else
           let common_len :=
             String.length (commonprefix (uuid agent1) (uuid agent2)) in
           if bool_decide (n < common_len) then common_len else n)
      n0 l in
  n0 ≤ r
  ∧ (∀ j agent2, (j, agent2) ∈ l → i ≠ j → common_len agent1 agent2 ≤ r)
  ∧ (r = n0
     ∨ ∃ j agent2, (j, agent2) ∈ l ∧ i ≠ j ∧ r = common_len agent1 agent2).
Proof.
  induction l as [| [j agent2] l IH]; intros n0; simpl.
  - split; [done |]. split; [by intros ?? ?%elem_of_nil | by left].
  - match goal with |- context [foldl ?f ?n l] =>
      destruct (IH n) as (Hle & Hall & Hex); set (r := foldl f n l) in *
    end.
    fold (common_len agent1 agent2) in *.
    repeat case_bool_decide; subst.
    + split; [done |]. split; [| destruct Hex as [? | (k & b & ? & ? & ?)]].
      * intros k b [[= -> ->] | Hin]%elem_of_cons Hne;
          [by destruct Hne | by apply (Hall k b)].
      * by left.
      * right. exists k, b. split; [by right | done].
    + split; [lia |]. split; [| destruct Hex as [? | (k & b & ? & ? & ?)]].
      * intros k b [[= -> ->] | Hin]%elem_of_cons Hne; [done |].
        specialize (Hall k b Hin Hne). lia.
      * right. exists j, agent2. split; [by left | done].
      * right. exists k, b. split; [by right | done].
    + split; [done |]. split; [| destruct Hex as [? | (k & b & ? & ? & ?)]].
      * intros k b [[= -> ->] | Hin]%elem_of_cons Hne;
          [lia | by apply (Hall k b)].
      * by left.
      * right. exists k, b. split; [by right | done].
Qed.

Lemma outer_loop_max (l2 l1 : list (nat * Agent)) : ∀ n0,
  let r :=
    foldl
      (fun n '(i, agent1) =>
         foldl
           (fun n '(j, agent2) =>
              if bool_decide (i = j) then n
              else
                let common_len :=
                  String.length (commonprefix (uuid agent1) (uuid agent2)) in
                if bool_decide (n < common_len) then common_len else n)
           n l2)
      n0 l1 in
  n0 ≤ r
  ∧ (∀ i agent1 j agent2,
       (i, agent1) ∈ l1 → (j, agent2) ∈ l2 → i ≠ j →
       common_len agent1 agent2 ≤ r)
  ∧ (r = n0
     ∨ ∃ i agent1 j agent2,
         (i, agent1) ∈ l1 ∧ (j, agent2) ∈ l2 ∧ i ≠ j
         ∧ r = common_len agent1 agent2).
Proof.
  induction l1 as [| [i agent1] l1 IH]; intros n0; simpl.
  - split; [done |]. split; [by intros ???? ?%elem_of_nil | by left].
  - destruct (inner_loop_max i agent1 l2 n0) as (Hle1 & Hall1 & Hex1).
    match goal with |- context [foldl ?f (foldl ?g n0 l2) l1] =>
      set (n1 := foldl g n0 l2) in *;
      destruct (IH n1) as (Hle & Hall & Hex); set (r := foldl f n1 l1) in *
    end.
    split; [lia |]. split.
    + intros k a j b [[= -> ->] | Hin]%elem_of_cons Hj Hne.
      * specialize (Hall1 j b Hj Hne). lia.
      * eauto.
    + destruct Hex as [Hr | (k & a & j & b & ? & ? & ? & ?)].
      * destruct Hex1 as [Hn1 | (j & b & ? & ? & ?)].
        -- left. lia.
        -- right. exists i, agent1, j, b. split; [by left |].
           repeat split; [done | done | lia].
      * right. exists k, a, j, b. split; [by right | done].
Qed.

Lemma elem_of_indexed (agents : list Agent) i a :
  (i, a) ∈ imap (fun i a => (i, a)) agents ↔ agents !! i = Some a.
Proof.
  rewrite elem_of_lookup_imap. split.
  - by intros (j & b & [= -> ->] & Hb).
  - intros Ha. by exists i, a.
Qed.

(** X16. Cut to [_calc_min_uuid_length] characters or more, the uuids of
    two agents are different whenever the uuids are; and the length is
    the least such: when it is more than 1, two agents of the list agree
    on one character less. *)
Theorem short_uuids_stay_distinct (agents : list Agent) :
  (∀ n i j a b,
     _calc_min_uuid_length agents ≤ n →
     agents !! i = Some a → agents !! j = Some b → i ≠ j →
     uuid a ≠ uuid b →
     str_take n (uuid a) ≠ str_take n (uuid b))
  ∧ (1 < _calc_min_uuid_length agents →
     ∃ i j a b,
       agents !! i = Some a ∧ agents !! j = Some b ∧ i ≠ j
       ∧ str_take (_calc_min_uuid_length agents - 1) (uuid a)
         = str_take (_calc_min_uuid_length agents - 1) (uuid b)).
Proof.
  unfold _calc_min_uuid_length.
  destruct (outer_loop_max (imap (fun i a => (i, a)) agents)
              (imap (fun i a => (i, a)) agents) 0) as (_ & Hall & Hex).
  match goal with |- context [foldl ?f 0 ?l + 1] =>
    set (r := foldl f 0 l) in *
  end.
  split.
  - intros n i j a b Hn Ha%elem_of_indexed Hb%elem_of_indexed Hne Huuid Heq.
    specialize (Hall i a j b Ha Hb Hne). unfold common_len in Hall.
    destruct (str_take_common _ _ _ Heq); [done | lia].
  - intros Hr. destruct Hex as [? | (i & a & j & b & Ha & Hb & Hne & Hcl)];
      [lia |].
    exists i, j, a, b. rewrite <- !elem_of_indexed. repeat split; try done.
    replace (r + 1 - 1) with r by lia. rewrite Hcl. unfold common_len.
    destruct (str_take_commonprefix (uuid a) (uuid b)) as [-> ->]. done.
Qed.

Lemma priorities_table :
  forallb (fun n1 => forallb (priorities_agree n1) (seq 0 100)) (seq 0 100)
  = true.
Proof. vm_compute. reflexivity. Qed.

Lemma priority_in_range int value s :
  priority int value = Ok s →
  ∃ n, int value = Ok (Z.of_nat n) ∧ n < 100 ∧ s = format_02 (Z.of_nat n).
Proof.
  unfold priority. destruct (int value) as [n | x]; [| done].
  destruct (Z.leb_spec 0 n), (Z.ltb_spec n 100); simpl; try done.
  intros [= <-]. exists (Z.to_nat n). rewrite Z2Nat.id by done.
  split; [done |]. split; [lia | done].
Qed.

(** X17. The texts [priority] accepts have two characters, and they compare
    as the numbers do: a priority is before another one as a string
    exactly when it is smaller as a number, and equal texts are equal
    numbers. *)
Theorem priority_keeps_order int v1 v2 s1 s2 :
  priority int v1 = Ok s1 →
  priority int v2 = Ok s2 →
  ∃ n1 n2,
    int v1 = Ok n1 ∧ int v2 = Ok n2
    ∧ String.length s1 = 2
    ∧ (String.ltb s1 s2 = true ↔ (n1 < n2)%Z)
    ∧ (s1 = s2 ↔ n1 = n2).
Proof.
  intros (n1 & Hv1 & Hn1 & ->)%priority_in_range
         (n2 & Hv2 & Hn2 & ->)%priority_in_range.
  exists (Z.of_nat n1), (Z.of_nat n2). split; [done |]. split; [done |].
  pose proof priorities_table as Htable.
  rewrite forallb_forall in Htable.
  specialize (Htable n1). rewrite forallb_forall in Htable.
  specialize (Htable ltac:(apply in_seq; lia) n2 ltac:(apply in_seq; lia)).
  unfold priorities_agree in Htable.
  apply andb_true_iff in Htable as [[Hlen Hlt]%andb_true_iff Heq].
  apply Nat.eqb_eq in Hlen. apply Bool.eqb_prop in Hlt, Heq.
  split; [done |]. split.
  - rewrite Hlt, Nat.ltb_lt. lia.
  - rewrite <- String.eqb_eq, Heq, Nat.eqb_eq. lia.
Qed.

Lemma filter_agent_selected agents pattern opts :
  by_uuid opts = false → by_name opts = false → by_tag opts = false →
  filter_agent agents pattern opts = list_to_set (selected agents pattern).
Proof.
  intros Hu Hn Ht. unfold filter_agent, filter_agents, selected. simpl.
  rewrite Hu, Hn, Ht. destruct (escape pattern) as [regex w]. simpl.
  destruct (List.filter _ agents) as [| a [| b l]]; simpl.
  - destruct (List.filter _ agents); simpl; [done |].
    by rewrite union_empty_l_L.
  - by rewrite union_empty_l_L.
  - done.
Qed.

Lemma size_selected agents pattern opts :
  by_uuid opts = false → by_name opts = false → by_tag opts = false →
  NoDup (selected agents pattern) →
  size (filter_agent agents pattern opts) = length (selected agents pattern).
Proof.
  intros Hu Hn Ht Hnd. rewrite filter_agent_selected by done.
  by apply size_list_to_set.
Qed.

Lemma elem_of_selected agents pattern opts a :
  by_uuid opts = false → by_name opts = false → by_tag opts = false →
  a ∈ filter_agent agents pattern opts ↔ a ∈ selected agents pattern.
Proof.
  intros Hu Hn Ht. rewrite filter_agent_selected by done.
  apply elem_of_list_to_set.
Qed.

Section command_proofs.
Context {C : Type} (e : Env C).

Lemma bind_run {S A B} (m : M (Env C) S A) (k : A → M (Env C) S B) st a st1 :
  m e st = (Return a, st1) → bind m k e st = k a e st1.
Proof. unfold bind. by intros ->. Qed.

Lemma remove_one (a : Agent) (st : State C * Console) :
  ∃ st',
    (_stdout_write
       ("Removing " +:+ uuid a +:+ " " +:+ name a
        +:+ String newline EmptyString) ;;
     connection_call (Installer.remove_agent (uuid a)))%py e st
    = (Return tt, st')
    ∧ agents st'.1.1 = delete (uuid a) (agents st.1.1).
Proof.
  eexists. unfold _stdout_write, connection_call, Installer.remove_agent,
    aip_remove_agent, record, on_platform, bind, modify, gets, ask, ret.
  simpl. split; reflexivity.
Qed.

Lemma remove_each (l : list Agent) : ∀ st : State C * Console,
  ∃ st',
    for_each l (fun agent =>
      _stdout_write
        ("Removing " +:+ uuid agent +:+ " " +:+ name agent
         +:+ String newline EmptyString) ;;
      connection_call (Installer.remove_agent (uuid agent)))%py e st
    = (Return tt, st')
    ∧ ∀ u, agents st'.1.1 !! u
           = if bool_decide (u ∈ uuid <$> l) then None
             else agents st.1.1 !! u.
Proof.
  induction l as [| a l IH]; intros st.
  - exists st. split; [done |]. intros u.
    by rewrite bool_decide_eq_false_2 by apply not_elem_of_nil.
  - destruct (remove_one a st) as (st1 & Hone & Hagents).
    destruct (IH st1) as (st2 & Hrest & Hlook).
    exists st2. cbn [for_each]. unfold bind at 1. rewrite Hone.
    split; [done |]. intros u. rewrite Hlook, Hagents, fmap_cons.
    destruct (decide (u = uuid a)) as [-> | Hne].
    + rewrite lookup_delete_eq.
      rewrite (bool_decide_eq_true_2 (uuid a ∈ uuid a :: _)) by by left.
      by case_bool_decide.
    + rewrite lookup_delete_ne by done.
      rewrite (bool_decide_ext (u ∈ uuid a :: (uuid <$> l))
                 (u ∈ uuid <$> l)); [done |].
      rewrite elem_of_cons. intuition.
Qed.

Lemma remove_agent_loop_spec opts remove_auth yielded :
  ∀ st : State C * Console,
  let r := remove_agent_loop opts remove_auth yielded e st in
  r.1 = Return (if bool_decide (gone_through opts yielded = yielded)
                then None else Some 10%Z)
  ∧ (∀ y a, y ∈ gone_through opts yielded → a ∈ y.2 →
       agents r.2.1.1 !! uuid a = None)
  ∧ (∀ u, (∀ y a, y ∈ gone_through opts yielded → a ∈ y.2 → uuid a ≠ u) →
       agents r.2.1.1 !! u = agents st.1.1 !! u)
  ∧ (∀ u, agents st.1.1 !! u = None → agents r.2.1.1 !! u = None).
Proof.
  induction yielded as [| [p m] rest IH]; intros st; simpl.
  - split; [done |]. split; [by intros ?? ?%elem_of_nil | done].
  - assert (∀ st0 : State C * Console,
      let r := (for_each (elements m) (fun agent =>
                  _stdout_write
                    ("Removing " +:+ uuid agent +:+ " " +:+ name agent
                     +:+ String newline EmptyString) ;;
                  connection_call (Installer.remove_agent (uuid agent)))%py ;;
                remove_agent_loop opts remove_auth rest)%py e st0 in
      r.1 = Return (if bool_decide (gone_through opts rest = rest)
                    then None else Some 10%Z)
      ∧ (∀ y a, y ∈ (p, m) :: gone_through opts rest → a ∈ y.2 →
           agents r.2.1.1 !! uuid a = None)
      ∧ (∀ u, (∀ y a, y ∈ (p, m) :: gone_through opts rest → a ∈ y.2 →
                 uuid a ≠ u) →
           agents r.2.1.1 !! u = agents st0.1.1 !! u)
      ∧ (∀ u, agents st0.1.1 !! u = None → agents r.2.1.1 !! u = None))
      as Hstep.
    { intros st0. destruct (remove_each (elements m) st0)
        as (st1 & Hrun & Hlook).
      cbv zeta.
      rewrite (bind_run _ _ _ _ _ Hrun).
      destruct (IH st1) as (Hret & Hgone & Hkept & Hnone).
      split; [done |]. split; [| split].
      - intros y a [-> | Hy]%elem_of_cons Ha; [| by eapply Hgone].
        simpl in Ha. apply Hnone. rewrite Hlook.
        rewrite bool_decide_eq_true_2; [done |].
        apply list_elem_of_fmap. exists a. by rewrite elem_of_elements.
      - intros u Hu. rewrite Hkept, Hlook.
        + rewrite bool_decide_eq_false_2; [done |].
          intros (a & -> & Ha%elem_of_elements)%list_elem_of_fmap.
          by apply (Hu (p, m) a); [left | |].
        + intros y a Hy. apply Hu. by right.
      - intros u Hu. apply Hnone. rewrite Hlook, Hu.
        by destruct (bool_decide (u ∈ uuid <$> elements m)). }
    destruct (decide (m = ∅)) as [-> | Hempty].
    + rewrite (bool_decide_eq_true_2 (∅ = ∅)), size_empty by done. simpl.
      unfold bind at 1, _stderr_write at 1, modify at 1.
      destruct (Hstep (st.1, {| stdout := stdout st.2;
                                stderr := stderr st.2 ++
                                  [command opts
                                   +:+ ": error: agent not found: " +:+ p
                                   +:+ String newline EmptyString] |}))
        as (Hret & Hgone & Hkept & Hnone).
      split; [| split; [exact Hgone | split; [exact Hkept | exact Hnone]]].
      rewrite Hret. repeat case_bool_decide; congruence.
    + rewrite (bool_decide_eq_false_2 (m = ∅)) by done.
      destruct (bool_decide (1 < size m) && negb (force opts)) eqn:Hmany.
      * split; [by rewrite bool_decide_eq_false_2 |].
        split; [by intros ?? ?%elem_of_nil | done].
      * destruct (Hstep st) as (Hret & Hgone & Hkept & Hnone).
        split; [| split; [exact Hgone | split; [exact Hkept | exact Hnone]]].
        rewrite Hret. repeat case_bool_decide; congruence.
Qed.

Lemma gone_through_all opts (agents0 : list Agent) (ps : list string) :
  force opts = true
  ∨ (∀ q, q ∈ ps → size (filter_agent agents0 q opts) ≤ 1) →
  gone_through opts
    ((fun q => (q, filter_agent agents0 q opts)) <$> ps)
  = (fun q => (q, filter_agent agents0 q opts)) <$> ps.
Proof.
  intros Hok. induction ps as [| q ps IH]; [done |].
  rewrite fmap_cons. cbn [gone_through snd]. rewrite IH.
  - destruct Hok as [-> | Hsmall]; [by rewrite andb_false_r |].
    rewrite bool_decide_eq_false_2; [done |].
    specialize (Hsmall q ltac:(by left)). lia.
  - destruct Hok as [? | Hsmall]; [by left | right].
    intros q' Hq'. apply Hsmall. by right.
Qed.

Lemma gone_through_before opts (agents0 : list Agent) before p after :
  force opts = false →
  (∀ q, q ∈ before → size (filter_agent agents0 q opts) ≤ 1) →
  1 < size (filter_agent agents0 p opts) →
  gone_through opts
    ((fun q => (q, filter_agent agents0 q opts)) <$> before ++ p :: after)
  = (fun q => (q, filter_agent agents0 q opts)) <$> before.
Proof.
  intros Hforce Hsmall Hmany.
  induction before as [| q before IH];
    [rewrite app_nil_l | rewrite <- app_comm_cons]; rewrite fmap_cons;
    cbn [gone_through snd].
  - by rewrite bool_decide_eq_true_2, Hforce.
  - rewrite IH by (intros q' Hq'; apply Hsmall; by right).
    rewrite bool_decide_eq_false_2; [done |].
    specialize (Hsmall q ltac:(by left)). lia.
Qed.

(** X18. Without [--force], the first pattern that selects several agents
    ends [remove_agent] with 10; the agents selected by the patterns
    before it have been removed by then, and every other agent is still
    installed, also those the later patterns select. *)
Theorem remove_stops_at_ambiguous_pattern opts remove_auth
    (st : State C * Console) before p after :
  force opts = false →
  pattern opts = before ++ p :: after →
  let agents0 := _list_agents st.1.1 in
  (∀ q, q ∈ before → size (filter_agent agents0 q opts) ≤ 1) →
  1 < size (filter_agent agents0 p opts) →
  let r := remove_agent opts remove_auth e st in
  r.1 = Return (Some 10%Z)
  ∧ (∀ q a, q ∈ before → a ∈ filter_agent agents0 q opts →
       agents r.2.1.1 !! uuid a = None)
  ∧ (∀ u, (∀ q a, q ∈ before → a ∈ filter_agent agents0 q opts →
             uuid a ≠ u) →
       agents r.2.1.1 !! u = agents st.1.1 !! u).
Proof.
  intros Hforce Hpat agents0 Hsmall Hmany r.
  unfold r, remove_agent, bind, gets. fold agents0.
  rewrite Hpat, filter_agents_each.
  destruct (remove_agent_loop_spec opts remove_auth
              ((fun q => (q, filter_agent agents0 q opts))
                 <$> before ++ p :: after) st)
    as (Hret & Hgone & Hkept & _).
  rewrite (gone_through_before opts agents0 before p after) in *; try done.
  split; [| split].
  - rewrite Hret, bool_decide_eq_false_2; [done |].
    intros Heq%(f_equal length).
    rewrite !length_fmap, length_app in Heq. simpl in Heq. lia.
  - intros q a Hq Ha. apply (Hgone (q, filter_agent agents0 q opts) a);
      [| done].
    apply list_elem_of_fmap. by exists q.
  - intros u Hu. apply Hkept.
    intros y a (q & -> & Hq)%list_elem_of_fmap Ha. by apply (Hu q a).
Qed.

(** X19. With [--force], or when no pattern selects more than one agent,
    [remove_agent] returns [None]; every agent that a pattern selected is
    removed and no other agent is. *)
Theorem remove_gets_through opts remove_auth (st : State C * Console) :
  let agents0 := _list_agents st.1.1 in
  force opts = true
  ∨ (∀ q, q ∈ pattern opts → size (filter_agent agents0 q opts) ≤ 1) →
  let r := remove_agent opts remove_auth e st in
  r.1 = Return None
  ∧ (∀ q a, q ∈ pattern opts → a ∈ filter_agent agents0 q opts →
       agents r.2.1.1 !! uuid a = None)
  ∧ (∀ u, (∀ q a, q ∈ pattern opts → a ∈ filter_agent agents0 q opts →
             uuid a ≠ u) →
       agents r.2.1.1 !! u = agents st.1.1 !! u).
Proof.
  intros agents0 Hok r.
  unfold r, remove_agent, bind, gets. fold agents0.
  rewrite filter_agents_each.
  destruct (remove_agent_loop_spec opts remove_auth
              ((fun q => (q, filter_agent agents0 q opts)) <$> pattern opts)
              st)
    as (Hret & Hgone & Hkept & _).
  rewrite (gone_through_all opts agents0 (pattern opts)) in * by done.
  split; [| split].
  - by rewrite Hret, bool_decide_eq_true_2.
  - intros q a Hq Ha. apply (Hgone (q, filter_agent agents0 q opts) a);
      [| done].
    apply list_elem_of_fmap. by exists q.
  - intros u Hu. apply Hkept.
    intros y a (q & -> & Hq)%list_elem_of_fmap Ha. by apply (Hu q a).
Qed.
End command_proofs.


Lemma literal_pattern_matches_witness :
  (re_match (escape "a1").1 "a1b2" = true ↔ String.prefix "a1" "a1b2" = true)
  ∧ (re_match ((escape "a1").1 ++ [EndOfString]) "a1b2" = true
     ↔ "a1b2" = "a1" ∨ "a1b2" = "a1" +:+ String newline EmptyString).
Proof.
  apply (literal_pattern_matches "a1" "a1b2").
  intros c [<- | [<- | []]]; split; discriminate.
Defined.

Lemma selection_without_options_witness :
  listener_2 ∈ filter_agent (_list_agents crowd) "a1c" (plain ["a1c"])
  ↔ listener_2 ∈ _list_agents crowd
    ∧ ((glob anything "a1c" (uuid listener_2)
        ∧ ∀ b, b ∈ _list_agents crowd → glob anything "a1c" (uuid b) →
            b = listener_2)
       ∨ ((∀ b, b ∈ _list_agents crowd → ¬ glob anything "a1c" (uuid b))
          ∧ glob anything "a1c" (name listener_2))).
Proof.
  apply (selection_without_options (_list_agents crowd) ["a1c"]
           (plain ["a1c"]) "a1c");
    try reflexivity.
  - apply (bool_decide_unpack _). vm_compute. exact I.
  - rewrite filter_agents_each. apply list_elem_of_singleton. reflexivity.
Defined.

Lemma selection_with_options_witness :
  let opts := {| command := "list"; pattern := ["listener*"];
                 by_name := true; by_tag := false; by_uuid := false;
                 force := false |} in
  forwarder ∈ filter_agent fleet "listener*" opts
  ↔ forwarder ∈ fleet
    ∧ ((by_uuid opts = true ∧ glob at_end "listener*" (uuid forwarder))
       ∨ (by_name opts = true ∧ glob at_end "listener*" (name forwarder))
       ∨ (by_tag opts = true
          ∧ glob at_end "listener*" (default EmptyString (tag forwarder)))).
Proof.
  intros opts.
  apply (selection_with_options fleet ["listener*"] opts "listener*").
  - reflexivity.
  - rewrite filter_agents_each. apply list_elem_of_singleton. reflexivity.
Defined.

Lemma priority_keeps_order_witness :
  ∃ n1 n2,
    decimal "7" = Ok n1 ∧ decimal "50" = Ok n2
    ∧ String.length "07" = 2
    ∧ (String.ltb "07" "50" = true ↔ (n1 < n2)%Z)
    ∧ ("07" = "50" ↔ n1 = n2).
Proof.
  apply (priority_keeps_order decimal "7" "50" "07" "50"); reflexivity.
Defined.

Lemma remove_stops_at_ambiguous_pattern_witness :
  let opts := plain ["a1c"; "listener"; "f00d"] in
  let r := remove_agent opts true
             (sender_env toy_hash "u-2" data_dir_of)
             ((crowd, fresh_session (sender_start [])), quiet) in
  r.1 = Return (Some 10%Z)
  ∧ agents r.2.1.1 !! "a1c3" = None
  ∧ agents r.2.1.1 !! "a1b2" = Some (registered listener_1)
  ∧ agents r.2.1.1 !! "f00d" = Some (registered forwarder).
Proof.
  intros opts r.
  assert (selected (_list_agents crowd) "a1c" = [listener_2]) as Hsel
    by (vm_compute; reflexivity).
  assert (selected (_list_agents crowd) "listener"
          = [listener_2; listener_1]) as Hmany
    by (vm_compute; reflexivity).
  destruct (remove_stops_at_ambiguous_pattern
              (sender_env toy_hash "u-2" data_dir_of) opts true
              ((crowd, fresh_session (sender_start [])), quiet)
              ["a1c"] "listener" ["f00d"])
    as (Hret & Hgone & Hkept).
  - reflexivity.
  - reflexivity.
  - intros q Hq. apply list_elem_of_singleton in Hq. subst q. cbn [fst].
    rewrite (size_selected _ _ opts eq_refl eq_refl eq_refl);
      rewrite Hsel; [apply le_n | apply NoDup_singleton].
  - cbn [fst].
    rewrite (size_selected _ _ opts eq_refl eq_refl eq_refl);
      rewrite Hmany; [apply le_n |].
    apply NoDup_cons. split; [| apply NoDup_singleton].
    intros Hin. apply list_elem_of_singleton in Hin. discriminate Hin.
  - split; [exact Hret |]. split; [| split].
    + apply (Hgone "a1c" listener_2); [left |].
      cbn [fst].
      apply (elem_of_selected _ _ opts _ eq_refl eq_refl eq_refl).
      rewrite Hsel. left.
    + refine (eq_trans (Hkept "a1b2" _) eq_refl).
      intros q a Hq Ha. apply list_elem_of_singleton in Hq. subst q.
      cbn [fst] in Ha.
      apply (elem_of_selected _ _ opts _ eq_refl eq_refl eq_refl) in Ha.
      rewrite Hsel in Ha. apply list_elem_of_singleton in Ha. subst a.
      discriminate.
    + refine (eq_trans (Hkept "f00d" _) eq_refl).
      intros q a Hq Ha. apply list_elem_of_singleton in Hq. subst q.
      cbn [fst] in Ha.
      apply (elem_of_selected _ _ opts _ eq_refl eq_refl eq_refl) in Ha.
      rewrite Hsel in Ha. apply list_elem_of_singleton in Ha. subst a.
      discriminate.
Defined.

Lemma remove_gets_through_witness :
  let opts := {| command := "remove"; pattern := ["listener"; "f00d"];
                 by_name := false; by_tag := false; by_uuid := false;
                 force := true |} in
  let r := remove_agent opts true
             (sender_env toy_hash "u-2" data_dir_of)
             ((crowd, fresh_session (sender_start [])), quiet) in
  r.1 = Return None
  ∧ agents r.2.1.1 !! "a1b2" = None
  ∧ agents r.2.1.1 !! "f00d" = None.
Proof.
  intros opts r.
  assert (selected (_list_agents crowd) "listener"
          = [listener_2; listener_1]) as Hsel1
    by (vm_compute; reflexivity).
  assert (selected (_list_agents crowd) "f00d" = [forwarder]) as Hsel2
    by (vm_compute; reflexivity).
  destruct (remove_gets_through
              (sender_env toy_hash "u-2" data_dir_of) opts true
              ((crowd, fresh_session (sender_start [])), quiet))
    as (Hret & Hgone & _).
  - left. reflexivity.
  - split; [exact Hret |]. split.
    + apply (Hgone "listener" listener_1); [left |].
      cbn [fst].
      apply (elem_of_selected _ _ opts _ eq_refl eq_refl eq_refl).
      rewrite Hsel1. right. left.
    + apply (Hgone "f00d" forwarder); [right; left |].
      cbn [fst].
      apply (elem_of_selected _ _ opts _ eq_refl eq_refl eq_refl).
      rewrite Hsel2. left.
Defined.

End CliProofs.
